(** * ots-crawl-3d: the building crawler ([src/app/modules/crawler.py])

    A shallow embedding of [BuildingCrawler]: URL synthesis from grid
    features, the request filter, the response handler writing to the CSV
    sink, one page session, and the batch scheduler.

    Python values coming from JSON are an inductive type; a call that may
    raise returns a [result]; code that touches the CSV file or the logger
    runs in a state-and-exception monad over a [World]; the coroutines run
    by [asyncio.gather] are a small-step machine whose steps are the
    stretches of code between two [await]s. *)

From Stdlib Require Import List String Ascii ZArith Bool Arith Lia.
From Stdlib Require Import DecimalString.
Import ListNotations.
Open Scope string_scope.
Open Scope list_scope.
Open Scope nat_scope.

Set Implicit Arguments.

(** ** Python strings *)

Module PyStr.

(** [s.startswith(p)] *)
Fixpoint startswith (s p : string) {struct p} : bool :=
  match p, s with
  | EmptyString, _ => true
  | String _ _, EmptyString => false
  | String a p', String b s' => Ascii.eqb a b && startswith s' p'
  end.

(** [needle in hay] on [str]: [needle] occurs at some offset of [hay]. *)
Fixpoint contains (needle hay : string) : bool :=
  startswith hay needle ||
  match hay with
  | EmptyString => false
  | String _ rest => contains needle rest
  end.

(** [s.endswith(suffix)] *)
Fixpoint endswith (s suffix : string) : bool :=
  String.eqb s suffix ||
  match s with
  | EmptyString => false
  | String _ rest => endswith rest suffix
  end.

(** Number of offsets of [hay] at which [needle] occurs. *)
Fixpoint occurrences (needle hay : string) : nat :=
  (if startswith hay needle then 1 else 0) +
  match hay with
  | EmptyString => 0
  | String _ rest => occurrences needle rest
  end.

(** [c in s] for one character. *)
Fixpoint has_char (c : ascii) (s : string) : bool :=
  match s with
  | EmptyString => false
  | String a rest => Ascii.eqb c a || has_char c rest
  end.

(** Every character of [s] is drawn from [alphabet]. *)
Fixpoint over (alphabet s : string) : bool :=
  match s with
  | EmptyString => true
  | String a rest => has_char a alphabet && over alphabet rest
  end.

End PyStr.

(** ** Python values as [json.load] and [response.json()] produce them *)

Set Warnings "-register-all".

(** A [dict] keeps insertion order; it is an association list read by first
    match.  A [float] is carried by its [repr], the only observation the
    crawler makes of a coordinate. *)
Inductive json : Type :=
| JNull
| JBool (b : bool)
| JInt (z : Z)
| JFloat (repr : string)
| JStr (s : string)
| JArr (items : list json)
| JObj (fields : list (string * json)).

(** ** Exceptions *)

Inductive exc : Type :=
| AttributeError
| TypeError
| ValueError
| IndexError
| JSONDecodeError
| OSError
| PlaywrightError
| TimeoutError.

Inductive result (A : Type) : Type :=
| Ok (a : A)
| Raise (e : exc).
Arguments Ok {A} a.
Arguments Raise {A} e.

Definition rbind {A B} (r : result A) (k : A -> result B) : result B :=
  match r with
  | Ok a => k a
  | Raise e => Raise e
  end.

Declare Scope result_scope.
Delimit Scope result_scope with result.
Notation "x <- r ;; k" := (rbind r (fun x => k))
  (at level 61, r at next level, right associativity) : result_scope.

(** A list comprehension whose element expression may raise: the first
    exception ends it. *)
Fixpoint rmap {A B} (f : A -> result B) (l : list A) : result (list B) :=
  match l with
  | [] => Ok []
  | x :: rest =>
      (y <- f x ;;
       ys <- rmap f rest ;;
       Ok (y :: ys))%result
  end.

(** ** Built-in operations on values *)

Module Py.

Fixpoint assoc (k : string) (d : list (string * json)) : option json :=
  match d with
  | [] => None
  | (k', v) :: rest => if String.eqb k k' then Some v else assoc k rest
  end.

(** [v.get(k, default)]: only a [dict] has [get]. *)
Definition get (v : json) (k : string) (default : json) : result json :=
  match v with
  | JObj d => Ok (match assoc k d with Some x => x | None => default end)
  | _ => Raise AttributeError
  end.

Definition keys (d : list (string * json)) : list string := map fst d.

(** Truth value, as tested by [if v:]. *)
Definition truthy (v : json) : bool :=
  match v with
  | JNull => false
  | JBool b => b
  | JInt z => negb (z =? 0)%Z
  | JFloat r => negb (String.eqb r "0.0" || String.eqb r "-0.0")
  | JStr s => negb (String.eqb s "")
  | JArr l => match l with [] => false | _ => true end
  | JObj d => match d with [] => false | _ => true end
  end.

Fixpoint chars (s : string) : list json :=
  match s with
  | EmptyString => []
  | String c rest => JStr (String c EmptyString) :: chars rest
  end.

(** [iter(v)]: a list gives its items, a dict its keys, a string its
    characters; nothing else is iterable. *)
Definition iter (v : json) : result (list json) :=
  match v with
  | JArr l => Ok l
  | JObj d => Ok (map JStr (keys d))
  | JStr s => Ok (chars s)
  | _ => Raise TypeError
  end.

(** [str(z)] for an [int]. *)
Definition str_int (z : Z) : string := NilZero.string_of_int (Z.to_int z).

(** Characters a float's [repr] is made of (digits, sign, point,
    exponent, [inf], [nan]). *)
Definition float_alphabet : string := "0123456789+-.einfa".

(** A JSON number: an [int], or a [float] with a well-formed [repr]. *)
Definition is_number (v : json) : bool :=
  match v with
  | JInt _ => true
  | JFloat r => negb (String.eqb r "") && PyStr.over float_alphabet r
  | _ => false
  end.

End Py.

(** ** Playwright objects, as far as the crawler looks at them *)

Module Request.
Record t : Type := { resource_type : string; url : string }.
End Request.

Module Response.
(** [json] is the outcome of [await response.json()]: the parsed body, or
    the exception raised when the body cannot be fetched or parsed. *)
Record t : Type := { url : string; json : result json }.
End Response.

(** One request the page makes and the response the network gives it when
    the route handler lets it through. *)
Record Exchange : Type := { ex_request : Request.t; ex_response : Response.t }.

(** How one page behaves: each call either goes through ([None]) or raises;
    [goto] and [wait_for_load_state] also see network traffic while they are
    suspended. *)
Module Page.
Record t : Type := {
  route : option exc;
  goto : string -> list Exchange * option exc;
  wait_for_load_state : list Exchange * option exc;
  close : option exc
}.
End Page.

(** ** [src/app/config.py] *)

Record Settings : Type := {
  debug : bool;
  crawler_url : string;
  blender_exe : string
}.

(** [Settings()] with no environment: the declared defaults. *)
Definition default_settings : Settings :=
  {| debug := false; crawler_url := ""; blender_exe := "" |}.

(** ** The world the crawler acts on *)

Definition row : Type := list json.

Inductive log_entry : Type :=
| Crawled (url : string) (data : json)
| FailedResponse (url : string) (e : exc)
| FailedCrawl (url : string) (e : exc).

(** Page life-cycle events; [n] is the position of the target in [urls]. *)
Inductive event : Type :=
| EvOpen (n : nat)
| EvClose (n : nat)
| EvCloseFailed (n : nat).

Record World : Type := {
  csv_rows : list row;        (* the rows [crawler_file] has taken, buffered or on the device *)
  log : list log_entry;       (* loguru output of this module *)
  trace : list event
}.

Definition with_rows (w : World) (rows : list row) : World :=
  {| csv_rows := csv_rows w ++ rows; log := log w; trace := trace w |}.

Definition with_log (w : World) (entry : log_entry) : World :=
  {| csv_rows := csv_rows w; log := log w ++ [entry]; trace := trace w |}.

Definition with_event (w : World) (ev : event) : World :=
  {| csv_rows := csv_rows w; log := log w; trace := trace w ++ [ev] |}.

Definition M (A : Type) : Type := World -> result A * World.

Definition ret {A} (a : A) : M A := fun w => (Ok a, w).

Definition raise {A} (e : exc) : M A := fun w => (Raise e, w).

Definition bind {A B} (m : M A) (k : A -> M B) : M B :=
  fun w =>
    match m w with
    | (Ok a, w') => k a w'
    | (Raise e, w') => (Raise e, w')
    end.

Definition lift {A} (r : result A) : M A := fun w => (r, w).

(** [try: body  except Exception as e: handler(e)] *)
Definition try_except {A} (body : M A) (handler : exc -> M A) : M A :=
  fun w =>
    match body w with
    | (Ok a, w') => (Ok a, w')
    | (Raise e, w') => handler e w'
    end.

(** [try: body  finally: final]; an exception of [final] replaces the
    outcome of [body]. *)
Definition try_finally {A} (body : M A) (final : M unit) : M A :=
  fun w =>
    match body w with
    | (r, w') =>
        match final w' with
        | (Ok _, w'') => (r, w'')
        | (Raise e, w'') => (Raise e, w'')
        end
    end.

(** A call that raises when the environment says so. *)
Definition outcome (o : option exc) : M unit :=
  match o with
  | None => ret tt
  | Some e => raise e
  end.

Declare Scope crawl_scope.
Delimit Scope crawl_scope with crawl.
Notation "x <- m ;; k" := (bind m (fun x => k))
  (at level 61, m at next level, right associativity) : crawl_scope.
Notation "m ;; k" := (bind m (fun _ => k))
  (at level 61, right associativity) : crawl_scope.

Definition logger (entry : log_entry) : M unit :=
  fun w => (Ok tt, with_log w entry).

Definition emit (ev : event) : M unit :=
  fun w => (Ok tt, with_event w ev).

Fixpoint for_each {A} (f : A -> M unit) (l : list A) : M unit :=
  match l with
  | [] => ret tt
  | x :: rest => (f x ;; for_each f rest)%crawl
  end.

(** ** [csv.DictWriter] over the output file *)

Module DictWriter.

(** [restval], the value written for a field the dict lacks. *)
Definition restval : json := JStr "".

(** [_dict_to_list] with the default [extrasaction="raise"]: a dict with
    a key outside [fieldnames] is refused; the others are laid out in
    header order. *)
Definition dict_to_list (fieldnames : list string) (rowdict : json) : result row :=
  match rowdict with
  | JObj d =>
      let wrong_fields :=
        filter (fun k => negb (existsb (String.eqb k) fieldnames)) (Py.keys d) in
      match wrong_fields with
      | [] =>
          Ok (map (fun key =>
                     match Py.assoc key d with
                     | Some v => v
                     | None => restval
                     end) fieldnames)
      | _ :: _ => Raise ValueError
      end
  | _ => Raise AttributeError
  end.

End DictWriter.

(** ** [BuildingCrawler] *)

(** [self.fieldnames] *)
Definition fieldnames : list string :=
  [ "bearing"; "camera"; "elevation"; "endDate"; "id"; "location"; "maxZoom";
    "minZoom"; "model"; "name"; "scale"; "startDate"; "types" ].

(** The world [__init__] leaves: the header row written, nothing logged. *)
Definition init_world : World :=
  {| csv_rows := [map JStr fieldnames]; log := []; trace := [] |}.

Definition resource_types : list string := ["image"; "font"; "media"].
Definition image_exts : list string := [".jpg"; ".jpeg"; ".png"; ".gif"; ".webp"; ".svg"].
Definition media_exts : list string := [".mp3"; ".mp4"; ".avi"; ".mov"; ".mkv"; ".webm"].
Definition font_exts : list string := [".woff"; ".woff2"; ".ttf"; ".eot"; ".otf"].

Definition is_abort_url (request : Request.t) : bool :=
  existsb (String.eqb (Request.resource_type request)) resource_types
  || existsb (fun ext => PyStr.contains ext (Request.url request)) image_exts
  || existsb (fun ext => PyStr.contains ext (Request.url request)) media_exts
  || existsb (fun ext => PyStr.contains ext (Request.url request)) font_exts.

Inductive route_action : Type := Abort | Continue.

Definition abort_url (request : Request.t) : route_action :=
  if is_abort_url request then Abort else Continue.

Definition zoom : string := "19.00".

(** [res_json.get("result", {}).get("objects", [])] *)
Definition result_objects (res_json : json) : result json :=
  (result <- Py.get res_json "result" (JObj []) ;;
   Py.get result "objects" (JArr []))%result.

(** [range(0, stop, step)] for a positive [step], as the loop it stands for. *)
Fixpoint range_loop (fuel i stop step : nat) : list nat :=
  match fuel with
  | 0 => []
  | S fuel' =>
      if i <? stop then i :: range_loop fuel' (i + step) stop step else []
  end.

(** [range(0, stop, step)]: a zero step is refused, a negative one gives
    nothing. *)
Definition range_step (stop : nat) (step : Z) : result (list nat) :=
  if (step =? 0)%Z then Raise ValueError
  else if (step <? 0)%Z then Ok []
  else Ok (range_loop stop 0 stop (Z.to_nat step)).

(** [urls[k]] *)
Definition index {A} (l : list A) (k : nat) : result A :=
  match nth_error l k with
  | Some x => Ok x
  | None => Raise IndexError
  end.

(** The targets of the batch starting at [i], each with its position:
    [[... urls[i + j] ... for j in range(min(num_pages, len(urls) - i))]]. *)
Definition batch_at (urls : list string) (num_pages : Z) (i : nat)
  : result (list (nat * string)) :=
  rmap (fun j => (u <- index urls (i + j) ;; Ok (i + j, u))%result)
       (seq 0 (Z.to_nat (Z.min num_pages (Z.of_nat (List.length urls) - Z.of_nat i)))).

(** The batches of [run], in the order the [for] loop forms them. *)
Definition batches (urls : list string) (num_pages : Z)
  : result (list (list (nat * string))) :=
  (starts <- range_step (List.length urls) num_pages ;;
   rmap (batch_at urls num_pages) starts)%result.

(** One coroutine [process_page(context, urls[n])], between two [await]s. *)
Inductive task : Type :=
| TStart (n : nat) (url : string)
| TRoute (n : nat) (url : string) (page : Page.t)
| TGoto (n : nat) (url : string) (page : Page.t) (traffic : list Exchange)
| TWait (n : nat) (url : string) (page : Page.t) (traffic : list Exchange)
| TClose (n : nat) (page : Page.t)
| TDone (n : nat)
| TRaised (n : nat) (e : exc).

Definition task_id (t : task) : nat :=
  match t with
  | TStart n _ | TRoute n _ _ | TGoto n _ _ _ | TWait n _ _ _
  | TClose n _ | TDone n | TRaised n _ => n
  end.

Definition returned (t : task) : bool :=
  match t with
  | TDone _ => true
  | _ => false
  end.

(** The coroutines [run] hands to [asyncio.gather] for one batch. *)
Definition spawn (batch : list (nat * string)) : list task :=
  map (fun target => TStart (fst target) (snd target)) batch.

(** [run] in the middle of its loop: the batches not yet started, the
    coroutines of the batch being gathered, and the world. *)
Record Config : Type := {
  pending : list (list (nat * string));
  running : list task;
  world : World
}.

(** Pages open after a trace: opened and not yet closed. *)
Fixpoint open_pages (tr : list event) : Z :=
  match tr with
  | [] => 0
  | EvOpen _ :: rest => open_pages rest + 1
  | EvClose _ :: rest => open_pages rest - 1
  | EvCloseFailed _ :: rest => open_pages rest
  end%Z.

Section BuildingCrawler.

(** [settings] of [src/app/config.py]. *)
Variable settings : Settings.

(** Python's [repr] of a list or a dict, which [str] falls back to. *)
Variable py_repr : json -> string.

(** Whether the output file takes one more row, given the rows it has
    taken.  The file is opened buffered: a write reaches the device, and can
    fail, only when it makes the buffer flush; what is still buffered at the
    end is flushed when the file is closed, outside the loop of [run]. *)
Variable file_accepts : list row -> row -> bool.

(** [context.new_page()] as called for target [n]. *)
Variable context : nat -> result Page.t.

Local Open Scope crawl_scope.

(** [f"{v}"] *)
Definition py_str (v : json) : string :=
  match v with
  | JNull => "None"
  | JBool true => "True"
  | JBool false => "False"
  | JInt z => Py.str_int z
  | JFloat r => r
  | JStr s => s
  | JArr _ | JObj _ => py_repr v
  end.

Definition generate_url (feature : json) : result string :=
  (properties <- Py.get feature "properties" JNull ;;
   lat <- Py.get properties "lat" JNull ;;
   properties' <- Py.get feature "properties" JNull ;;
   lng <- Py.get properties' "lng" JNull ;;
   Ok (crawler_url settings ++ "?camera=" ++ py_str lat ++ "," ++ py_str lng
         ++ "," ++ zoom ++ ",0.0,0.0,d")%string)%result.

(** [urls] of [run]: one URL per feature of [grid_data], in order. *)
Definition targets (grid_data : json) : result (list string) :=
  (features <- Py.get grid_data "features" JNull ;;
   items <- Py.iter features ;;
   rmap generate_url items)%result.

(** The file write under [csv.writer.writerow]: the row is taken, or the
    flush it causes fails with [OSError]. *)
Definition writerow (r : row) : M unit :=
  fun w =>
    if file_accepts (csv_rows w) r
    then (Ok tt, with_rows w [r])
    else (Raise OSError, w).

(** [csv.writer.writerows] over the lazy [map(self._dict_to_list, ...)]:
    each dict is converted when its turn comes, then written. *)
Definition write_dict (rowdict : json) : M unit :=
  r <- lift (DictWriter.dict_to_list fieldnames rowdict) ;;
  writerow r.

Fixpoint writerows_loop (rowdicts : list json) : M unit :=
  match rowdicts with
  | [] => ret tt
  | rowdict :: rest => write_dict rowdict ;; writerows_loop rest
  end.

(** [self.writer.writerows(objects)] *)
Definition writerows (rowdicts : json) : M unit :=
  items <- lift (Py.iter rowdicts) ;;
  writerows_loop items.

Definition response_url (response : Response.t) : M unit :=
  if PyStr.contains "mode=3d" (Response.url response) then
    try_except
      (res_json <- lift (Response.json response) ;;
       objects <- lift (result_objects res_json) ;;
       (if Py.truthy objects then writerows objects else ret tt) ;;
       logger (Crawled (Response.url response) objects))
      (fun e => logger (FailedResponse (Response.url response) e))
  else ret tt.

(** A handler registered with [page.on] runs as a task of its own: what it
    raises is not raised in the page session.  The task is taken to run to
    its end when the response is delivered. *)
Definition detached (handler : M unit) : M unit :=
  fun w => (Ok tt, snd (handler w)).

(** One request of the page: the route handler decides; a request let
    through brings its response to the response handler. *)
Definition deliver (ex : Exchange) : M unit :=
  match abort_url (ex_request ex) with
  | Abort => ret tt
  | Continue => detached (response_url (ex_response ex))
  end.

(** An [await] on the page: traffic flows, then the call returns or
    raises. *)
Definition suspended (call : list Exchange * option exc) : M unit :=
  for_each deliver (fst call) ;; outcome (snd call).

Definition new_page (n : nat) : M Page.t :=
  page <- lift (context n) ;;
  emit (EvOpen n) ;;
  ret page.

Definition close_page (n : nat) (page : Page.t) : M unit :=
  match Page.close page with
  | None => emit (EvClose n)
  | Some e => emit (EvCloseFailed n) ;; raise e
  end.

(** The [try ... except Exception] block of [process_page]. *)
Definition guarded (page : Page.t) (url : string) : M unit :=
  try_except
    (outcome (Page.route page) ;;
     suspended (Page.goto page url) ;;
     suspended (Page.wait_for_load_state page))
    (fun e => logger (FailedCrawl url e)).

Definition process_page (n : nat) (url : string) : M unit :=
  page <- new_page n ;;
  try_finally
    (try_except
       (outcome (Page.route page) ;;
        suspended (Page.goto page url) ;;
        suspended (Page.wait_for_load_state page))
       (fun e => logger (FailedCrawl url e)))
    (close_page n page).

(** One step of a coroutine: from one suspension point to the next. *)
Definition task_step (t : task) (w : World) : option (task * World) :=
  match t with
  | TStart n url =>
      Some (match new_page n w with
            | (Ok page, w') => (TRoute n url page, w')
            | (Raise e, w') => (TRaised n e, w')
            end)
  | TRoute n url page =>
      Some (match Page.route page with
            | None => (TGoto n url page (fst (Page.goto page url)), w)
            | Some e => (TClose n page, snd (logger (FailedCrawl url e) w))
            end)
  | TGoto n url page (ex :: rest) =>
      Some (TGoto n url page rest, snd (deliver ex w))
  | TGoto n url page [] =>
      Some (match snd (Page.goto page url) with
            | None => (TWait n url page (fst (Page.wait_for_load_state page)), w)
            | Some e => (TClose n page, snd (logger (FailedCrawl url e) w))
            end)
  | TWait n url page (ex :: rest) =>
      Some (TWait n url page rest, snd (deliver ex w))
  | TWait n url page [] =>
      Some (match snd (Page.wait_for_load_state page) with
            | None => (TClose n page, w)
            | Some e => (TClose n page, snd (logger (FailedCrawl url e) w))
            end)
  | TClose n page =>
      Some (match close_page n page w with
            | (Ok _, w') => (TDone n, w')
            | (Raise e, w') => (TRaised n e, w')
            end)
  | TDone _ | TRaised _ _ => None
  end.

(** [run] after the targets and batches are formed: any coroutine of the
    gathered batch may take the next step; the loop moves on to the next
    batch once every coroutine of the current one has returned. *)
Inductive crawl_step : Config -> Config -> Prop :=
| step_task : forall pend before t after w t' w',
    task_step t w = Some (t', w') ->
    crawl_step {| pending := pend; running := before ++ t :: after; world := w |}
               {| pending := pend; running := before ++ t' :: after; world := w' |}
| step_gather : forall batch pend tasks w,
    forallb returned tasks = true ->
    crawl_step {| pending := batch :: pend; running := tasks; world := w |}
               {| pending := pend; running := spawn batch; world := w |}.

Inductive crawl_steps : Config -> Config -> Prop :=
| steps_refl : forall c, crawl_steps c c
| steps_snoc : forall c c' c'', crawl_steps c c' -> crawl_step c' c'' -> crawl_steps c c''.

(** [run] at the top of its loop. *)
Definition start (urls : list string) (num_pages : Z) (w : World) : result Config :=
  (bs <- batches urls num_pages ;;
   Ok {| pending := bs; running := []; world := w |})%result.

(** The states [run] can be in once the browser and its context are up:
    the targets are synthesized from [grid_data], then the loop gathers
    batch after batch. *)
Definition run (grid_data : json) (num_pages : Z) (w : World) (c : Config) : Prop :=
  exists urls c0,
    targets grid_data = Ok urls /\
    start urls num_pages w = Ok c0 /\
    crawl_steps c0 c.

(** A coroutine run alone until it finishes. *)
Fixpoint run_task (fuel : nat) (t : task) (w : World) : task * World :=
  match fuel with
  | 0 => (t, w)
  | S fuel' =>
      match task_step t w with
      | Some (t', w') => run_task fuel' t' w'
      | None => (t, w)
      end
  end.

End BuildingCrawler.

(** ** Vocabulary of the statements *)

(** The URL as the specification writes it:
    [{base}?camera={lat},{lng},{zoom},0.0,0.0,d]. *)
Definition url_template (base lat lng : string) : string :=
  (base ++ "?camera=" ++ lat ++ "," ++ lng ++ "," ++ zoom ++ ",0.0,0.0,d")%string.

(** [properties.get(k)] *)
Definition coordinate (properties : list (string * json)) (k : string) : json :=
  match Py.assoc k properties with
  | Some v => v
  | None => JNull
  end.

(** A feature that is a dict whose ["properties"] is a dict. *)
Definition has_properties (feature : json) : bool :=
  match feature with
  | JObj d =>
      match Py.assoc "properties" d with
      | Some (JObj _) => true
      | _ => false
      end
  | _ => false
  end.

Definition extensions : list string := image_exts ++ media_exts ++ font_exts.

(** The filter as the specification words it: the resource category is one
    of the three, or the URL ends with one of the listed extensions. *)
Definition should_abort_by_suffix (request : Request.t) : bool :=
  existsb (String.eqb (Request.resource_type request)) resource_types
  || existsb (PyStr.endswith (Request.url request)) extensions.

Definition in_header (k : string) : bool := existsb (String.eqb k) fieldnames.

(** A dict all of whose keys are header fields. *)
Definition conforming (v : json) : bool :=
  match v with
  | JObj d => forallb in_header (Py.keys d)
  | _ => false
  end.

(** The row of a dict: its values in header order, the empty string where
    the dict has no such key. *)
Definition row_of (v : json) : row :=
  match v with
  | JObj d =>
      map (fun key => match Py.assoc key d with
                      | Some x => x
                      | None => JStr ""
                      end) fieldnames
  | _ => []
  end.

(** The file takes [rows] one after the other, starting from [content]. *)
Fixpoint accepts_all (file_accepts : list row -> row -> bool)
         (content rows : list row) : bool :=
  match rows with
  | [] => true
  | r :: rest =>
      file_accepts content r && accepts_all file_accepts (content ++ [r]) rest
  end.

(** [m] leaves the world related by [R] to the world it started from. *)
Definition keeps (R : World -> World -> Prop) {A} (m : M A) : Prop :=
  forall w, R w (snd (m w)).

(** The trace is untouched. *)
Definition trace_kept (w w' : World) : Prop := trace w' = trace w.


Definition same_trace {A} (m : M A) : Prop := keeps trace_kept m.


(** The state of a coroutine whose [process_page] ended with [r]. *)
Definition finished (n : nat) (r : result unit) : task :=
  match r with
  | Ok _ => TDone n
  | Raise e => TRaised n e
  end.

(** The batch [run] forms at loop index [i], in closed form. *)
Definition chunk_at (urls : list string) (k i : nat) : list (nat * string) :=
  map (fun j => (i + j, nth (i + j) urls ""))
      (seq 0 (Nat.min k (List.length urls - i))).

(** Batches that follow one another from position [d]: each holds the next
    positions, none is empty or larger than [k], and only the last may be
    smaller than [k]. *)
Fixpoint chained (k d : nat) (bs : list (list (nat * string))) : Prop :=
  match bs with
  | [] => True
  | b :: rest =>
      map fst b = seq d (List.length b) /\
      0 < List.length b <= k /\
      (rest <> [] -> List.length b = k) /\
      chained k (d + List.length b) rest
  end.

(** A coroutine that may hold an open page. *)
Definition busy (t : task) : bool :=
  match t with
  | TStart _ _ | TDone _ => false
  | _ => true
  end.

(** A coroutine between [new_page] and [page.close]. *)
Definition inside (t : task) : bool :=
  match t with
  | TRoute _ _ _ | TGoto _ _ _ _ | TWait _ _ _ _ | TClose _ _ => true
  | _ => false
  end.

Definition page_opened (t : task) : bool := inside t || returned t.

Fixpoint count_busy (l : list task) : Z :=
  match l with
  | [] => 0
  | t :: rest => (if busy t then 1 else 0) + count_busy rest
  end%Z.

(** What one step of a coroutine does to its state and to the trace. *)
Inductive effect : task -> task -> list event -> Prop :=
| eff_open : forall n url page, effect (TStart n url) (TRoute n url page) [EvOpen n]
| eff_refused : forall n url e, effect (TStart n url) (TRaised n e) []
| eff_inside : forall t t',
    inside t = true -> inside t' = true -> task_id t' = task_id t -> effect t t' []
| eff_closed : forall n page, effect (TClose n page) (TDone n) [EvClose n]
| eff_close_failed : forall n page e,
    effect (TClose n page) (TRaised n e) [EvCloseFailed n].

(** What holds of [run] at every point of its loop, for batches of size
    [k]: [d] targets lie before the gathered batch. *)
Inductive invariant (k : nat) (c : Config) : Prop :=
| Invariant (d : nat)
    (ids : map task_id (running c) = seq d (List.length (running c)))
    (size : List.length (running c) <= k)
    (rest : chained k (d + List.length (running c)) (pending c))
    (base : Nat.divide k d)
    (next : pending c <> [] -> Nat.divide k (d + List.length (running c)))
    (earlier : forall i, i < d ->
       In (EvOpen i) (trace (world c)) /\ In (EvClose i) (trace (world c)))
    (opened : forall t, In t (running c) -> page_opened t = true ->
       In (EvOpen (task_id t)) (trace (world c)))
    (closed : forall t, In t (running c) -> returned t = true ->
       In (EvClose (task_id t)) (trace (world c)))
    (pages : (open_pages (trace (world c)) <= count_busy (running c))%Z)
    (bound : forall p s, trace (world c) = p ++ s ->
       (open_pages p <= Z.of_nat k)%Z)
    (barrier : forall p j s i, trace (world c) = p ++ EvOpen j :: s ->
       i / k < j / k -> In (EvOpen i) p /\ In (EvClose i) p).

(** ** Sample inputs *)

Definition sample_settings : Settings :=
  {| debug := false; crawler_url := "https://maps.example/3d"; blender_exe := "" |}.

(** A rendering of lists and dicts for the examples; no example formats one. *)
Definition sample_repr (v : json) : string := "{...}".

Definition writable : list row -> row -> bool := fun _ _ => true.

Definition saigon : json :=
  JObj [("type", JStr "Feature");
        ("properties", JObj [("lat", JFloat "10.7769"); ("lng", JFloat "106.7009")])].

Definition no_latitude : json :=
  JObj [("type", JStr "Feature");
        ("properties", JObj [("lng", JFloat "106.7009")])].

Definition sample_grid : json :=
  JObj [("type", JStr "FeatureCollection"); ("features", JArr [no_latitude; saigon])].

Definition versioned_image : Request.t :=
  {| Request.resource_type := "xhr";
     Request.url := "https://cdn.example/tiles/a.png?v=1" |}.

Definition data_url : string := "https://maps.example/api/objects?mode=3d&tile=7".

Definition data_response (objects : list json) : Response.t :=
  {| Response.url := data_url;
     Response.json := Ok (JObj [("result", JObj [("objects", JArr objects)])]) |}.

Definition building_a : json := JObj [("id", JStr "a")].

Definition building_b : json := JObj [("id", JStr "b")].

Definition tagged_building : json := JObj [("id", JStr "c"); ("height", JInt 12)].

Definition calm_page : Page.t :=
  {| Page.route := None;
     Page.goto := fun _ => ([], None);
     Page.wait_for_load_state := ([], None);
     Page.close := None |}.

Definition stuck_page : Page.t :=
  {| Page.route := None;
     Page.goto := fun _ => ([], Some TimeoutError);
     Page.wait_for_load_state := ([], None);
     Page.close := Some PlaywrightError |}.

Definition calm_browser : nat -> result Page.t := fun _ => Ok calm_page.

Definition no_browser : nat -> result Page.t := fun _ => Raise PlaywrightError.

Definition five_urls : list string := ["u0"; "u1"; "u2"; "u3"; "u4"].

(** ** Further vocabulary: the log and the rows of a run *)

(** A log entry written by the response handler (not by the page session). *)
Definition handler_entry (entry : log_entry) : bool :=
  match entry with
  | FailedCrawl _ _ => false
  | _ => true
  end.

(** The first of [page.route], [page.goto] and [page.wait_for_load_state] to
    raise, if any: the later ones are not called. *)
Definition first_failure (page : Page.t) (url : string) : option exc :=
  match Page.route page with
  | Some e => Some e
  | None =>
      match snd (Page.goto page url) with
      | Some e => Some e
      | None => snd (Page.wait_for_load_state page)
      end
  end.

(** The traffic a session lives to see: what flows before the first failure. *)
Definition handled (page : Page.t) (url : string) : list Exchange :=
  match Page.route page with
  | Some _ => []
  | None =>
      fst (Page.goto page url) ++
      match snd (Page.goto page url) with
      | Some _ => []
      | None => fst (Page.wait_for_load_state page)
      end
  end.


(** Entries were appended to the log, all of them by response handlers. *)
Definition handlers_logged (w w' : World) : Prop :=
  exists entries,
    log w' = log w ++ entries /\ forallb handler_entry entries = true.

(** A coroutine that ended with an exception. *)
Definition raised (t : task) : bool :=
  match t with
  | TRaised _ _ => true
  | _ => false
  end.

(** [run] has left its loop normally: no batch is left, every coroutine of
    the last batch has returned. *)
Definition completed (c : Config) : Prop :=
  pending c = [] /\ forallb returned (running c) = true.

(** ** Further sample inputs *)

Definition jpeg_request : Request.t :=
  {| Request.resource_type := "xhr";
     Request.url := "https://cdn.example/tiles/roof.jpeg" |}.

(** A data response that is served under a name with a listed extension. *)
Definition svg_data_url : string := "https://maps.example/api/objects.svg?mode=3d".

Definition svg_data_exchange : Exchange :=
  {| ex_request := {| Request.resource_type := "xhr"; Request.url := svg_data_url |};
     ex_response :=
       {| Response.url := svg_data_url;
          Response.json :=
            Ok (JObj [("result", JObj [("objects", JArr [building_a])])]) |} |}.

Definition data_exchange (objects : list json) : Exchange :=
  {| ex_request := {| Request.resource_type := "xhr"; Request.url := data_url |};
     ex_response := data_response objects |}.

(** A page that receives one data response while it loads, then times out
    waiting for the network to settle. *)
Definition slow_page : Page.t :=
  {| Page.route := None;
     Page.goto := fun _ => ([data_exchange [building_a; building_b]], None);
     Page.wait_for_load_state := ([data_exchange [building_b]], Some TimeoutError);
     Page.close := None |}.

(** One target, visited with [slow_page]: [run] before its loop and after. *)
Definition slow_browser : nat -> result Page.t := fun _ => Ok slow_page.



(** Two batches of one target; the browser could not open the first page. *)
Definition crashed_start : Config :=
  {| pending := [[(2, "u2")]];
     running := [TRaised 0 PlaywrightError; TStart 1 "u1"];
     world := init_world |}.

Definition crashed_later : Config :=
  {| pending := [[(2, "u2")]];
     running := [TRaised 0 PlaywrightError; TRoute 1 "u1" calm_page];
     world := with_event init_world (EvOpen 1) |}.

(** A grid whose second feature has no [properties]. *)
Definition broken_grid : json :=
  JObj [("type", JStr "FeatureCollection");
        ("features", JArr [saigon; JObj [("type", JStr "Feature")]])].

(** ** Further vocabulary: how long a run can last *)

(** Steps a coroutine can still take, at most. *)
Definition steps_left (context : nat -> result Page.t) (t : task) : nat :=
  match t with
  | TStart n url =>
      1 + match context n with
          | Ok page =>
              4 + List.length (fst (Page.goto page url))
                + List.length (fst (Page.wait_for_load_state page))
          | Raise _ => 0
          end
  | TRoute n url page =>
      4 + List.length (fst (Page.goto page url))
        + List.length (fst (Page.wait_for_load_state page))
  | TGoto n url page traffic =>
      3 + List.length traffic + List.length (fst (Page.wait_for_load_state page))
  | TWait n url page traffic => 2 + List.length traffic
  | TClose _ _ => 1
  | TDone _ | TRaised _ _ => 0
  end.

(** Steps [run] can still take, at most: those of the gathered coroutines,
    and for each pending batch one to start it and those of its sessions. *)
Definition run_steps_left (context : nat -> result Page.t) (c : Config) : nat :=
  list_sum (map (steps_left context) (running c)) +
  list_sum (map (fun batch => 1 + list_sum (map (steps_left context) (spawn batch)))
                (pending c)).

(** A browser that always opens a page, and whose pages can be closed. *)
Definition healthy (context : nat -> result Page.t) : Prop :=
  forall n, exists page, context n = Ok page /\ Page.close page = None.

(** A coroutine that has not raised and whose page, if any, can be closed. *)
Definition sound (t : task) : bool :=
  match t with
  | TRaised _ _ => false
  | TRoute _ _ page | TGoto _ _ page _ | TWait _ _ page _ | TClose _ page =>
      match Page.close page with
      | None => true
      | Some _ => false
      end
  | TStart _ _ | TDone _ => true
  end.

(** Every target below [n] has been visited, is being visited, or waits in
    a pending batch. *)
Definition accounted (n : nat) (c : Config) : Prop :=
  forall i, i < n ->
    (In (EvOpen i) (trace (world c)) /\ In (EvClose i) (trace (world c))) \/
    In i (map task_id (running c)) \/
    In i (map fst (List.concat (pending c))).

(** * The stages after the crawler *)

(** ** Exceptions and effects of the later stages *)

(** The built-in exceptions above, [KeyError], and the class
    [requests.exceptions.RequestException] with its subclasses. *)
Inductive error : Type :=
| Builtin (e : exc)
| KeyError
| RequestException.

Inductive attempt (A : Type) : Type :=
| Returns (a : A)
| Raises (e : error).
Arguments Returns {A} a.
Arguments Raises {A} e.

Definition from_result {A} (r : result A) : attempt A :=
  match r with
  | Ok a => Returns a
  | Raise e => Raises (Builtin e)
  end.

Definition abind {A B} (r : attempt A) (k : A -> attempt B) : attempt B :=
  match r with
  | Returns a => k a
  | Raises e => Raises e
  end.

Declare Scope attempt_scope.
Delimit Scope attempt_scope with attempt.
Notation "x <- r ;; k" := (abind r (fun x => k))
  (at level 61, r at next level, right associativity) : attempt_scope.

(** [v[k]] for a [str] key: only a [dict] can be subscripted with it. *)
Definition getitem (v : json) (k : string) : attempt json :=
  match v with
  | JObj d =>
      match Py.assoc k d with
      | Some x => Returns x
      | None => Raises KeyError
      end
  | _ => Raises (Builtin TypeError)
  end.

(** State and exceptions, over the state [St] of one stage. *)
Module Stage.

Definition t (St A : Type) : Type := St -> attempt A * St.

Definition ret {St A} (a : A) : t St A := fun st => (Returns a, st).

Definition raise {St A} (e : error) : t St A := fun st => (Raises e, st).

Definition bind {St A B} (m : t St A) (k : A -> t St B) : t St B :=
  fun st =>
    match m st with
    | (Returns a, st') => k a st'
    | (Raises e, st') => (Raises e, st')
    end.

Definition lift {St A} (r : attempt A) : t St A := fun st => (r, st).

(** A call that raises when the environment says so. *)
Definition check {St} (o : option error) : t St unit :=
  match o with
  | None => ret tt
  | Some e => raise e
  end.

Definition modify {St} (f : St -> St) : t St unit := fun st => (Returns tt, f st).

(** [try: body  except <class> as e: handler(e)]; [caught] tells the
    exceptions of the class. *)
Definition try_except {St A} (body : t St A) (caught : error -> bool)
           (handler : error -> t St A) : t St A :=
  fun st =>
    match body st with
    | (Returns a, st') => (Returns a, st')
    | (Raises e, st') => if caught e then handler e st' else (Raises e, st')
    end.

Fixpoint for_each {St A} (f : A -> t St unit) (l : list A) : t St unit :=
  match l with
  | [] => ret tt
  | x :: rest => bind (f x) (fun _ => for_each f rest)
  end.

End Stage.

Declare Scope stage_scope.
Delimit Scope stage_scope with stage.
Notation "x <- m ;; k" := (Stage.bind m (fun x => k))
  (at level 61, m at next level, right associativity) : stage_scope.
Notation "m ;; k" := (Stage.bind m (fun _ => k))
  (at level 61, right associativity) : stage_scope.

(** [except Exception]: every exception modelled here is one. *)
Definition any_exception (e : error) : bool := true.

(** [except requests.exceptions.RequestException] *)
Definition is_request_exception (e : error) : bool :=
  match e with
  | RequestException => true
  | _ => false
  end.

(** ** [src/app/utils/blender_utils.py] *)

Module BlenderUtils.

(** The operating system as these functions use it: [os.listdir], and
    [subprocess.call] / [subprocess.run], which give the exit status of the
    program or raise when it cannot be started. *)
Record Shell : Type := {
  listdir : string -> attempt (list string);
  subprocess : list string -> attempt Z
}.

(** The commands started so far. *)
Definition Started : Type := list (list string).

Local Open Scope stage_scope.

Definition is_installed_module (sh : Shell) (settings : Settings)
           (package_name : string) : attempt bool :=
  match listdir sh (blender_exe settings) with
  | Returns filenames =>
      Returns (existsb (fun filename => PyStr.contains package_name filename) filenames)
  | Raises e => Raises e
  end.

Definition call_process (sh : Shell) (command : list string) : Stage.t Started Z :=
  Stage.modify (fun started => started ++ [command]) ;;
  Stage.lift (subprocess sh command).

Definition install_module_for_blender (sh : Shell) (settings : Settings)
           (package_name : string) : Stage.t Started unit :=
  installed <- Stage.lift (is_installed_module sh settings package_name) ;;
  if negb installed then
    call_process sh ["pip"; "install"; package_name; "--upgrade"; "--target";
                     blender_exe settings] ;;
    Stage.ret tt
  else Stage.ret tt.

Definition blender_runner (sh : Shell) (file_name : string) : Stage.t Started unit :=
  call_process sh ["blender"; "-b"; "-P"; file_name] ;;
  Stage.ret tt.

End BlenderUtils.

(** ** [src/main.py] *)

Module Main.

Inductive step : Type := Crawl | Clean | Download | Convert.

(** The calls [main] makes into the stages. *)
Inductive call : Type :=
| NewBuildingCrawler
| CrawlerRun
| NewDataCleaner
| CleanerRun
| NewModelDownloader
| DownloaderProcess
| InstallModuleForBlender
| BlenderRunner.

Inductive entry : Type :=
| Rule                                  (* the dashed line *)
| StartedAt
| StepStarted (s : step)
| StepCompleted (s : step)
| StepFailed (s : step) (e : error)
| FinishedAt.

Record State : Type := {
  messages : list entry;
  calls : list call
}.

Definition fresh : State := {| messages := []; calls := [] |}.

Section Main.

(** What each call does when it is reached: it returns, or raises. *)
Variable env : call -> option error.

Local Open Scope stage_scope.

Definition info (m : entry) : Stage.t State unit :=
  Stage.modify (fun st => {| messages := messages st ++ [m]; calls := calls st |}).

Definition invoke (c : call) : Stage.t State unit :=
  Stage.modify (fun st => {| messages := messages st; calls := calls st ++ [c] |}) ;;
  Stage.check (env c).

(** One step of [main]: the object is built (or the module installed)
    outside the [try], the work is done inside it.  The answer tells
    whether [main] goes on ([true]) or returns. *)
Definition run_step (s : step) (prepare work : call) : Stage.t State bool :=
  info (StepStarted s) ;;
  invoke prepare ;;
  Stage.try_except
    (invoke work ;; info (StepCompleted s) ;; Stage.ret true)
    any_exception
    (fun e => info (StepFailed s e) ;; Stage.ret false).

Definition main : Stage.t State unit :=
  info Rule ;;
  info StartedAt ;;
  go <- run_step Crawl NewBuildingCrawler CrawlerRun ;;
  if go then
    go <- run_step Clean NewDataCleaner CleanerRun ;;
    if go then
      go <- run_step Download NewModelDownloader DownloaderProcess ;;
      if go then
        go <- run_step Convert InstallModuleForBlender BlenderRunner ;;
        if go then
          info FinishedAt ;;
          info Rule
        else Stage.ret tt
      else Stage.ret tt
    else Stage.ret tt
  else Stage.ret tt.

End Main.

(** The calls of a complete run, in order. *)
Definition pipeline : list call :=
  [NewBuildingCrawler; CrawlerRun; NewDataCleaner; CleanerRun;
   NewModelDownloader; DownloaderProcess; InstallModuleForBlender; BlenderRunner].

(** The calls outside any [try] block. *)
Definition unguarded (c : call) : bool :=
  match c with
  | NewBuildingCrawler | NewDataCleaner | NewModelDownloader
  | InstallModuleForBlender => true
  | _ => false
  end.

(** The calls of [l] up to the first one that raises, that one included. *)
Fixpoint until_failure (env : call -> option error) (l : list call) : list call :=
  match l with
  | [] => []
  | c :: rest =>
      c :: match env c with
           | None => until_failure env rest
           | Some _ => []
           end
  end.

(** The first call of [l] that raises, with its exception. *)
Fixpoint first_raise (env : call -> option error) (l : list call)
  : option (call * error) :=
  match l with
  | [] => None
  | c :: rest =>
      match env c with
      | None => first_raise env rest
      | Some e => Some (c, e)
      end
  end.

(** Step 4 of [main] on a given system. *)
Definition convert_env (sh : BlenderUtils.Shell) (settings : Settings)
           (env : call -> option error) : call -> option error :=
  fun c =>
    match c with
    | InstallModuleForBlender =>
        match fst (BlenderUtils.install_module_for_blender sh settings "loguru" []) with
        | Returns _ => None
        | Raises e => Some e
        end
    | BlenderRunner =>
        match fst (BlenderUtils.blender_runner sh "src/app/modules/converter.py" []) with
        | Returns _ => None
        | Raises e => Some e
        end
    | _ => env c
    end.

End Main.

(** ** Sample systems *)

(** A Blender directory where some file name merely contains [loguru]; every
    program started exits with status 1. *)
Definition failing_shell : BlenderUtils.Shell :=
  {| BlenderUtils.listdir := fun _ => Returns ["bin"; "notloguru.txt"];
     BlenderUtils.subprocess := fun _ => Returns 1%Z |}.

(** An empty Blender directory. *)
Definition bare_shell : BlenderUtils.Shell :=
  {| BlenderUtils.listdir := fun _ => Returns [];
     BlenderUtils.subprocess := fun _ => Returns 0%Z |}.

Definition all_fine : Main.call -> option error := fun _ => None.

(** ** [os.path.join] *)

(** The parts of a path, when each of them is a [str]. *)
Fixpoint strings (parts : list json) : option (list string) :=
  match parts with
  | [] => Some []
  | JStr s :: rest => option_map (cons s) (strings rest)
  | _ :: _ => None
  end.

(** The loop of [posixpath.join]: a part that starts with [/] discards the
    path so far; otherwise it is appended, after a [/] unless the path so
    far is empty or ends with one. *)
Fixpoint join_from (path : string) (parts : list string) : string :=
  match parts with
  | [] => path
  | b :: rest =>
      join_from (if PyStr.startswith b "/" then b
                 else if String.eqb path "" || PyStr.endswith path "/"
                      then path ++ b
                      else path ++ "/" ++ b)%string
                rest
  end.

(** [posixpath.join] of the parts: a part that is not a [str] is refused. *)
Definition posix_join (parts : list json) : attempt string :=
  match strings parts with
  | Some (a :: p) => Returns (join_from a p)
  | _ => Raises (Builtin TypeError)
  end.

(** ** [src/app/modules/downloader.py] *)

Module ModelDownloader.

Definition chunk : Type := string.

(** A response of [requests.get(url, stream=True)]: what
    [raise_for_status] does, and the chunks [iter_content] yields before the
    body ends or the connection breaks. *)
Record Reply : Type := {
  raise_for_status : option error;
  iter_content : list chunk * option error
}.

(** The network and the file system as [download_file] uses them.  Writing
    to a file that was opened is taken to succeed. *)
Record System : Type := {
  requests_get : json -> attempt Reply;
  path_join : list json -> attempt string;
  open_wb : string -> option error
}.

Inductive entry : Type :=
| Downloaded (file_name : json)
| FailedDownload (url : json) (e : error).

(** The files written, newest binding first, and the log. *)
Record Disk : Type := {
  files : list (string * list chunk);
  journal : list entry
}.

(** What the file at [path] holds. *)
Fixpoint read (fs : list (string * list chunk)) (path : string) : option (list chunk) :=
  match fs with
  | [] => None
  | (p, content) :: rest => if String.eqb path p then Some content else read rest path
  end.

Definition store (path : string) (content : list chunk) (d : Disk) : Disk :=
  {| files := (path, content) :: files d; journal := journal d |}.

Section ModelDownloader.

Variable sys : System.
Variable output_obj_dir : string.
Variable output_texture_dir : string.

Local Open Scope stage_scope.

Definition logger (m : entry) : Stage.t Disk unit :=
  Stage.modify (fun d => {| files := files d; journal := journal d ++ [m] |}).

(** [open(file_path, "wb")]: the file is created, or emptied. *)
Definition create (file_path : string) : Stage.t Disk unit :=
  Stage.check (open_wb sys file_path) ;;
  Stage.modify (store file_path []).

(** [file.write(chunk)] *)
Definition write (file_path : string) (c : chunk) : Stage.t Disk unit :=
  Stage.modify (fun d =>
    store file_path
          (match read (files d) file_path with
           | Some content => content
           | None => []
           end ++ [c]) d).

(** The first exception of the [try] block of [download_file], if any. *)
Definition download_failure (url file_name : json) (output_dir : string)
  : option error :=
  match requests_get sys url with
  | Raises e => Some e
  | Returns response =>
      match raise_for_status response with
      | Some e => Some e
      | None =>
          match path_join sys [JStr output_dir; file_name] with
          | Raises e => Some e
          | Returns file_path =>
              match open_wb sys file_path with
              | Some e => Some e
              | None => snd (iter_content response)
              end
          end
      end
  end.

(** What [download_file] logs for it. *)
Definition download_entry (url file_name : json) (output_dir : string)
  : list entry :=
  match download_failure url file_name output_dir with
  | None => [Downloaded file_name]
  | Some e => if is_request_exception e then [FailedDownload url e] else []
  end.

(** A download that returns: it went through, or [requests] raised. *)
Definition contained (url file_name : json) (output_dir : string) : bool :=
  match download_failure url file_name output_dir with
  | None => true
  | Some e => is_request_exception e
  end.

Definition download_file (url file_name : json) (output_dir : string)
  : Stage.t Disk unit :=
  Stage.try_except
    (response <- Stage.lift (requests_get sys url) ;;
     Stage.check (raise_for_status response) ;;
     file_path <- Stage.lift (path_join sys [JStr output_dir; file_name]) ;;
     create file_path ;;
     Stage.for_each (write file_path) (fst (iter_content response)) ;;
     Stage.check (snd (iter_content response)) ;;
     logger (Downloaded file_name))
    is_request_exception
    (fun e => logger (FailedDownload url e)).

(** The body of the loop of [process]. *)
Definition process_row (row : json) : Stage.t Disk unit :=
  model <- Stage.lift (getitem row "model") ;;
  objUrl <- Stage.lift (getitem model "objUrl") ;;
  objName <- Stage.lift (getitem model "objName") ;;
  download_file objUrl objName output_obj_dir ;;
  textureUrl <- Stage.lift (getitem model "textureUrl") ;;
  textureName <- Stage.lift (getitem model "textureName") ;;
  download_file textureUrl textureName output_texture_dir.

Definition process (cleaner_data : json) : Stage.t Disk unit :=
  rows <- Stage.lift (from_result (Py.iter cleaner_data)) ;;
  Stage.for_each process_row rows.

(** A row whose four entries can be read and whose two downloads return. *)
Definition fetchable (row : json) : bool :=
  match getitem row "model" with
  | Returns model =>
      match getitem model "objUrl", getitem model "objName",
            getitem model "textureUrl", getitem model "textureName" with
      | Returns objUrl, Returns objName, Returns textureUrl, Returns textureName =>
          contained objUrl objName output_obj_dir
          && contained textureUrl textureName output_texture_dir
      | _, _, _, _ => false
      end
  | Raises _ => false
  end.

(** What is logged for such a row: the model, then the texture. *)
Definition row_entries (row : json) : list entry :=
  match getitem row "model" with
  | Returns model =>
      match getitem model "objUrl", getitem model "objName",
            getitem model "textureUrl", getitem model "textureName" with
      | Returns objUrl, Returns objName, Returns textureUrl, Returns textureName =>
          download_entry objUrl objName output_obj_dir
          ++ download_entry textureUrl textureName output_texture_dir
      | _, _, _, _ => []
      end
  | Raises _ => []
  end.

End ModelDownloader.

End ModelDownloader.

(** A server that sends two chunks of every file and then drops the
    connection. *)
Definition dropping_system : ModelDownloader.System :=
  {| ModelDownloader.requests_get := fun _ =>
       Returns {| ModelDownloader.raise_for_status := None;
                  ModelDownloader.iter_content := (["v 0 0 0"; "v 1 0 0"],
                                                   Some RequestException) |};
     ModelDownloader.path_join := posix_join;
     ModelDownloader.open_wb := fun _ => None |}.

Definition empty_disk : ModelDownloader.Disk :=
  {| ModelDownloader.files := []; ModelDownloader.journal := [] |}.

Definition house_row : json :=
  JObj [("id", JInt 7);
        ("model", JObj [("objUrl", JStr "https://cdn.example/house.obj");
                        ("objName", JStr "house.obj");
                        ("textureUrl", JStr "https://cdn.example/house.jpg");
                        ("textureName", JStr "house.jpg")])].

(** A row whose [model] is missing. *)
Definition bare_row : json := JObj [("id", JInt 8)].

(** ** [src/app/modules/cleaner.py] *)

Module DataCleaner.

Section Frame.

(** The rows of a [DataFrame], the value a row has in column [id], and the
    equality [pandas] compares these values with. *)
Variable Row : Type.
Variable Key : Type.
Variable id : Row -> Key.
Variable same : Key -> Key -> bool.

(** [df.drop_duplicates(subset=["id"], keep="first", ignore_index=True)],
    row by row: a row is dropped when a row before it has its [id]. *)
Fixpoint drop_duplicates (seen : list Key) (df : list Row) : list Row :=
  match df with
  | [] => []
  | r :: rest =>
      if existsb (same (id r)) seen
      then drop_duplicates seen rest
      else r :: drop_duplicates (id r :: seen) rest
  end.

Definition clean_data (df : list Row) : list Row := drop_duplicates [] df.

(** The first row of [df] with the given [id]. *)
Definition lookup (k : Key) (df : list Row) : option Row :=
  find (fun r => same (id r) k) df.

End Frame.

(** [d[k] = v] on a [dict]: a key that is there keeps its place. *)
Fixpoint assign (k : string) (v : json) (d : list (string * json))
  : list (string * json) :=
  match d with
  | [] => [(k, v)]
  | (k', v') :: rest =>
      if String.eqb k k' then (k, v) :: rest else (k', v') :: assign k v rest
  end.

(** [v[k] = x] *)
Definition setitem (v : json) (k : string) (x : json) : attempt json :=
  match v with
  | JObj d => Returns (JObj (assign k x d))
  | _ => Raises (Builtin TypeError)
  end.

Section Normalize.

(** [re.sub] with the pattern [\b(.jpg|.JPG|.png|.PNG)\b] and an empty
    replacement, on a [str]: left to the [re] module. *)
Variable re_sub : string -> string.

Definition strip_image_ext (v : json) : attempt json :=
  match v with
  | JStr s => Returns (JStr (re_sub s))
  | _ => Raises (Builtin TypeError)
  end.

Definition is_obj (v : json) : bool :=
  match v with
  | JStr s => String.eqb s ".obj"
  | _ => false
  end.

(** [".obj" not in v]: a substring of a [str], an item of a [list], a key of
    a [dict]. *)
Definition lacks_obj (v : json) : attempt bool :=
  match v with
  | JStr s => Returns (negb (PyStr.contains ".obj" s))
  | JArr l => Returns (negb (existsb is_obj l))
  | JObj d => Returns (negb (existsb (String.eqb ".obj") (Py.keys d)))
  | _ => Raises (Builtin TypeError)
  end.

(** [v += ".obj"]: a [str] is extended, a [list] takes the characters. *)
Definition add_obj (v : json) : attempt json :=
  match v with
  | JStr s => Returns (JStr (s ++ ".obj"))
  | JArr l => Returns (JArr (l ++ Py.chars ".obj"))
  | _ => Raises (Builtin TypeError)
  end.

Definition normalize_model (model : json) : attempt json :=
  (objName <- getitem model "objName" ;;
   stripped <- strip_image_ext objName ;;
   model <- setitem model "objName" stripped ;;
   objName <- getitem model "objName" ;;
   lacking <- lacks_obj objName ;;
   if lacking then
     objName <- getitem model "objName" ;;
     extended <- add_obj objName ;;
     setitem model "objName" extended
   else Returns model)%attempt.

End Normalize.

End DataCleaner.

(** A model as the crawler reports it, named after its texture. *)
Definition villa_model : json :=
  JObj [("objUrl", JStr "https://cdn.example/m/41");
        ("objName", JStr "villa.jpg");
        ("textureName", JStr "villa.jpg")].

(** Rows as the crawler writes them, read back: the [id] cell and the name. *)
Definition crawled_twice : list (nat * string) :=
  [(7, "house"); (9, "tower"); (7, "house, seen again"); (9, "tower")].

(** ** [src/app/modules/converter.py] *)

(** [s.replace(old, new)] for a non-empty [old]: the occurrences of [old]
    are replaced from left to right, none overlapping the one before;
    [skip] counts the characters of the current occurrence still to pass. *)
Fixpoint replace_from (old new : string) (skip : nat) (s : string) : string :=
  match s with
  | EmptyString => EmptyString
  | String c rest =>
      match skip with
      | S k => replace_from old new k rest
      | 0 =>
          if PyStr.startswith s old
          then (new ++ replace_from old new (String.length old - 1) rest)%string
          else String c (replace_from old new 0 rest)
      end
  end.

Definition str_replace (old new s : string) : string := replace_from old new 0 s.

(** Where [replace_from] stands in an occurrence of [.obj] it is passing. *)
Definition passing_obj (skip : nat) (s : string) : bool :=
  match skip with
  | 0 => true
  | 1 => PyStr.startswith s "j"
  | 2 => PyStr.startswith s "bj"
  | 3 => PyStr.startswith s "obj"
  | _ => false
  end.

Module ModelConverter.

(** An object of the scene: its [type], and what [apply_texture] does on it
    with a given texture. *)
Record SceneObject : Type := {
  type : string;
  apply_texture : string -> option error
}.

(** Blender and the file system, as the converter drives them: each
    operator returns or raises. *)
Record Blender : Type := {
  clear_scene : option error;
  import_obj : string -> option error;
  scene_objects : string -> list SceneObject;     (* after importing the file *)
  export_gltf : string -> option error;
  export_fbx : string -> option error;
  path_join : list json -> attempt string;
  path_exists : string -> bool
}.

Inductive format : Type := GLB | FBX.

Inductive entry : Type :=
| Exported (output_path : string)
| FailedExport (output_path : string) (e : error)
| MissingObj (input_obj : string)
| MissingTexture (input_texture : string).

Record State : Type := {
  exported : list (format * string);   (* the files the exporters wrote *)
  journal : list entry
}.

Section ModelConverter.

Variable bpy : Blender.
Variable input_downloader_dir : string.
Variable output_converter_dir : string.

Local Open Scope stage_scope.

Definition logger (m : entry) : Stage.t State unit :=
  Stage.modify (fun st => {| exported := exported st; journal := journal st ++ [m] |}).

Definition export (f : format) (output_path : string) : Stage.t State unit :=
  Stage.check (match f with
               | GLB => export_gltf bpy output_path
               | FBX => export_fbx bpy output_path
               end) ;;
  Stage.modify (fun st => {| exported := exported st ++ [(f, output_path)];
                             journal := journal st |}).

Definition convert_model (input_obj input_texture output_path : string)
  : Stage.t State unit :=
  Stage.try_except
    (Stage.check (clear_scene bpy) ;;
     Stage.check (import_obj bpy input_obj) ;;
     Stage.for_each
       (fun obj =>
          if String.eqb (type obj) "MESH"
          then Stage.check (apply_texture obj input_texture)
          else Stage.ret tt)
       (scene_objects bpy input_obj) ;;
     (if PyStr.endswith output_path ".glb" then export GLB output_path
      else if PyStr.endswith output_path ".fbx" then export FBX output_path
      else Stage.ret tt) ;;
     logger (Exported output_path))
    any_exception
    (fun e => logger (FailedExport output_path e)).

(** [model["objName"].replace(".obj", ".glb")]: only a [str] has
    [replace]. *)
Definition model_name (objName : json) : attempt string :=
  match objName with
  | JStr s => Returns (str_replace ".obj" ".glb" s)
  | _ => Raises (Builtin AttributeError)
  end.

(** The body of the loop of [process]. *)
Definition process_row (row : json) : Stage.t State unit :=
  model <- Stage.lift (getitem row "model") ;;
  objName <- Stage.lift (getitem model "objName") ;;
  input_obj <- Stage.lift (path_join bpy [JStr input_downloader_dir; JStr "obj"; objName]) ;;
  textureName <- Stage.lift (getitem model "textureName") ;;
  input_texture <-
    Stage.lift (path_join bpy [JStr input_downloader_dir; JStr "texture"; textureName]) ;;
  objName' <- Stage.lift (getitem model "objName") ;;
  name <- Stage.lift (model_name objName') ;;
  output_path <- Stage.lift (path_join bpy [JStr output_converter_dir; JStr name]) ;;
  if negb (path_exists bpy input_obj) then logger (MissingObj input_obj)
  else if negb (path_exists bpy input_texture) then logger (MissingTexture input_texture)
  else convert_model input_obj input_texture output_path.

Definition process (cleaner_data : json) : Stage.t State unit :=
  rows <- Stage.lift (from_result (Py.iter cleaner_data)) ;;
  Stage.for_each process_row rows.

End ModelConverter.

(** Every operator of Blender goes through. *)
Definition obliging (bpy : Blender) : Prop :=
  clear_scene bpy = None /\
  (forall input_obj, import_obj bpy input_obj = None) /\
  (forall input_obj obj texture,
     In obj (scene_objects bpy input_obj) ->
     String.eqb (type obj) "MESH" = true ->
     apply_texture obj texture = None).

(** The three paths [process] forms for a row: the model, the texture, the
    output. *)
Definition row_paths (bpy : Blender) (input_downloader_dir output_converter_dir : string)
           (row : json) : attempt (string * string * string) :=
  (model <- getitem row "model" ;;
   objName <- getitem model "objName" ;;
   input_obj <- path_join bpy [JStr input_downloader_dir; JStr "obj"; objName] ;;
   textureName <- getitem model "textureName" ;;
   input_texture <-
     path_join bpy [JStr input_downloader_dir; JStr "texture"; textureName] ;;
   objName' <- getitem model "objName" ;;
   name <- model_name objName' ;;
   output_path <- path_join bpy [JStr output_converter_dir; JStr name] ;;
   Returns (input_obj, input_texture, output_path))%attempt.

(** A row for which the three paths can be formed. *)
Definition convertible (bpy : Blender) (input_downloader_dir output_converter_dir : string)
           (row : json) : bool :=
  match row_paths bpy input_downloader_dir output_converter_dir row with
  | Returns _ => true
  | Raises _ => false
  end.

(** The log entry of a row with these paths: a warning for the first file
    that is missing, else the outcome of the conversion. *)
Definition concerns (bpy : Blender) (paths : string * string * string) (m : entry)
  : Prop :=
  let '(input_obj, input_texture, output_path) := paths in
  if negb (path_exists bpy input_obj) then m = MissingObj input_obj
  else if negb (path_exists bpy input_texture) then m = MissingTexture input_texture
  else m = Exported output_path \/ exists e, m = FailedExport output_path e.

End ModelConverter.

(** A Blender where everything works and every file is there. *)
Definition working_blender : ModelConverter.Blender :=
  {| ModelConverter.clear_scene := None;
     ModelConverter.import_obj := fun _ => None;
     ModelConverter.scene_objects := fun _ =>
       [{| ModelConverter.type := "MESH";
           ModelConverter.apply_texture := fun _ => None |};
        {| ModelConverter.type := "CAMERA";
           ModelConverter.apply_texture := fun _ => Some (Builtin AttributeError) |}];
     ModelConverter.export_gltf := fun _ => None;
     ModelConverter.export_fbx := fun _ => None;
     ModelConverter.path_join := posix_join;
     ModelConverter.path_exists := fun _ => true |}.

(** A Blender that cannot import anything. *)
Definition broken_blender : ModelConverter.Blender :=
  {| ModelConverter.clear_scene := None;
     ModelConverter.import_obj := fun _ => Some (Builtin ValueError);
     ModelConverter.scene_objects := fun _ => [];
     ModelConverter.export_gltf := fun _ => None;
     ModelConverter.export_fbx := fun _ => None;
     ModelConverter.path_join := posix_join;
     ModelConverter.path_exists := fun _ => true |}.

Definition nothing_converted : ModelConverter.State :=
  {| ModelConverter.exported := []; ModelConverter.journal := [] |}.

(** * The end of [run] *)

(** What [run] does outside its loop: bringing up the browser and its
    context; closing the browser (and leaving [async_playwright]) when the
    loop is over; closing the output file, which flushes what the file has
    buffered of the rows it has taken. *)
Record Outside : Type := {
  startup : option exc;
  browser_close : option exc;
  file_close : list row -> option exc
}.

(** [await browser.close()], the exit of the [async with] block, then
    [self.crawler_file.close()]. *)
Definition closing (o : Outside) (rows : list row) : result unit :=
  match browser_close o with
  | Some e => Raise e
  | None =>
      match file_close o rows with
      | Some e => Raise e
      | None => Ok tt
      end
  end.

(** How a call of [run] ends, and in which world.  An exception of the
    startup, of the list of targets or of [range] ends it at once; so does
    the exception of a gathered session, which [asyncio.gather] hands to
    [run] (when two sessions have raised, either exception is allowed here);
    the output file is then not closed.  Otherwise the loop runs to its end
    and the browser and the file are closed. *)
Inductive run_ends (settings : Settings) (py_repr : json -> string)
          (file_accepts : list row -> row -> bool)
          (context : nat -> result Page.t) (o : Outside)
          (grid_data : json) (num_pages : Z) (w : World)
  : result unit -> World -> Prop :=
| ends_at_startup : forall e,
    startup o = Some e ->
    run_ends settings py_repr file_accepts context o grid_data num_pages w (Raise e) w
| ends_at_targets : forall e,
    startup o = None ->
    targets settings py_repr grid_data = Raise e ->
    run_ends settings py_repr file_accepts context o grid_data num_pages w (Raise e) w
| ends_at_range : forall urls e,
    startup o = None ->
    targets settings py_repr grid_data = Ok urls ->
    start urls num_pages w = Raise e ->
    run_ends settings py_repr file_accepts context o grid_data num_pages w (Raise e) w
| ends_at_gather : forall c n e,
    startup o = None ->
    run settings py_repr file_accepts context grid_data num_pages w c ->
    In (TRaised n e) (running c) ->
    run_ends settings py_repr file_accepts context o grid_data num_pages w
             (Raise e) (world c)
| ends_after_loop : forall c,
    startup o = None ->
    run settings py_repr file_accepts context grid_data num_pages w c ->
    completed c ->
    run_ends settings py_repr file_accepts context o grid_data num_pages w
             (closing o (csv_rows (world c))) (world c).

(** ** Sample: a full device behind the buffer of [open] *)

(** The characters of the string cells of a row: no more than the line
    written for it. *)
Definition row_chars (r : row) : nat :=
  list_sum (map (fun cell => match cell with
                             | JStr s => String.length s
                             | _ => 0
                             end) r).

(** [io.DEFAULT_BUFFER_SIZE] *)
Definition buffer_size : nat := 8 * 1024.

(** A device that takes nothing: the rows are buffered, and the write that
    makes the buffer overflow raises. *)
Definition full_device : list row -> row -> bool :=
  fun held r => list_sum (map row_chars held) + row_chars r <=? buffer_size.







(** The device is still full when the file is closed: what is buffered
    cannot be flushed. *)
Definition full_outside : Outside :=
  {| startup := None;
     browser_close := None;
     file_close := fun rows => match rows with
                               | [] => None
                               | _ :: _ => Some OSError
                               end |}.

(** No response handler has logged a failure. *)
Definition no_failed_response (entries : list log_entry) : bool :=
  forallb (fun entry => match entry with
                        | FailedResponse _ _ => false
                        | _ => true
                        end) entries.

(** A grid of one feature. *)
Definition one_feature_grid : json :=
  JObj [("type", JStr "FeatureCollection"); ("features", JArr [saigon])].


(** * Properties *)

(** ** What the string tests mean *)

Module PyStrFacts.
Import PyStr.

Lemma startswith_spec (s p : string) :
  startswith s p = true <-> exists r, s = (p ++ r)%string.
Proof.
  revert s; induction p as [|a p IH]; intros s; simpl.
  - split; [intros _; exists s; reflexivity | reflexivity].
  - destruct s as [|b s]; simpl.
    + split; [discriminate | intros [r H]; discriminate].
    + rewrite andb_true_iff, Ascii.eqb_eq, IH. split.
      * intros [-> [r ->]]. exists r; reflexivity.
      * intros [r H]. injection H as -> ->. split; [reflexivity | exists r; reflexivity].
Qed.

Lemma contains_spec (needle hay : string) :
  contains needle hay = true <-> exists a b, hay = (a ++ needle ++ b)%string.
Proof.
  induction hay as [|c hay IH]; simpl.
  - rewrite orb_false_r, startswith_spec. split.
    + intros [r H]. exists ""%string, r. exact H.
    + intros [a [b H]]. destruct a; simpl in H.
      * exists b; exact H.
      * discriminate.
  - rewrite orb_true_iff, startswith_spec, IH. split.
    + intros [[r H] | [a [b H]]].
      * exists ""%string, r. exact H.
      * exists (String c a), b. simpl. rewrite H. reflexivity.
    + intros [a [b H]]. destruct a as [|c' a]; simpl in H.
      * left. exists b. exact H.
      * right. injection H as _ H. exists a, b. exact H.
Qed.

Lemma endswith_spec (s suffix : string) :
  endswith s suffix = true <-> exists a, s = (a ++ suffix)%string.
Proof.
  induction s as [|c s IH]; cbn [endswith].
  - rewrite orb_false_r, String.eqb_eq. split.
    + intros <-. exists ""%string. reflexivity.
    + intros [a H]. destruct a; simpl in H; [exact H | discriminate].
  - rewrite orb_true_iff, String.eqb_eq, IH. split.
    + intros [<- | [a ->]].
      * exists ""%string. reflexivity.
      * exists (String c a). reflexivity.
    + intros [a H]. destruct a as [|c' a]; simpl in H.
      * left. exact H.
      * right. injection H as _ H. exists a. exact H.
Qed.

Lemma endswith_contains (s suffix : string) :
  endswith s suffix = true -> contains suffix s = true.
Proof.
  rewrite endswith_spec, contains_spec. intros [a ->].
  exists a, ""%string.
  replace (suffix ++ "")%string with suffix; [reflexivity|].
  clear. induction suffix; simpl; congruence.
Qed.
End PyStrFacts.

(** ** Membership tests of the request filter *)

Lemma existsb_eqb_In (x : string) (l : list string) :
  existsb (String.eqb x) l = true <-> In x l.
Proof.
  rewrite existsb_exists. split.
  - intros [y [Hy Heq]]. apply String.eqb_eq in Heq. subst. exact Hy.
  - intros H. exists x. split; [exact H | apply String.eqb_refl].
Qed.

Lemma existsb_contains (url : string) (exts : list string) :
  existsb (fun ext => PyStr.contains ext url) exts = true <->
  exists ext a b, In ext exts /\ url = (a ++ ext ++ b)%string.
Proof.
  rewrite existsb_exists. split.
  - intros [ext [Hin Hc]]. apply PyStrFacts.contains_spec in Hc.
    destruct Hc as [a [b H]]. exists ext, a, b. auto.
  - intros [ext [a [b [Hin H]]]]. exists ext. split; [exact Hin|].
    apply PyStrFacts.contains_spec. exists a, b. exact H.
Qed.

(** ** Counting occurrences *)

Module PyStrCount.
Import PyStr.

Lemma has_char_app (c : ascii) (a b : string) :
  has_char c (a ++ b)%string = has_char c a || has_char c b.
Proof.
  induction a as [|x a IH]; simpl; [reflexivity|].
  rewrite IH, orb_assoc. reflexivity.
Qed.

Lemma over_has_char (alphabet s : string) (c : ascii) :
  over alphabet s = true -> has_char c alphabet = false -> has_char c s = false.
Proof.
  intros Hs Hc. induction s as [|x s IH]; simpl in *; [reflexivity|].
  apply andb_true_iff in Hs. destruct Hs as [Hx Hs].
  rewrite (IH Hs), orb_false_r.
  destruct (Ascii.eqb c x) eqn:E; [|reflexivity].
  apply Ascii.eqb_eq in E. subst. congruence.
Qed.

Lemma startswith_has_char (c : ascii) (p s : string) :
  startswith s p = true -> has_char c p = true -> has_char c s = true.
Proof.
  revert s; induction p as [|a p IH]; intros s Hs Hc; simpl in *; [discriminate|].
  destruct s as [|b s]; [discriminate|].
  apply andb_true_iff in Hs. destruct Hs as [Hab Hs].
  apply Ascii.eqb_eq in Hab. subst b. simpl.
  apply orb_true_iff in Hc. apply orb_true_iff.
  destruct Hc as [Hc | Hc]; [left; exact Hc | right; apply IH; assumption].
Qed.

Lemma occurrences_absent (c : ascii) (needle s : string) :
  has_char c needle = true -> has_char c s = false -> occurrences needle s = 0.
Proof.
  intros Hn. induction s as [|x s IH]; intros Hs.
  - simpl. destruct (startswith "" needle) eqn:E; [|reflexivity].
    apply (startswith_has_char c) in E; [discriminate | exact Hn].
  - cbn [occurrences].
    destruct (startswith (String x s) needle) eqn:E.
    + apply (startswith_has_char c) in E; [congruence | exact Hn].
    + simpl in Hs. apply orb_false_iff in Hs. destruct Hs as [_ Hs].
      rewrite (IH Hs). reflexivity.
Qed.

Lemma startswith_app_absent (c : ascii) (needle s rest : string) :
  has_char c needle = false ->
  startswith (s ++ String c rest) needle = startswith s needle.
Proof.
  revert s; induction needle as [|a p IH]; intros s Hc; [reflexivity|].
  simpl in Hc. apply orb_false_iff in Hc. destruct Hc as [Hca Hc].
  destruct s as [|b s]; simpl.
  - rewrite Ascii.eqb_sym, Hca. reflexivity.
  - rewrite (IH s Hc). reflexivity.
Qed.

Lemma occurrences_app_absent (c : ascii) (needle s rest : string) :
  has_char c needle = false -> needle <> ""%string ->
  occurrences needle (s ++ String c rest) =
  occurrences needle s + occurrences needle (String c rest).
Proof.
  intros Hc Hne. induction s as [|b s IH].
  - destruct needle; [congruence | reflexivity].
  - remember (occurrences needle (String c rest)) as tail_count.
    change (String b s ++ String c rest)%string
      with (String b (s ++ String c rest)).
    cbn [occurrences].
    change (String b (s ++ String c rest))
      with (String b s ++ String c rest)%string.
    rewrite startswith_app_absent by exact Hc.
    rewrite IH.
    destruct (startswith (String b s) needle); lia.
Qed.

End PyStrCount.

(** ** Decimal rendering of integers *)

Lemma string_of_uint_digits (d : Decimal.uint) :
  PyStr.over "0123456789" (NilEmpty.string_of_uint d) = true.
Proof. induction d; simpl; try rewrite IHd; reflexivity. Qed.

Lemma str_int_digits (z : Z) : PyStr.over "-0123456789" (Py.str_int z) = true.
Proof.
  assert (W : forall s, PyStr.over "0123456789" s = true ->
                        PyStr.over "-0123456789" s = true).
  { induction s as [|x s IH]; simpl; [reflexivity|].
    intros H. apply andb_true_iff in H. destruct H as [Hx Hs].
    rewrite (IH Hs), andb_true_r.
    repeat (apply orb_true_iff in Hx; destruct Hx as [Hx|Hx];
            [rewrite Hx; rewrite ?orb_true_r; reflexivity|]).
    discriminate. }
  assert (U : forall d, PyStr.over "-0123456789" (NilZero.string_of_uint d) = true).
  { intros d. destruct d; try (apply W; apply (string_of_uint_digits)); reflexivity. }
  unfold Py.str_int, NilZero.string_of_int.
  destruct (Z.to_int z) as [d|d]; [apply U|].
  change (PyStr.over "-0123456789" (String "-" (NilZero.string_of_uint d)) = true).
  cbn [PyStr.over]. rewrite U. reflexivity.
Qed.

(** ** The synthesized URL *)

Section UrlSynthesis.
Variable settings : Settings.
Variable py_repr : json -> string.

Lemma py_str_number (v : json) :
  Py.is_number v = true -> PyStr.has_char "=" (py_str py_repr v) = false.
Proof.
  destruct v; simpl; try discriminate; intros H.
  - apply (PyStrCount.over_has_char "-0123456789"); [apply str_int_digits | reflexivity].
  - apply andb_true_iff in H. destruct H as [_ H].
    apply (PyStrCount.over_has_char Py.float_alphabet); [exact H | reflexivity].
Qed.

Lemma generate_url_properties (d props : list (string * json)) :
  Py.assoc "properties" d = Some (JObj props) ->
  generate_url settings py_repr (JObj d) =
  Ok (url_template (crawler_url settings)
        (py_str py_repr (coordinate props "lat"))
        (py_str py_repr (coordinate props "lng"))).
Proof.
  intros H. unfold generate_url, Py.get. cbn [rbind]. rewrite H. cbn [rbind].
  reflexivity.
Qed.

Lemma occurrences_camera (base lat lng : string) :
  PyStr.has_char "=" lat = false -> PyStr.has_char "=" lng = false ->
  PyStr.occurrences "camera=" (url_template base lat lng) =
  PyStr.occurrences "camera=" base + 1.
Proof.
  intros Hlat Hlng. unfold url_template.
  change ("?camera=" ++ lat ++ "," ++ lng ++ "," ++ zoom ++ ",0.0,0.0,d")%string
    with (String "?" ("camera=" ++ lat ++ "," ++ lng ++ "," ++ zoom ++ ",0.0,0.0,d")%string).
  rewrite PyStrCount.occurrences_app_absent by (reflexivity || discriminate).
  f_equal.
  assert (T : PyStr.occurrences "camera="
                (lat ++ "," ++ lng ++ "," ++ zoom ++ ",0.0,0.0,d")%string = 0).
  { apply (PyStrCount.occurrences_absent "="); [reflexivity|].
    rewrite !PyStrCount.has_char_app, Hlat, Hlng. reflexivity. }
  revert T. generalize (lat ++ "," ++ lng ++ "," ++ zoom ++ ",0.0,0.0,d")%string.
  intros tail T. simpl. rewrite T.
  destruct tail; reflexivity.
Qed.

End UrlSynthesis.

(** ** Rows reaching the sink *)

Section Sink.
Variable file_accepts : list row -> row -> bool.

Lemma with_rows_nil w : with_rows w [] = w.
Proof. destruct w; unfold with_rows; simpl. rewrite app_nil_r. reflexivity. Qed.

Lemma with_rows_app w r rows :
  with_rows (with_rows w [r]) rows = with_rows w (r :: rows).
Proof. unfold with_rows; simpl. rewrite <- app_assoc. reflexivity. Qed.

Lemma filter_negb_forallb {A} (f : A -> bool) (l : list A) :
  forallb f l = true -> filter (fun x => negb (f x)) l = [].
Proof.
  induction l as [|x l IH]; simpl; [reflexivity|].
  intros H. apply andb_true_iff in H. destruct H as [Hx Hl].
  rewrite Hx. simpl. auto.
Qed.

Lemma dict_to_list_conforming (v : json) :
  conforming v = true -> DictWriter.dict_to_list fieldnames v = Ok (row_of v).
Proof.
  intros H. destruct v; cbn [conforming] in H; try discriminate H.
  unfold DictWriter.dict_to_list. unfold in_header in H.
  rewrite (filter_negb_forallb (fun k => existsb (String.eqb k) fieldnames) _ H).
  reflexivity.
Qed.


Lemma write_dict_conforming (v : json) (w : World) :
  conforming v = true -> file_accepts (csv_rows w) (row_of v) = true ->
  write_dict file_accepts v w = (Ok tt, with_rows w [row_of v]).
Proof.
  intros Hc Ha. unfold write_dict, bind, lift, writerow.
  rewrite (dict_to_list_conforming _ Hc), Ha. reflexivity.
Qed.



Lemma writerows_loop_written (objs : list json) (w : World) :
  forallb conforming objs = true ->
  accepts_all file_accepts (csv_rows w) (map row_of objs) = true ->
  writerows_loop file_accepts objs w = (Ok tt, with_rows w (map row_of objs)).
Proof.
  revert w; induction objs as [|o objs IH]; intros w Hc Ha.
  - simpl. rewrite with_rows_nil. reflexivity.
  - simpl in Hc, Ha. apply andb_true_iff in Hc. destruct Hc as [Ho Hc].
    apply andb_true_iff in Ha. destruct Ha as [Hao Ha].
    cbn [writerows_loop]. unfold bind at 1.
    rewrite (write_dict_conforming _ _ Ho Hao).
    rewrite IH; [|exact Hc|exact Ha].
    cbn [map]. rewrite with_rows_app. reflexivity.
Qed.


Lemma response_url_unmarked (response : Response.t) (w : World) :
  PyStr.contains "mode=3d" (Response.url response) = false ->
  response_url file_accepts response w = (Ok tt, w).
Proof. intros H. unfold response_url. rewrite H. reflexivity. Qed.

Lemma response_url_objects (response : Response.t) (body objects : json) (w : World) :
  PyStr.contains "mode=3d" (Response.url response) = true ->
  Response.json response = Ok body ->
  result_objects body = Ok objects ->
  response_url file_accepts response w =
  match (if Py.truthy objects then writerows file_accepts objects else ret tt) w with
  | (Ok _, w') => (Ok tt, with_log w' (Crawled (Response.url response) objects))
  | (Raise e, w') => (Ok tt, with_log w' (FailedResponse (Response.url response) e))
  end.
Proof.
  intros Hm Hj Ho. unfold response_url. rewrite Hm.
  unfold try_except, bind, lift. rewrite Hj, Ho.
  destruct (Py.truthy objects);
    [destruct (writerows file_accepts objects w) as [[u|e] w']|]; reflexivity.
Qed.

Lemma response_url_no_objects (response : Response.t) (w : World) (e : exc) :
  PyStr.contains "mode=3d" (Response.url response) = true ->
  (Response.json response = Raise e \/
   exists body, Response.json response = Ok body /\ result_objects body = Raise e) ->
  response_url file_accepts response w =
  (Ok tt, with_log w (FailedResponse (Response.url response) e)).
Proof.
  intros Hm H. unfold response_url. rewrite Hm.
  unfold try_except, bind, lift.
  destruct H as [-> | [body [-> ->]]]; reflexivity.
Qed.

End Sink.

(** ** What the handlers keep of the world *)

Create HintDb crawl.

Section Keeps.
Variable R : World -> World -> Prop.
Hypothesis R_refl : forall w, R w w.
Hypothesis R_trans : forall a b c, R a b -> R b c -> R a c.
Hypothesis R_log : forall w entry, R w (with_log w entry).
Hypothesis R_rows : forall w r, R w (with_rows w [r]).
Variable file_accepts : list row -> row -> bool.

Lemma keeps_ret {A} (a : A) : keeps R (ret a).
Proof. intros w. apply R_refl. Qed.

Lemma keeps_lift {A} (r : result A) : keeps R (lift r).
Proof. intros w. apply R_refl. Qed.

Lemma keeps_outcome (o : option exc) : keeps R (outcome o).
Proof. intros w. destruct o; apply R_refl. Qed.

Lemma keeps_logger (entry : log_entry) : keeps R (logger entry).
Proof. intros w. apply R_log. Qed.

Lemma keeps_writerow (r : row) : keeps R (writerow file_accepts r).
Proof.
  intros w. unfold writerow.
  destruct (file_accepts (csv_rows w) r); [apply R_rows | apply R_refl].
Qed.

Lemma keeps_bind {A B} (m : M A) (k : A -> M B) :
  keeps R m -> (forall a, keeps R (k a)) -> keeps R (bind m k).
Proof.
  intros Hm Hk w. unfold bind. specialize (Hm w).
  destruct (m w) as [[a|e] w1]; cbn [snd] in *; [|exact Hm].
  apply R_trans with w1; [exact Hm | apply Hk].
Qed.

Lemma keeps_try_except {A} (m : M A) (h : exc -> M A) :
  keeps R m -> (forall e, keeps R (h e)) -> keeps R (try_except m h).
Proof.
  intros Hm Hh w. unfold try_except. specialize (Hm w).
  destruct (m w) as [[a|e] w1]; cbn [snd] in *; [exact Hm|].
  apply R_trans with w1; [exact Hm | apply Hh].
Qed.

Lemma keeps_detached (handler : M unit) :
  keeps R handler -> keeps R (detached handler).
Proof. intros H w. apply H. Qed.

Lemma keeps_for_each {A} (f : A -> M unit) (l : list A) :
  (forall x, keeps R (f x)) -> keeps R (for_each f l).
Proof.
  intros Hf. induction l as [|x l IH]; [apply keeps_ret|].
  cbn [for_each]. apply keeps_bind; [apply Hf | intros _; exact IH].
Qed.

Hint Resolve keeps_ret keeps_lift keeps_outcome keeps_logger keeps_writerow
  keeps_bind keeps_try_except keeps_detached keeps_for_each : crawl.

Lemma keeps_writerows_loop (l : list json) :
  keeps R (writerows_loop file_accepts l).
Proof.
  induction l as [|x l IH]; cbn [writerows_loop]; [auto with crawl|].
  unfold write_dict. auto with crawl.
Qed.

Hint Resolve keeps_writerows_loop : crawl.

Lemma keeps_response_url (response : Response.t) :
  keeps R (response_url file_accepts response).
Proof.
  unfold response_url.
  destruct (PyStr.contains "mode=3d" (Response.url response)); [|auto with crawl].
  apply keeps_try_except; [|auto with crawl].
  apply keeps_bind; [auto with crawl|]. intros body.
  apply keeps_bind; [auto with crawl|]. intros objects.
  apply keeps_bind; [|auto with crawl].
  destruct (Py.truthy objects); [|auto with crawl].
  unfold writerows. auto with crawl.
Qed.

Lemma keeps_deliver (ex : Exchange) : keeps R (deliver file_accepts ex).
Proof.
  unfold deliver. destruct (abort_url (ex_request ex)); [auto with crawl|].
  apply keeps_detached. apply keeps_response_url.
Qed.

Hint Resolve keeps_deliver : crawl.

Lemma keeps_suspended (call : list Exchange * option exc) :
  keeps R (suspended file_accepts call).
Proof. unfold suspended. auto with crawl. Qed.

Hint Resolve keeps_suspended : crawl.

Lemma keeps_guarded (page : Page.t) (url : string) :
  keeps R (guarded file_accepts page url).
Proof. unfold guarded. auto 6 with crawl. Qed.
End Keeps.

(** The two relations the statements use satisfy the laws. *)

Lemma trace_kept_refl (w : World) : trace_kept w w.
Proof. reflexivity. Qed.

Lemma trace_kept_trans (a b c : World) :
  trace_kept a b -> trace_kept b c -> trace_kept a c.
Proof. unfold trace_kept. intros H1 H2. rewrite H2. exact H1. Qed.

Lemma trace_kept_log (w : World) (entry : log_entry) : trace_kept w (with_log w entry).
Proof. reflexivity. Qed.

Lemma trace_kept_rows (w : World) (r : row) : trace_kept w (with_rows w [r]).
Proof. reflexivity. Qed.





(** ** Page sessions: trace and rows *)

Ltac trace_kept_laws :=
  first [ exact trace_kept_refl | exact trace_kept_trans
        | exact trace_kept_log | exact trace_kept_rows ].


Section PageSession.
Variable file_accepts : list row -> row -> bool.
Variable context : nat -> result Page.t.

Lemma same_trace_deliver (ex : Exchange) : same_trace (deliver file_accepts ex).
Proof.
  apply keeps_deliver; trace_kept_laws.
Qed.

Lemma same_trace_guarded (page : Page.t) (url : string) :
  same_trace (guarded file_accepts page url).
Proof.
  apply keeps_guarded; trace_kept_laws.
Qed.


Lemma deliver_returns (ex : Exchange) (w : World) :
  fst (deliver file_accepts ex w) = Ok tt.
Proof. unfold deliver. destruct (abort_url (ex_request ex)); reflexivity. Qed.
End PageSession.

(** ** One page session, whole and step by step *)

Section PageSessionRun.
Variable file_accepts : list row -> row -> bool.
Variable context : nat -> result Page.t.

Lemma guarded_returns (page : Page.t) (url : string) (w : World) :
  exists w', guarded file_accepts page url w = (Ok tt, w') /\ trace w' = trace w.
Proof.
  pose proof (same_trace_guarded file_accepts page url w) as T.
  unfold trace_kept in T. unfold guarded, try_except in *.
  match goal with |- context [match ?b with _ => _ end] =>
    destruct b as [[[]|e] w1] end.
  - exists w1. split; [reflexivity | exact T].
  - eexists. split; [reflexivity | exact T].
Qed.

Lemma process_page_opened (n : nat) (url : string) (page : Page.t) (w : World) :
  context n = Ok page ->
  process_page file_accepts context n url w =
  try_finally (guarded file_accepts page url) (close_page n page) (with_event w (EvOpen n)).
Proof.
  intros H. unfold process_page, new_page, bind, lift. rewrite H. reflexivity.
Qed.

Lemma process_page_closes (n : nat) (url : string) (page : Page.t) (w : World) :
  context n = Ok page -> Page.close page = None ->
  exists w', process_page file_accepts context n url w = (Ok tt, w') /\
             trace w' = trace w ++ [EvOpen n; EvClose n].
Proof.
  intros Hp Hc. rewrite (process_page_opened url w Hp).
  destruct (guarded_returns page url (with_event w (EvOpen n))) as [w1 [E T]].
  unfold try_finally. rewrite E. unfold close_page. rewrite Hc.
  eexists. split; [reflexivity|]. simpl. rewrite T. simpl.
  rewrite <- app_assoc. reflexivity.
Qed.

Lemma process_page_close_fails (n : nat) (url : string) (page : Page.t)
      (e : exc) (w : World) :
  context n = Ok page -> Page.close page = Some e ->
  exists w', process_page file_accepts context n url w = (Raise e, w') /\
             trace w' = trace w ++ [EvOpen n; EvCloseFailed n].
Proof.
  intros Hp Hc. rewrite (process_page_opened url w Hp).
  destruct (guarded_returns page url (with_event w (EvOpen n))) as [w1 [E T]].
  unfold try_finally. rewrite E. unfold close_page. rewrite Hc.
  eexists. split; [reflexivity|]. simpl. rewrite T. simpl.
  rewrite <- app_assoc. reflexivity.
Qed.

Lemma process_page_not_opened (n : nat) (url : string) (e : exc) (w : World) :
  context n = Raise e ->
  process_page file_accepts context n url w = (Raise e, w).
Proof.
  intros H. unfold process_page, new_page, bind, lift. rewrite H. reflexivity.
Qed.

(** Stepping *)
Lemma run_task_add (a b : nat) (t : task) (w : World) :
  run_task file_accepts context (a + b) t w =
  run_task file_accepts context b
    (fst (run_task file_accepts context a t w))
    (snd (run_task file_accepts context a t w)).
Proof.
  revert t w; induction a as [|a IH]; intros t w; [reflexivity|].
  cbn [Nat.add run_task].
  destruct (task_step file_accepts context t w) as [[t' w']|] eqn:E.
  - apply IH.
  - simpl. destruct b; simpl; [reflexivity | rewrite E; reflexivity].
Qed.

Lemma run_task_wait (n : nat) (url : string) (page : Page.t)
      (traffic : list Exchange) (w : World) :
  exists fuel,
    run_task file_accepts context fuel (TWait n url page traffic) w =
    (TClose n page,
     snd (try_except
            (suspended file_accepts (traffic, snd (Page.wait_for_load_state page)))
            (fun e => logger (FailedCrawl url e)) w)).
Proof.
  revert w; induction traffic as [|ex rest IH]; intros w.
  - exists 1. cbn [run_task task_step]. unfold suspended, try_except, bind. simpl.
    destruct (snd (Page.wait_for_load_state page)); reflexivity.
  - destruct (IH (snd (deliver file_accepts ex w))) as [fuel E].
    exists (S fuel). cbn [run_task task_step]. rewrite E.
    unfold suspended, try_except, bind. cbn [fst snd for_each]. unfold bind.
    pose proof (deliver_returns file_accepts ex w) as R.
    destruct (deliver file_accepts ex w) as [r w']; simpl in R |- *. subst r.
    reflexivity.
Qed.

Lemma run_task_goto (n : nat) (url : string) (page : Page.t)
      (traffic : list Exchange) (w : World) :
  exists fuel,
    run_task file_accepts context fuel (TGoto n url page traffic) w =
    (TClose n page,
     snd (try_except
            (bind (suspended file_accepts (traffic, snd (Page.goto page url))) (fun _ =>
             suspended file_accepts (Page.wait_for_load_state page)))
            (fun e => logger (FailedCrawl url e)) w)).
Proof.
  revert w; induction traffic as [|ex rest IH]; intros w.
  - destruct (snd (Page.goto page url)) as [e|] eqn:G.
    + exists 1. cbn [run_task task_step]. rewrite G. reflexivity.
    + destruct (run_task_wait n url page (fst (Page.wait_for_load_state page)) w)
        as [fuel E].
      exists (1 + fuel). rewrite run_task_add.
      cbn [run_task task_step]. rewrite G. cbn [fst snd]. rewrite E.
      unfold suspended at 2. unfold try_except, bind. simpl.
      destruct (Page.wait_for_load_state page) as [tr o]. reflexivity.
  - destruct (IH (snd (deliver file_accepts ex w))) as [fuel E].
    exists (S fuel). cbn [run_task task_step]. rewrite E.
    unfold suspended at 3. unfold try_except, bind. cbn [fst snd for_each]. unfold bind.
    pose proof (deliver_returns file_accepts ex w) as R.
    destruct (deliver file_accepts ex w) as [r w']; simpl in R |- *. subst r.
    reflexivity.
Qed.

Lemma task_step_start (n : nat) (url : string) (page : Page.t) (w : World) :
  context n = Ok page ->
  task_step file_accepts context (TStart n url) w =
  Some (TRoute n url page, with_event w (EvOpen n)).
Proof.
  intros C. cbn [task_step]. unfold new_page, bind, lift. rewrite C. reflexivity.
Qed.

Lemma run_task_process_page (n : nat) (url : string) (w : World) :
  exists fuel,
    run_task file_accepts context fuel (TStart n url) w =
    (finished n (fst (process_page file_accepts context n url w)),
     snd (process_page file_accepts context n url w)).
Proof.
  destruct (context n) as [page|e] eqn:C.
  - rewrite (process_page_opened url w C).
    assert (G : exists fuel,
               run_task file_accepts context fuel (TRoute n url page)
                        (with_event w (EvOpen n)) =
               (TClose n page, snd (guarded file_accepts page url (with_event w (EvOpen n))))).
    { generalize (with_event w (EvOpen n)). intros w1.
      destruct (Page.route page) as [e|] eqn:R.
      - exists 1. cbn [run_task task_step]. rewrite R.
        unfold guarded, try_except, bind. rewrite R. reflexivity.
      - destruct (run_task_goto n url page (fst (Page.goto page url)) w1) as [fuel E].
        exists (1 + fuel). rewrite run_task_add. cbn [run_task task_step].
        rewrite R. cbn [fst snd]. rewrite E.
        unfold guarded, try_except. unfold bind at 3. rewrite R. simpl.
        destruct (Page.goto page url) as [tr o]. reflexivity. }
    destruct G as [fuel G]. exists (S (fuel + 1)).
    cbn [run_task]. rewrite (task_step_start url w C).
    rewrite run_task_add, G. cbn [fst snd run_task task_step].
    destruct (guarded_returns page url (with_event w (EvOpen n))) as [w1 [E T]].
    unfold try_finally. rewrite E. cbn [snd].
    destruct (close_page n page w1) as [[[]|e] w2]; reflexivity.
  - exists 1. rewrite (process_page_not_opened url w C).
    cbn [run_task task_step]. unfold new_page, bind, lift. rewrite C. reflexivity.
Qed.
End PageSessionRun.

(** ** The batches of [run] *)

Section Batches.
Variable urls : list string.
Variable k : nat.
Hypothesis k_positive : 0 < k.

Lemma rmap_ok {A B} (f : A -> result B) (g : A -> B) (l : list A) :
  (forall x, In x l -> f x = Ok (g x)) -> rmap f l = Ok (map g l).
Proof.
  induction l as [|x l IH]; intros H; [reflexivity|].
  cbn [rmap map]. rewrite (H x (or_introl eq_refl)). cbn [rbind].
  rewrite IH by (intros y Hy; apply H; right; exact Hy). reflexivity.
Qed.

Lemma batch_at_chunk (i : nat) :
  batch_at urls (Z.of_nat k) i = Ok (chunk_at urls k i).
Proof.
  unfold batch_at, chunk_at.
  replace (Z.to_nat (Z.min (Z.of_nat k) (Z.of_nat (List.length urls) - Z.of_nat i)))
    with (Nat.min k (List.length urls - i)) by lia.
  apply rmap_ok. intros j Hj. apply in_seq in Hj.
  unfold index. rewrite (nth_error_nth' urls "") by lia. reflexivity.
Qed.

Lemma batches_chunks :
  batches urls (Z.of_nat k) =
  Ok (map (chunk_at urls k) (range_loop (List.length urls) 0 (List.length urls) k)).
Proof.
  unfold batches, range_step.
  replace (Z.of_nat k =? 0)%Z with false by (symmetry; apply Z.eqb_neq; lia).
  replace (Z.of_nat k <? 0)%Z with false by (symmetry; apply Z.ltb_ge; lia).
  cbn [rbind]. rewrite Nat2Z.id.
  apply rmap_ok. intros i _. apply batch_at_chunk.
Qed.

Lemma map_add_seq (i s m : nat) :
  map (fun j => i + j) (seq s m) = seq (i + s) m.
Proof.
  revert s; induction m as [|m IH]; intros s; [reflexivity|].
  cbn [seq map]. rewrite IH. f_equal. f_equal. lia.
Qed.

Lemma chunk_length (i : nat) :
  List.length (chunk_at urls k i) = Nat.min k (List.length urls - i).
Proof. unfold chunk_at. rewrite length_map, length_seq. reflexivity. Qed.

Lemma chunk_ids (i : nat) :
  map fst (chunk_at urls k i) = seq i (Nat.min k (List.length urls - i)).
Proof.
  unfold chunk_at. rewrite map_map. cbn [fst].
  rewrite map_add_seq. f_equal. lia.
Qed.

Lemma map_nth_seq (l : list string) (m : nat) :
  map (fun j => nth j l "") (seq 0 (Nat.min m (List.length l))) = firstn m l.
Proof.
  revert m; induction l as [|x l IH]; intros m.
  - rewrite Nat.min_0_r. destruct m; reflexivity.
  - destruct m as [|m]; [reflexivity|].
    cbn [List.length Nat.min seq map firstn nth]. f_equal.
    rewrite <- seq_shift, map_map. apply IH.
Qed.

Lemma chunk_urls (i : nat) :
  map snd (chunk_at urls k i) = firstn k (skipn i urls).
Proof.
  unfold chunk_at. rewrite map_map. cbn [snd].
  rewrite <- map_nth_seq, length_skipn.
  apply map_ext. intros j. rewrite nth_skipn. reflexivity.
Qed.

Lemma range_loop_nonempty (fuel j stop : nat) :
  range_loop fuel j stop k <> [] -> j < stop.
Proof.
  destruct fuel; cbn [range_loop]; [congruence|].
  destruct (j <? stop) eqn:E; [intros _; apply Nat.ltb_lt; exact E | congruence].
Qed.

Lemma range_loop_chunks (fuel i : nat) :
  List.length urls - i <= fuel ->
  let bs := map (chunk_at urls k) (range_loop fuel i (List.length urls) k) in
  chained k i bs /\
  map snd (List.concat bs) = skipn i urls /\
  map fst (List.concat bs) = seq i (List.length urls - i).
Proof.
  revert i; induction fuel as [|fuel IH]; intros i Hf; cbn zeta.
  - cbn [range_loop map List.concat chained].
    replace (List.length urls - i) with 0 by lia.
    rewrite skipn_all2 by lia. auto.
  - cbn [range_loop]. destruct (i <? List.length urls) eqn:E.
    + apply Nat.ltb_lt in E.
      destruct (IH (i + k)) as [Hc [Hs Hi]]; [lia|].
      cbn zeta in Hc, Hs, Hi.
      set (rest := map (chunk_at urls k)
                       (range_loop fuel (i + k) (List.length urls) k)) in *.
      cbn [map List.concat chained]. fold rest.
      rewrite !map_app, Hs, Hi, chunk_urls, chunk_ids, chunk_length.
      assert (Full : rest <> [] -> Nat.min k (List.length urls - i) = k).
      { intros Hne.
        assert (i + k < List.length urls); [|lia].
        apply (range_loop_nonempty fuel). intros R. apply Hne.
        unfold rest. rewrite R. reflexivity. }
      repeat split.
      * lia.
      * lia.
      * exact Full.
      * destruct rest as [|b rest'] eqn:R; [exact I|].
        rewrite Full by congruence. exact Hc.
      * replace (i + k) with (k + i) by lia.
        rewrite <- (skipn_skipn k i urls). apply firstn_skipn.
      * destruct (Nat.le_gt_cases k (List.length urls - i)) as [L|L].
        -- rewrite Nat.min_l by exact L. rewrite <- seq_app. f_equal. lia.
        -- rewrite Nat.min_r by lia.
           replace (List.length urls - (i + k)) with 0 by lia.
           cbn [seq]. apply app_nil_r.
    + apply Nat.ltb_ge in E. cbn [map List.concat chained].
      replace (List.length urls - i) with 0 by lia.
      rewrite skipn_all2 by lia. auto.
Qed.

Lemma chained_sizes (d : nat) (bs : list (list (nat * string))) :
  chained k d bs -> Forall (fun b => 0 < List.length b <= k) bs.
Proof.
  revert d; induction bs as [|b bs IH]; intros d H; [constructor|].
  destruct H as [_ [Hl [_ Hc]]]. constructor; [exact Hl | exact (IH _ Hc)].
Qed.

Lemma chained_full (d : nat) (bs1 : list (list (nat * string)))
      (b : list (nat * string)) (bs2 : list (list (nat * string))) :
  chained k d (bs1 ++ b :: bs2) -> bs2 <> [] -> List.length b = k.
Proof.
  revert d; induction bs1 as [|a bs1 IH]; intros d H Hne.
  - destruct H as [_ [_ [Hf _]]]. exact (Hf Hne).
  - destruct H as [_ [_ [_ Hc]]]. exact (IH _ Hc Hne).
Qed.
End Batches.

(** ** Steps of the gathered coroutines *)

Section Scheduler.
Variable file_accepts : list row -> row -> bool.
Variable context : nat -> result Page.t.

Lemma task_step_effect (t t' : task) (w w' : World) :
  task_step file_accepts context t w = Some (t', w') ->
  exists evs, trace w' = trace w ++ evs /\ effect t t' evs.
Proof.
  destruct t as [n url|n url page|n url page tr|n url page tr|n page|n|n e];
    cbn [task_step]; intros H; try discriminate H.
  - unfold new_page, bind, lift in H. destruct (context n) as [page|e];
      inversion H; subst; clear H.
    + exists [EvOpen n]. split; [reflexivity | constructor].
    + exists []. split; [symmetry; apply app_nil_r | constructor].
  - exists []. rewrite app_nil_r.
    destruct (Page.route page); inversion H; subst; clear H;
      (split; [reflexivity | apply eff_inside; reflexivity]).
  - exists []. rewrite app_nil_r. destruct tr as [|ex tr].
    + destruct (snd (Page.goto page url)); inversion H; subst; clear H;
        (split; [reflexivity | apply eff_inside; reflexivity]).
    + inversion H; subst; clear H.
      split; [apply same_trace_deliver | apply eff_inside; reflexivity].
  - exists []. rewrite app_nil_r. destruct tr as [|ex tr].
    + destruct (snd (Page.wait_for_load_state page)); inversion H; subst; clear H;
        (split; [reflexivity | apply eff_inside; reflexivity]).
    + inversion H; subst; clear H.
      split; [apply same_trace_deliver | apply eff_inside; reflexivity].
  - unfold close_page in H. destruct (Page.close page) as [e|].
    + inversion H; subst; clear H.
      exists [EvCloseFailed n]. split; [reflexivity | constructor].
    + inversion H; subst; clear H.
      exists [EvClose n]. split; [reflexivity | constructor].
Qed.
End Scheduler.

Lemma open_pages_app (a b : list event) :
  (open_pages (a ++ b) = open_pages a + open_pages b)%Z.
Proof.
  induction a as [|ev a IH]; [reflexivity|].
  destruct ev; cbn [app open_pages]; rewrite IH; lia.
Qed.

Lemma count_busy_app (a b : list task) :
  (count_busy (a ++ b) = count_busy a + count_busy b)%Z.
Proof.
  induction a as [|t a IH]; [reflexivity|].
  cbn [app count_busy]. rewrite IH. lia.
Qed.

Lemma count_busy_length (l : list task) :
  (0 <= count_busy l <= Z.of_nat (List.length l))%Z.
Proof.
  induction l as [|t l IH]; cbn [count_busy List.length]; [lia|].
  destruct (busy t); lia.
Qed.

Lemma count_busy_returned (l : list task) :
  forallb returned l = true -> count_busy l = 0%Z.
Proof.
  induction l as [|t l IH]; [reflexivity|].
  cbn [forallb count_busy]. intros H. apply andb_true_iff in H.
  destruct H as [Ht Hl]. rewrite (IH Hl).
  destruct t; try discriminate Ht. reflexivity.
Qed.

Lemma effect_id (t t' : task) (evs : list event) :
  effect t t' evs -> task_id t' = task_id t.
Proof. intros H; destruct H; auto. Qed.

Lemma effect_pages (t t' : task) (evs : list event) :
  effect t t' evs ->
  (open_pages evs + (if busy t then 1 else 0) <= (if busy t' then 1 else 0))%Z.
Proof.
  intros H; destruct H; cbn [open_pages busy]; try lia.
  destruct t; try discriminate; destruct t'; try discriminate; simpl; lia.
Qed.

Lemma snoc_split {A} (tr : list A) (ev : A) (p s : list A) :
  tr ++ [ev] = p ++ s ->
  (s = [] /\ p = tr ++ [ev]) \/ (exists s', s = s' ++ [ev] /\ tr = p ++ s').
Proof.
  intros H. destruct s as [|x s] using rev_ind.
  - left. rewrite app_nil_r in H. auto.
  - right. rewrite app_assoc in H. apply app_inj_tail in H.
    destruct H as [H1 H2]. subst. exists s. auto.
Qed.

Lemma snoc_split_at {A} (tr : list A) (ev : A) (p : list A) (x : A) (s : list A) :
  tr ++ [ev] = p ++ x :: s ->
  (p = tr /\ ev = x /\ s = []) \/ (exists s', s = s' ++ [ev] /\ tr = p ++ x :: s').
Proof.
  intros H. destruct s as [|y s _] using rev_ind.
  - left. apply app_inj_tail in H.
    destruct H as [-> ->]. auto.
  - right. change (p ++ x :: s ++ [y]) with (p ++ (x :: s) ++ [y]) in H.
    rewrite app_assoc in H. apply app_inj_tail in H.
    destruct H as [-> ->]. exists s. auto.
Qed.

Lemma effect_events (t t' : task) (evs : list event) :
  effect t t' evs -> evs = [] \/ exists ev, evs = [ev].
Proof. intros H; destruct H; eauto. Qed.

Lemma effect_opens (t t' : task) (j : nat) :
  effect t t' [EvOpen j] -> task_id t = j.
Proof. intros H. inversion H. reflexivity. Qed.

Lemma earlier_batch (k q r i : nat) :
  r < k -> i / k < (q * k + r) / k -> i < q * k.
Proof.
  intros Hr H.
  rewrite Nat.div_add_l, (Nat.div_small r k), Nat.add_0_r in H by lia.
  destruct (Nat.lt_ge_cases i (q * k)) as [L|L]; [exact L|].
  assert (q <= i / k); [|lia].
  apply Nat.div_le_lower_bound; lia.
Qed.

(** ** The invariant of the loop *)

Section SchedulerInvariant.
Variable file_accepts : list row -> row -> bool.
Variable context : nat -> result Page.t.
Variable k : nat.
Hypothesis k_positive : 0 < k.

Lemma invariant_start (bs : list (list (nat * string))) (w : World) :
  chained k 0 bs -> trace w = [] ->
  invariant k {| pending := bs; running := []; world := w |}.
Proof.
  intros Hc Ht. apply Invariant with (d := 0); cbn [pending running world List.length map].
  - reflexivity.
  - lia.
  - exact Hc.
  - apply Nat.divide_0_r.
  - intros _. apply Nat.divide_0_r.
  - intros i Hi. lia.
  - intros t [].
  - intros t [].
  - rewrite Ht. cbn. lia.
  - intros p s H. rewrite Ht in H. symmetry in H. apply app_eq_nil in H.
    destruct H as [-> _]. cbn. lia.
  - intros p j s i H. rewrite Ht in H. destruct p; discriminate H.
Qed.

Lemma invariant_task (pend : list (list (nat * string))) (before : list task)
      (t : task) (after : list task) (w : World) (t' : task) (w' : World)
      (evs : list event) :
  trace w' = trace w ++ evs -> effect t t' evs ->
  invariant k {| pending := pend; running := before ++ t :: after; world := w |} ->
  invariant k {| pending := pend; running := before ++ t' :: after; world := w' |}.
Proof.
  intros Ht Heff [d ids size rest base next earlier opened closed pages bound barrier].
  cbn [pending running world] in *.
  assert (Hid : task_id t' = task_id t) by exact (effect_id Heff).
  assert (Hlen : List.length (before ++ t' :: after) = List.length (before ++ t :: after)).
  { rewrite !length_app. reflexivity. }
  assert (Hin : In (task_id t) (seq d (List.length (before ++ t :: after)))).
  { rewrite <- ids. apply in_map. apply in_elt. }
  apply in_seq in Hin.
  assert (Hpages : (open_pages (trace w') <= count_busy (before ++ t' :: after))%Z).
  { rewrite Ht, open_pages_app. rewrite !count_busy_app in *. cbn [count_busy] in *.
    pose proof (effect_pages Heff). lia. }
  apply Invariant with (d := d); cbn [pending running world]; rewrite ?Hlen.
  - rewrite <- ids, !map_app. cbn [map]. rewrite Hid. reflexivity.
  - exact size.
  - exact rest.
  - exact base.
  - exact next.
  - intros i Hi. rewrite Ht. destruct (earlier i Hi). split; apply in_or_app; auto.
  - intros x Hx Hop. rewrite Ht. apply in_app_or in Hx.
    destruct Hx as [Hx | [<- | Hx]].
    + apply in_or_app. left. apply opened; [apply in_or_app; auto | exact Hop].
    + destruct Heff; cbn in Hop; try discriminate Hop.
      * apply in_or_app. right. left. reflexivity.
      * apply in_or_app. left. rewrite Hid.
        apply opened; [apply in_elt|]. unfold page_opened. rewrite H. reflexivity.
      * apply in_or_app. left.
        apply (opened (TClose n page)); [apply in_elt | reflexivity].
    + apply in_or_app. left.
      apply opened; [apply in_or_app; right; right; exact Hx | exact Hop].
  - intros x Hx Hret. rewrite Ht. apply in_app_or in Hx.
    destruct Hx as [Hx | [<- | Hx]].
    + apply in_or_app. left. apply closed; [apply in_or_app; auto | exact Hret].
    + destruct Heff; cbn in Hret; try discriminate Hret.
      * destruct t'; discriminate.
      * apply in_or_app. right. left. reflexivity.
    + apply in_or_app. left.
      apply closed; [apply in_or_app; right; right; exact Hx | exact Hret].
  - exact Hpages.
  - intros p s Hsplit. rewrite Ht in Hsplit.
    destruct (effect_events Heff) as [-> | [ev ->]].
    + rewrite app_nil_r in Hsplit. exact (bound _ _ Hsplit).
    + apply snoc_split in Hsplit. destruct Hsplit as [[-> ->] | [s' [-> Hs]]].
      * rewrite <- Ht. pose proof (count_busy_length (before ++ t' :: after)). lia.
      * exact (bound _ _ Hs).
  - intros p j s i Hsplit Hdiv. rewrite Ht in Hsplit.
    destruct (effect_events Heff) as [-> | [ev ->]].
    + rewrite app_nil_r in Hsplit. exact (barrier _ _ _ _ Hsplit Hdiv).
    + apply snoc_split_at in Hsplit.
      destruct Hsplit as [[-> [-> ->]] | [s' [-> Hs]]].
      * apply effect_opens in Heff. rewrite Heff in Hin.
        destruct base as [q ->]. apply earlier.
        apply (@earlier_batch k q (j - q * k) i); [lia|].
        replace (q * k + (j - q * k)) with j by lia. exact Hdiv.
      * exact (barrier _ _ _ _ Hs Hdiv).
Qed.

Lemma invariant_gather (batch : list (nat * string))
      (pend : list (list (nat * string))) (tasks : list task) (w : World) :
  forallb returned tasks = true ->
  invariant k {| pending := batch :: pend; running := tasks; world := w |} ->
  invariant k {| pending := pend; running := spawn batch; world := w |}.
Proof.
  intros Hret [d ids size rest base next earlier opened closed pages bound barrier].
  cbn [pending running world] in *.
  destruct rest as [Hids [Hsize [Hfull Hrest]]].
  assert (Hlen : List.length (spawn batch) = List.length batch).
  { unfold spawn. apply length_map. }
  apply Invariant with (d := d + List.length tasks);
    cbn [pending running world]; rewrite ?Hlen.
  - unfold spawn. rewrite map_map. cbn [task_id]. exact Hids.
  - lia.
  - exact Hrest.
  - apply next. discriminate.
  - intros Hne. rewrite (Hfull Hne).
    apply Nat.divide_add_r; [apply next; discriminate | apply Nat.divide_refl].
  - intros i Hi. destruct (Nat.lt_ge_cases i d) as [L|L]; [exact (earlier i L)|].
    assert (Hin : In i (map task_id tasks)).
    { rewrite ids. apply in_seq. lia. }
    apply in_map_iff in Hin. destruct Hin as [t [<- Ht]].
    assert (R : returned t = true).
    { rewrite forallb_forall in Hret. exact (Hret t Ht). }
    split; [apply opened | apply closed]; try assumption.
    unfold page_opened. rewrite R. apply orb_true_r.
  - intros t Ht Hop. unfold spawn in Ht. apply in_map_iff in Ht.
    destruct Ht as [x [<- _]]. discriminate Hop.
  - intros t Ht Hr. unfold spawn in Ht. apply in_map_iff in Ht.
    destruct Ht as [x [<- _]]. discriminate Hr.
  - rewrite (count_busy_returned _ Hret) in pages.
    pose proof (count_busy_length (spawn batch)). lia.
  - exact bound.
  - exact barrier.
Qed.

Lemma invariant_step (c c' : Config) :
  crawl_step file_accepts context c c' -> invariant k c -> invariant k c'.
Proof.
  intros H Hi. destruct H as [pend before t after w t' w' Hs | batch pend tasks w Hr].
  - apply task_step_effect in Hs. destruct Hs as [evs [Ht He]].
    eapply invariant_task; eassumption.
  - eapply invariant_gather; eassumption.
Qed.

Lemma invariant_steps (c c' : Config) :
  crawl_steps file_accepts context c c' -> invariant k c -> invariant k c'.
Proof.
  intros H. induction H as [c | c c' c'' _ IH Hs]; intros Hi; [exact Hi|].
  eapply invariant_step; [exact Hs | exact (IH Hi)].
Qed.
End SchedulerInvariant.

(** ** [run] from its first batch *)

Lemma start_batches (urls : list string) (num_pages : Z) (w : World) :
  (0 < num_pages)%Z ->
  exists bs,
    start urls num_pages w = Ok {| pending := bs; running := []; world := w |} /\
    chained (Z.to_nat num_pages) 0 bs /\
    map snd (List.concat bs) = urls /\
    map fst (List.concat bs) = seq 0 (List.length urls).
Proof.
  intros Hk.
  assert (Kpos : 0 < Z.to_nat num_pages) by lia.
  pose proof (batches_chunks urls Kpos) as B.
  replace (Z.of_nat (Z.to_nat num_pages)) with num_pages in B by lia.
  destruct (@range_loop_chunks urls (Z.to_nat num_pages) Kpos (List.length urls) 0)
    as [Hc [Hs Hi]]; [lia|]. cbn zeta in Hc, Hs, Hi.
  eexists. split; [|split; [|split]].
  - unfold start. rewrite B. reflexivity.
  - exact Hc.
  - exact Hs.
  - rewrite Hi. f_equal. lia.
Qed.

Lemma start_invariant (file_accepts : list row -> row -> bool)
      (context : nat -> result Page.t)
      (urls : list string) (num_pages : Z) (w : World)
      (bs : list (list (nat * string))) (c : Config) :
  (0 < num_pages)%Z ->
  trace w = [] ->
  start urls num_pages w = Ok {| pending := bs; running := []; world := w |} ->
  crawl_steps file_accepts context {| pending := bs; running := []; world := w |} c ->
  invariant (Z.to_nat num_pages) c.
Proof.
  intros Hk Ht Hstart Hsteps.
  destruct (start_batches urls w Hk) as [bs' [Hstart' [Hc _]]].
  rewrite Hstart in Hstart'. inversion Hstart'; subst bs'.
  eapply invariant_steps; [lia | exact Hsteps |].
  apply invariant_start; [lia | exact Hc | exact Ht].
Qed.

(** Whatever the grid, [run] never holds more than [num_pages] pages open. *)
Lemma run_pages_bounded (settings : Settings) (py_repr : json -> string)
      (file_accepts : list row -> row -> bool) (context : nat -> result Page.t)
      (grid_data : json) (num_pages : Z) (w : World) (c : Config) :
  (0 < num_pages)%Z ->
  trace w = [] ->
  run settings py_repr file_accepts context grid_data num_pages w c ->
  forall p s, trace (world c) = p ++ s -> (open_pages p <= num_pages)%Z.
Proof.
  intros Hk Ht [urls [c0 [_ [Hstart Hsteps]]]] p s E.
  destruct (start_batches urls w Hk) as [bs [Hstart' _]].
  rewrite Hstart' in Hstart. inversion Hstart; subst c0.
  destruct (start_invariant urls Hk Ht Hstart' Hsteps)
    as [d _ _ _ _ _ _ _ _ _ bound _].
  replace num_pages with (Z.of_nat (Z.to_nat num_pages)) by lia.
  exact (bound p s E).
Qed.

(** ** What the handler leaves for each kind of response *)

Section Outcomes.
Variable file_accepts : list row -> row -> bool.


Lemma response_url_written (response : Response.t) (body : json)
      (objs : list json) (w : World) :
  PyStr.contains "mode=3d" (Response.url response) = true ->
  Response.json response = Ok body ->
  result_objects body = Ok (JArr objs) ->
  forallb conforming objs = true ->
  accepts_all file_accepts (csv_rows w) (map row_of objs) = true ->
  response_url file_accepts response w =
  (Ok tt, with_log (with_rows w (map row_of objs))
                   (Crawled (Response.url response) (JArr objs))).
Proof.
  intros Hm Hj Ho Hc Ha. rewrite (response_url_objects file_accepts _ w Hm Hj Ho).
  destruct objs as [|o objs].
  - cbn [Py.truthy map]. unfold ret. rewrite with_rows_nil. reflexivity.
  - cbn [Py.truthy]. unfold writerows, bind, lift. cbn [Py.iter].
    rewrite (writerows_loop_written file_accepts _ _ Hc Ha). reflexivity.
Qed.


End Outcomes.

Lemma result_objects_absent (d : list (string * json)) :
  (Py.assoc "result" d = None \/
   exists r, Py.assoc "result" d = Some (JObj r) /\
             (Py.assoc "objects" r = None \/ Py.assoc "objects" r = Some (JArr []))) ->
  result_objects (JObj d) = Ok (JArr []).
Proof.
  unfold result_objects, Py.get. cbn [rbind].
  intros [H | [r [H [H' | H']]]]; rewrite H; cbn [rbind Py.assoc]; try rewrite H';
    reflexivity.
Qed.

Lemma rmap_Forall2 {A B} (f : A -> result B) (l : list A) (ys : list B) :
  rmap f l = Ok ys -> Forall2 (fun x y => f x = Ok y) l ys.
Proof.
  revert ys; induction l as [|x l IH]; intros ys H; cbn [rmap] in H.
  - inversion H. constructor.
  - destruct (f x) as [y|e] eqn:E; cbn [rbind] in H; [|discriminate H].
    destruct (rmap f l) as [ys'|e]; cbn [rbind] in H; [|discriminate H].
    inversion H; subst. constructor; [exact E | apply IH; reflexivity].
Qed.

Lemma rmap_generate_url (settings : Settings) (py_repr : json -> string)
      (features : list json) :
  forallb has_properties features = true ->
  exists urls,
    rmap (generate_url settings py_repr) features = Ok urls /\
    Forall2 (fun feature url => generate_url settings py_repr feature = Ok url)
            features urls.
Proof.
  intros H.
  assert (E : exists urls, rmap (generate_url settings py_repr) features = Ok urls).
  { induction features as [|f fs IH]; [exists []; reflexivity|].
    cbn [forallb] in H. apply andb_true_iff in H. destruct H as [Hf Hfs].
    destruct (IH Hfs) as [urls E]. cbn [rmap]. rewrite E.
    destruct f as [| | | | | |d]; try discriminate Hf. cbn [has_properties] in Hf.
    destruct (Py.assoc "properties" d) as [[| | | | | |props]|] eqn:P;
      try discriminate Hf.
    rewrite (generate_url_properties settings py_repr d P). cbn [rbind].
    eexists. reflexivity. }
  destruct E as [urls E]. exists urls. split; [exact E | apply rmap_Forall2; exact E].
Qed.

(** * The claims *)

(** ** URL synthesis *)

(** C3. For a feature whose [properties] holds a numeric [lat] and a numeric
    [lng], [generate_url] returns the string
    [{base}?camera={lat},{lng},19.00,0.0,0.0,d]: the same string for the
    same feature, latitude before longitude, then the fixed zoom token; and
    it adds exactly one [camera=] to what the base endpoint holds, so the
    URL has exactly one when the base has none. *)
Theorem generate_url_numeric
        (settings : Settings) (py_repr : json -> string)
        (d props : list (string * json)) (lat lng : json) :
  Py.assoc "properties" d = Some (JObj props) ->
  Py.assoc "lat" props = Some lat ->
  Py.assoc "lng" props = Some lng ->
  Py.is_number lat = true ->
  Py.is_number lng = true ->
  let url := url_template (crawler_url settings)
                          (py_str py_repr lat) (py_str py_repr lng) in
  generate_url settings py_repr (JObj d) = Ok url /\
  PyStr.occurrences "camera=" url =
    PyStr.occurrences "camera=" (crawler_url settings) + 1 /\
  (PyStr.occurrences "camera=" (crawler_url settings) = 0 ->
   PyStr.occurrences "camera=" url = 1).
Proof.
  intros Hp Hlat Hlng Nlat Nlng url.
  assert (C : PyStr.occurrences "camera=" url =
              PyStr.occurrences "camera=" (crawler_url settings) + 1).
  { apply occurrences_camera; apply py_str_number; assumption. }
  split; [|split].
  - rewrite (generate_url_properties settings py_repr d Hp). unfold coordinate.
    rewrite Hlat, Hlng. reflexivity.
  - exact C.
  - intros Z. rewrite C, Z. reflexivity.
Qed.

(** A grid cell of the sample grid and the configured endpoint. *)
Lemma generate_url_numeric_witness :
  generate_url sample_settings sample_repr saigon =
    Ok "https://maps.example/3d?camera=10.7769,106.7009,19.00,0.0,0.0,d" /\
  PyStr.occurrences "camera="
    "https://maps.example/3d?camera=10.7769,106.7009,19.00,0.0,0.0,d" = 1.
Proof.
  pose proof (@generate_url_numeric sample_settings sample_repr
                [("type", JStr "Feature");
                 ("properties", JObj [("lat", JFloat "10.7769");
                                      ("lng", JFloat "106.7009")])]
                [("lat", JFloat "10.7769"); ("lng", JFloat "106.7009")]
                (JFloat "10.7769") (JFloat "106.7009")
                eq_refl eq_refl eq_refl eq_refl eq_refl) as H.
  destruct H as [H1 [_ H3]]. split; [exact H1 | exact (H3 eq_refl)].
Defined.

(** C8, as the code has it. A feature whose [properties] lacks [lat] or
    [lng] does not make URL synthesis fail: the missing coordinate is
    rendered as the text [None].  No feature is skipped: when every feature
    carries a [properties] dict, the targets hold one URL per feature, in
    the order of the features. *)
Theorem generate_url_missing_coordinate
        (settings : Settings) (py_repr : json -> string)
        (d props : list (string * json)) :
  Py.assoc "properties" d = Some (JObj props) ->
  Py.assoc "lat" props = None \/ Py.assoc "lng" props = None ->
  generate_url settings py_repr (JObj d) =
    Ok (url_template (crawler_url settings)
          (py_str py_repr (coordinate props "lat"))
          (py_str py_repr (coordinate props "lng"))) /\
  (Py.assoc "lat" props = None ->
   py_str py_repr (coordinate props "lat") = "None") /\
  (Py.assoc "lng" props = None ->
   py_str py_repr (coordinate props "lng") = "None") /\
  (forall (g : list (string * json)) (before after : list json),
     Py.assoc "features" g = Some (JArr (before ++ JObj d :: after)) ->
     forallb has_properties (before ++ after) = true ->
     exists urls,
       targets settings py_repr (JObj g) = Ok urls /\
       Forall2 (fun feature url => generate_url settings py_repr feature = Ok url)
               (before ++ JObj d :: after) urls).
Proof.
  intros Hp Hmiss. split; [|split; [|split]].
  - apply generate_url_properties. exact Hp.
  - intros H. unfold coordinate. rewrite H. reflexivity.
  - intros H. unfold coordinate. rewrite H. reflexivity.
  - intros g before after Hg Hall.
    assert (Hfs : forallb has_properties (before ++ JObj d :: after) = true).
    { rewrite forallb_app in *. apply andb_true_iff in Hall.
      destruct Hall as [Hb Ha]. rewrite Hb. cbn [forallb has_properties andb].
      rewrite Hp. exact Ha. }
    unfold targets, Py.get. rewrite Hg. cbn [rbind Py.iter].
    apply rmap_generate_url. exact Hfs.
Qed.

(** A feature without [lat], alone and as the first feature of a grid. *)
Lemma generate_url_missing_coordinate_witness :
  generate_url sample_settings sample_repr no_latitude =
    Ok "https://maps.example/3d?camera=None,106.7009,19.00,0.0,0.0,d" /\
  exists urls,
    targets sample_settings sample_repr sample_grid = Ok urls /\
    Forall2 (fun feature url =>
               generate_url sample_settings sample_repr feature = Ok url)
            [no_latitude; saigon] urls.
Proof.
  pose proof (@generate_url_missing_coordinate sample_settings sample_repr
                [("type", JStr "Feature");
                 ("properties", JObj [("lng", JFloat "106.7009")])]
                [("lng", JFloat "106.7009")]
                eq_refl (or_introl eq_refl)) as H.
  destruct H as [H1 [_ [_ H4]]]. split; [exact H1|].
  exact (H4 [("type", JStr "FeatureCollection");
             ("features", JArr [no_latitude; saigon])]
            [] [saigon] eq_refl eq_refl).
Defined.

(** C8 as stated fails: a feature without [lat] does not make
    [generate_url] raise, and the targets of the run are not the list with
    that feature left out. *)
Lemma generate_url_missing_coordinate_counterexample :
  ~ (exists e, generate_url sample_settings sample_repr no_latitude = Raise e) /\
  targets sample_settings sample_repr sample_grid <>
    Ok ["https://maps.example/3d?camera=10.7769,106.7009,19.00,0.0,0.0,d"].
Proof.
  split.
  - intros [e H]. vm_compute in H. discriminate H.
  - intros H. vm_compute in H. discriminate H.
Qed.

(** C9, as the code has it. With the base endpoint unset (the empty string)
    URL synthesis does not fail: for every feature carrying a [properties]
    dict it returns the non-empty string
    [?camera={lat},{lng},19.00,0.0,0.0,d]. *)
Theorem generate_url_unset_base
        (settings : Settings) (py_repr : json -> string)
        (d props : list (string * json)) :
  crawler_url settings = "" ->
  Py.assoc "properties" d = Some (JObj props) ->
  generate_url settings py_repr (JObj d) =
    Ok ("?camera=" ++ py_str py_repr (coordinate props "lat") ++ ","
          ++ py_str py_repr (coordinate props "lng") ++ ",19.00,0.0,0.0,d")%string /\
  generate_url settings py_repr (JObj d) <> Ok "".
Proof.
  intros Hb Hp. rewrite (generate_url_properties settings py_repr d Hp).
  unfold url_template. rewrite Hb. split; [reflexivity | discriminate].
Qed.

(** The default settings, where [crawler_url] is empty. *)
Lemma generate_url_unset_base_witness :
  generate_url default_settings sample_repr saigon =
    Ok "?camera=10.7769,106.7009,19.00,0.0,0.0,d" /\
  generate_url default_settings sample_repr saigon <> Ok "".
Proof.
  exact (@generate_url_unset_base default_settings sample_repr
           [("type", JStr "Feature");
            ("properties", JObj [("lat", JFloat "10.7769");
                                 ("lng", JFloat "106.7009")])]
           [("lat", JFloat "10.7769"); ("lng", JFloat "106.7009")]
           eq_refl eq_refl).
Defined.

(** C9 as stated fails: with the default (empty) endpoint the result for a
    well-formed feature is neither empty nor an exception. *)
Lemma generate_url_unset_base_counterexample :
  crawler_url default_settings = "" /\
  ~ (generate_url default_settings sample_repr saigon = Ok "" \/
     exists e, generate_url default_settings sample_repr saigon = Raise e).
Proof.
  split; [reflexivity|].
  intros [H | [e H]]; vm_compute in H; discriminate H.
Qed.

(** ** The request filter *)

(** C4, as the code has it. [is_abort_url] answers [True] exactly when the
    resource type is [image], [font] or [media], or the URL contains one of
    the listed extensions anywhere (not only at its end); a request of
    another type whose URL contains none of them is let through. *)
Theorem is_abort_url_iff (request : Request.t) :
  is_abort_url request = true <->
  (In (Request.resource_type request) resource_types \/
   exists ext a b,
     In ext extensions /\ Request.url request = (a ++ ext ++ b)%string).
Proof.
  unfold is_abort_url, extensions.
  rewrite !orb_true_iff, existsb_eqb_In, !existsb_contains.
  split.
  - intros [[[H | H] | H] | H]; [left; exact H | right ..];
      destruct H as [ext [a [b [Hin H]]]]; exists ext, a, b;
      (split; [|exact H]); rewrite !in_app_iff; tauto.
  - intros [H | [ext [a [b [Hin H]]]]]; [tauto|].
    rewrite !in_app_iff in Hin.
    destruct Hin as [Hin | [Hin | Hin]];
      [left; left; right | left; right | right]; exists ext, a, b; auto.
Qed.

(** C4 as stated fails: an XHR request for [a.png?v=1] is aborted although
    its URL does not end with any listed extension. *)
Lemma is_abort_url_counterexample :
  ~ (is_abort_url versioned_image = true <->
     should_abort_by_suffix versioned_image = true).
Proof.
  intros [H _].
  assert (E : is_abort_url versioned_image = true) by reflexivity.
  apply H in E. vm_compute in E. discriminate E.
Qed.

(** ** The response handler and the sink *)

(** C1, as the code has it. A response whose URL lacks [mode=3d] changes
    nothing.  For a matching response whose body gives
    [result.objects = [o1, ..., on]], where every element is a dict whose
    keys all belong to the 13-field header and the file takes the rows, the
    handler appends exactly one row per element, in array order: the
    element's values laid out in header order, with the empty string for a
    field the element lacks.  When [result] or [objects] is absent, or
    [objects] is empty, nothing is appended. *)
Theorem response_url_records
        (file_accepts : list row -> row -> bool)
        (response : Response.t) (w : World) :
  (PyStr.contains "mode=3d" (Response.url response) = false ->
   response_url file_accepts response w = (Ok tt, w)) /\
  (forall (body : json) (objs : list json),
     PyStr.contains "mode=3d" (Response.url response) = true ->
     Response.json response = Ok body ->
     result_objects body = Ok (JArr objs) ->
     forallb conforming objs = true ->
     accepts_all file_accepts (csv_rows w) (map row_of objs) = true ->
     response_url file_accepts response w =
       (Ok tt, with_log (with_rows w (map row_of objs))
                        (Crawled (Response.url response) (JArr objs)))) /\
  (forall d : list (string * json),
     PyStr.contains "mode=3d" (Response.url response) = true ->
     Response.json response = Ok (JObj d) ->
     (Py.assoc "result" d = None \/
      exists r, Py.assoc "result" d = Some (JObj r) /\
                (Py.assoc "objects" r = None \/
                 Py.assoc "objects" r = Some (JArr []))) ->
     csv_rows (snd (response_url file_accepts response w)) = csv_rows w).
Proof.
  split; [|split].
  - apply response_url_unmarked.
  - intros body objs. apply response_url_written.
  - intros d Hm Hj Habs. apply result_objects_absent in Habs.
    erewrite response_url_written; [|exact Hm|exact Hj|exact Habs|reflexivity|reflexivity].
    cbn [snd map with_log with_rows csv_rows]. apply app_nil_r.
Qed.

(** The body [{"result": {"objects": [{"id": "a"}, {"id": "b"}]}}]: two rows,
    [a] then [b], each with its [id] in the fifth column. *)
Lemma response_url_records_witness :
  response_url writable (data_response [building_a; building_b]) init_world =
  (Ok tt,
   with_log (with_rows init_world
               [ [JStr ""; JStr ""; JStr ""; JStr ""; JStr "a"; JStr ""; JStr "";
                  JStr ""; JStr ""; JStr ""; JStr ""; JStr ""; JStr ""];
                 [JStr ""; JStr ""; JStr ""; JStr ""; JStr "b"; JStr ""; JStr "";
                  JStr ""; JStr ""; JStr ""; JStr ""; JStr ""; JStr ""] ])
            (Crawled data_url (JArr [building_a; building_b]))).
Proof.
  exact (proj1 (proj2 (response_url_records writable
                         (data_response [building_a; building_b]) init_world))
               (JObj [("result", JObj [("objects", JArr [building_a; building_b])])])
               [building_a; building_b]
               eq_refl eq_refl eq_refl eq_refl eq_refl).
Defined.

(** C1 as stated fails: an element with a field outside the header is not
    passed through; the matching response with that single element leaves
    no row in the sink. *)
Lemma response_url_records_counterexample :
  ~ (exists rows,
       List.length rows = List.length [tagged_building] /\
       csv_rows (snd (response_url writable (data_response [tagged_building])
                                   init_world)) =
       csv_rows init_world ++ rows).
Proof.
  intros [rows [Hlen H]]. vm_compute in H.
  destruct rows as [|r [|r' rows]]; try discriminate Hlen; discriminate H.
Qed.






(** ** One page session *)

(** C6, as the code has it. Once the page is open, [process_page] closes it
    on every path through the guarded block: whatever installing the route,
    the navigation, the wait and the traffic they carry do, the failure is
    caught and the page is opened once and closed once; the session then
    returns normally.  A failure to open the page is raised to the caller
    (no page was opened), and so is a failure of [page.close()] itself,
    which is still attempted. *)
Theorem process_page_releases
        (file_accepts : list row -> row -> bool)
        (context : nat -> result Page.t)
        (n : nat) (url : string) (w : World) :
  (forall page : Page.t,
     context n = Ok page -> Page.close page = None ->
     exists w',
       process_page file_accepts context n url w = (Ok tt, w') /\
       trace w' = trace w ++ [EvOpen n; EvClose n]) /\
  (forall (page : Page.t) (e : exc),
     context n = Ok page -> Page.close page = Some e ->
     exists w',
       process_page file_accepts context n url w = (Raise e, w') /\
       trace w' = trace w ++ [EvOpen n; EvCloseFailed n]) /\
  (forall e : exc,
     context n = Raise e ->
     process_page file_accepts context n url w = (Raise e, w)).
Proof.
  split; [|split].
  - intros page. apply process_page_closes.
  - intros page e. apply process_page_close_fails.
  - intros e. apply process_page_not_opened.
Qed.

(** A page whose navigation times out is still closed. *)
Lemma process_page_releases_witness :
  exists w',
    process_page writable
      (fun _ => Ok {| Page.route := None;
                      Page.goto := fun _ => ([], Some TimeoutError);
                      Page.wait_for_load_state := ([], None);
                      Page.close := None |})
      3 "u3" init_world = (Ok tt, w') /\
    trace w' = trace init_world ++ [EvOpen 3; EvClose 3].
Proof.
  exact (proj1 (process_page_releases writable
                  (fun _ => Ok {| Page.route := None;
                                  Page.goto := fun _ => ([], Some TimeoutError);
                                  Page.wait_for_load_state := ([], None);
                                  Page.close := None |})
                  3 "u3" init_world)
               _ eq_refl eq_refl).
Defined.

(** C6 as stated fails: when the browser context cannot open a page, and
    when closing the page fails, [process_page] raises to its caller. *)
Lemma process_page_releases_counterexample :
  ~ (fst (process_page writable no_browser 0 "u0" init_world) = Ok tt) /\
  ~ (fst (process_page writable (fun _ => Ok stuck_page) 0 "u0" init_world) = Ok tt).
Proof.
  split; intros H; vm_compute in H; discriminate H.
Qed.

(** ** The scheduler *)

(** C2. For a positive [num_pages], [run] splits the targets into
    consecutive batches that together are the targets in order, none empty
    or longer than [num_pages], all but the last of exactly [num_pages].
    At every point of every interleaving of the gathered page sessions, no
    more than [num_pages] pages are open, and a page is opened only after
    every page of the earlier batches was opened and closed. *)
Theorem run_batches_bounded
        (file_accepts : list row -> row -> bool)
        (context : nat -> result Page.t)
        (urls : list string) (num_pages : Z) (w : World) :
  (0 < num_pages)%Z ->
  trace w = [] ->
  exists bs,
    start urls num_pages w = Ok {| pending := bs; running := []; world := w |} /\
    map snd (List.concat bs) = urls /\
    map fst (List.concat bs) = seq 0 (List.length urls) /\
    Forall (fun b => 0 < List.length b /\
                     (Z.of_nat (List.length b) <= num_pages)%Z) bs /\
    (forall bs1 b bs2,
       bs = bs1 ++ b :: bs2 -> bs2 <> [] -> Z.of_nat (List.length b) = num_pages) /\
    (forall c,
       crawl_steps file_accepts context
                   {| pending := bs; running := []; world := w |} c ->
       (forall p s, trace (world c) = p ++ s -> (open_pages p <= num_pages)%Z) /\
       (forall p j s i,
          trace (world c) = p ++ EvOpen j :: s ->
          i / Z.to_nat num_pages < j / Z.to_nat num_pages ->
          In (EvOpen i) p /\ In (EvClose i) p)).
Proof.
  intros Hk Ht.
  destruct (start_batches urls w Hk) as [bs [Hstart [Hc [Hs Hi]]]].
  assert (Kz : Z.of_nat (Z.to_nat num_pages) = num_pages) by lia.
  exists bs. split; [|split; [|split; [|split; [|split]]]].
  - exact Hstart.
  - exact Hs.
  - exact Hi.
  - apply chained_sizes in Hc. rewrite Forall_forall in *.
    intros b Hb. specialize (Hc b Hb). lia.
  - intros bs1 b bs2 E Hne. rewrite E in Hc.
    erewrite chained_full; [exact Kz | exact Hc | exact Hne].
  - intros c Hsteps.
    destruct (start_invariant urls Hk Ht Hstart Hsteps)
      as [d _ _ _ _ _ _ _ _ _ bound barrier].
    split.
    + intros p s E. rewrite <- Kz. exact (bound p s E).
    + exact barrier.
Qed.

(** Five targets, two pages at a time. *)
Lemma run_batches_bounded_witness :
  exists bs,
    start five_urls 2 init_world =
      Ok {| pending := bs; running := []; world := init_world |} /\
    map snd (List.concat bs) = five_urls /\
    map fst (List.concat bs) = seq 0 (List.length five_urls) /\
    Forall (fun b => 0 < List.length b /\ (Z.of_nat (List.length b) <= 2)%Z) bs /\
    (forall bs1 b bs2,
       bs = bs1 ++ b :: bs2 -> bs2 <> [] -> Z.of_nat (List.length b) = 2%Z) /\
    (forall c,
       crawl_steps writable calm_browser
                   {| pending := bs; running := []; world := init_world |} c ->
       (forall p s, trace (world c) = p ++ s -> (open_pages p <= 2)%Z) /\
       (forall p j s i,
          trace (world c) = p ++ EvOpen j :: s ->
          i / Z.to_nat 2 < j / Z.to_nat 2 ->
          In (EvOpen i) p /\ In (EvClose i) p)).
Proof.
  exact (@run_batches_bounded writable calm_browser five_urls 2 init_world
           eq_refl eq_refl).
Defined.

(** Five targets gathered two at a time: batches of sizes 2, 2 and 1. *)
Example batches_five_by_two (u0 u1 u2 u3 u4 : string) :
  batches [u0; u1; u2; u3; u4] 2 =
    Ok [[(0, u0); (1, u1)]; [(2, u2); (3, u3)]; [(4, u4)]].
Proof. reflexivity. Qed.

(** The bound is reached: two sessions of one batch hold their pages at the
    same time. *)
Example two_pages_open_at_once :
  exists c,
    crawl_steps writable calm_browser
      {| pending := [[(0, "u0"); (1, "u1")]; [(2, "u2"); (3, "u3")]; [(4, "u4")]];
         running := []; world := init_world |} c /\
    trace (world c) = [EvOpen 0; EvOpen 1] /\
    open_pages (trace (world c)) = 2%Z.
Proof.
  eexists. split; [|split].
  - eapply steps_snoc; [eapply steps_snoc; [eapply steps_snoc; [apply steps_refl|]|]|].
    + apply step_gather. reflexivity.
    + apply (@step_task writable calm_browser _ [] (TStart 0 "u0") [TStart 1 "u1"]).
      reflexivity.
    + apply (@step_task writable calm_browser _ [TRoute 0 "u0" calm_page]
                        (TStart 1 "u1") []).
      reflexivity.
  - reflexivity.
  - reflexivity.
Qed.

(** A coroutine stepped alone to its end does what [process_page] does. *)
Lemma run_task_is_process_page
      (file_accepts : list row -> row -> bool) (context : nat -> result Page.t)
      (n : nat) (url : string) (w : World) :
  exists fuel,
    run_task file_accepts context fuel (TStart n url) w =
    (finished n (fst (process_page file_accepts context n url w)),
     snd (process_page file_accepts context n url w)).
Proof. apply run_task_process_page. Qed.

(** * Further properties of the crawler *)

(** ** What holds along the handlers and along a run *)

Section Along.
Variable R : World -> World -> Prop.
Hypothesis R_refl : forall w, R w w.
Hypothesis R_trans : forall a b c, R a b -> R b c -> R a c.
Hypothesis R_crawled : forall w url data, R w (with_log w (Crawled url data)).
Hypothesis R_failed : forall w url e, R w (with_log w (FailedResponse url e)).
Hypothesis R_row : forall w v r,
  DictWriter.dict_to_list fieldnames v = Ok r -> R w (with_rows w [r]).
Variable file_accepts : list row -> row -> bool.

Lemma along_write_dict (v : json) : keeps R (write_dict file_accepts v).
Proof.
  intros w. unfold write_dict, bind, lift, writerow.
  destruct (DictWriter.dict_to_list fieldnames v) as [r|e] eqn:E; [|apply R_refl].
  destruct (file_accepts (csv_rows w) r); cbn [snd]; [|apply R_refl].
  exact (R_row w v E).
Qed.

Lemma along_writerows_loop (l : list json) :
  keeps R (writerows_loop file_accepts l).
Proof.
  induction l as [|x l IH]; cbn [writerows_loop].
  - apply keeps_ret. exact R_refl.
  - apply keeps_bind; [exact R_trans | apply along_write_dict | intros _; exact IH].
Qed.

Lemma along_response_url (response : Response.t) :
  keeps R (response_url file_accepts response).
Proof.
  unfold response_url.
  destruct (PyStr.contains "mode=3d" (Response.url response));
    [|apply keeps_ret; exact R_refl].
  apply keeps_try_except; [exact R_trans | | intros e w; apply R_failed].
  apply keeps_bind; [exact R_trans | apply keeps_lift; exact R_refl |]. intros body.
  apply keeps_bind; [exact R_trans | apply keeps_lift; exact R_refl |]. intros objects.
  apply keeps_bind; [exact R_trans | | intros _ w; apply R_crawled].
  destruct (Py.truthy objects); [|apply keeps_ret; exact R_refl].
  unfold writerows.
  apply keeps_bind; [exact R_trans | apply keeps_lift; exact R_refl |].
  intros items. apply along_writerows_loop.
Qed.

Lemma along_deliver (ex : Exchange) : keeps R (deliver file_accepts ex).
Proof.
  unfold deliver. destruct (abort_url (ex_request ex)).
  - apply keeps_ret. exact R_refl.
  - apply keeps_detached. apply along_response_url.
Qed.

Lemma along_traffic (l : list Exchange) :
  keeps R (for_each (deliver file_accepts) l).
Proof. apply keeps_for_each; [exact R_refl | exact R_trans | apply along_deliver]. Qed.

Hypothesis R_crawl_failed : forall w url e, R w (with_log w (FailedCrawl url e)).
Hypothesis R_event : forall w ev, R w (with_event w ev).
Variable context : nat -> result Page.t.


End Along.

(** ** The request filter and the traffic it lets through *)

(** X1. A request whose resource type is [image], [font] or [media], or
    whose URL ends with one of the listed extensions, is aborted. *)
Theorem is_abort_url_suffix (request : Request.t) :
  should_abort_by_suffix request = true -> is_abort_url request = true.
Proof.
  unfold should_abort_by_suffix, is_abort_url, extensions.
  rewrite !orb_true_iff, !existsb_app, !orb_true_iff.
  intros [H | [H | [H | H]]].
  - auto.
  - left; left; right. apply existsb_exists in H. destruct H as [ext [Hin H]].
    apply existsb_exists. exists ext. split; [exact Hin|].
    apply PyStrFacts.endswith_contains. exact H.
  - left; right. apply existsb_exists in H. destruct H as [ext [Hin H]].
    apply existsb_exists. exists ext. split; [exact Hin|].
    apply PyStrFacts.endswith_contains. exact H.
  - right. apply existsb_exists in H. destruct H as [ext [Hin H]].
    apply existsb_exists. exists ext. split; [exact Hin|].
    apply PyStrFacts.endswith_contains. exact H.
Qed.

(** An XHR request for [roof.jpeg]. *)
Lemma is_abort_url_suffix_witness : is_abort_url jpeg_request = true.
Proof. exact (@is_abort_url_suffix jpeg_request eq_refl). Defined.

(** X2. A request whose URL contains a listed extension never reaches the
    response handler: the route handler aborts it and the world is left as
    it was, whatever the response would have carried. *)
Theorem blocked_request_yields_nothing
        (file_accepts : list row -> row -> bool) (ex : Exchange) (w : World)
        (ext : string) :
  In ext extensions ->
  PyStr.contains ext (Request.url (ex_request ex)) = true ->
  deliver file_accepts ex w = (Ok tt, w).
Proof.
  intros Hin Hc. unfold deliver, abort_url.
  assert (A : is_abort_url (ex_request ex) = true).
  { unfold is_abort_url. unfold extensions in Hin. rewrite !in_app_iff in Hin.
    rewrite !orb_true_iff.
    destruct Hin as [Hin | [Hin | Hin]];
      [left; left; right | left; right | right];
      apply existsb_exists; exists ext; auto. }
  rewrite A. reflexivity.
Qed.

(** A data response served at [objects.svg?mode=3d]: the handler alone would
    write its record, the page never sees it. *)
Lemma blocked_request_yields_nothing_witness :
  deliver writable svg_data_exchange init_world = (Ok tt, init_world) /\
  csv_rows (snd (response_url writable (ex_response svg_data_exchange) init_world))
    = csv_rows init_world ++ [row_of building_a].
Proof.
  split.
  - exact (@blocked_request_yields_nothing writable svg_data_exchange init_world
             ".svg" (or_intror (or_intror (or_intror (or_intror (or_intror
                       (or_introl eq_refl)))))) eq_refl).
  - reflexivity.
Defined.

(** ** The log and the rows of the response handler *)

(** X3. The handler logs each matching response exactly once: one entry is
    appended, either the success with the objects found or the failure with
    its exception, and it carries the URL of the response. *)
Theorem response_url_logs_once
        (file_accepts : list row -> row -> bool)
        (response : Response.t) (w : World) :
  PyStr.contains "mode=3d" (Response.url response) = true ->
  exists entry,
    log (snd (response_url file_accepts response w)) = log w ++ [entry] /\
    ((exists data, entry = Crawled (Response.url response) data) \/
     (exists e, entry = FailedResponse (Response.url response) e)).
Proof.
  intros Hm.
  destruct (Response.json response) as [body|e] eqn:Hj.
  - destruct (result_objects body) as [objects|e] eqn:Ho.
    + rewrite (response_url_objects file_accepts response w Hm Hj Ho).
      assert (K : keeps (fun a b => log b = log a)
                        (if Py.truthy objects
                         then writerows file_accepts objects else ret tt)).
      { destruct (Py.truthy objects); [|intros w0; reflexivity].
        unfold writerows. apply keeps_bind.
        - intros a b c H1 H2. rewrite H2. exact H1.
        - intros w0. reflexivity.
        - intros items. apply keeps_writerows_loop.
          + reflexivity.
          + intros a b c H1 H2. rewrite H2. exact H1.
          + reflexivity. }
      specialize (K w).
      destruct ((if Py.truthy objects
                 then writerows file_accepts objects else ret tt) w)
        as [[u|e] w1]; cbn [snd] in *.
      * exists (Crawled (Response.url response) objects).
        cbn [with_log log]. rewrite K. eauto.
      * exists (FailedResponse (Response.url response) e).
        cbn [with_log log]. rewrite K. eauto.
    + erewrite response_url_no_objects; [|exact Hm|right; eauto].
      exists (FailedResponse (Response.url response) e). eauto.
  - erewrite response_url_no_objects; [|exact Hm|left; exact Hj].
    exists (FailedResponse (Response.url response) e). eauto.
Qed.

(** A response with a refused object: one entry, the failure. *)
Lemma response_url_logs_once_witness :
  exists entry,
    log (snd (response_url writable (data_response [building_a; tagged_building])
                           init_world)) = log init_world ++ [entry] /\
    ((exists data, entry = Crawled data_url data) \/
     (exists e, entry = FailedResponse data_url e)).
Proof.
  exact (@response_url_logs_once writable
           (data_response [building_a; tagged_building]) init_world eq_refl).
Defined.

Lemma accepts_all_app (file_accepts : list row -> row -> bool)
      (content rows1 rows2 : list row) :
  accepts_all file_accepts content (rows1 ++ rows2) =
  accepts_all file_accepts content rows1 &&
  accepts_all file_accepts (content ++ rows1) rows2.
Proof.
  revert content; induction rows1 as [|r rows1 IH]; intros content.
  - cbn [app accepts_all andb]. rewrite app_nil_r. reflexivity.
  - cbn [app accepts_all]. rewrite IH, <- app_assoc, andb_assoc. reflexivity.
Qed.

(** X4. Responses handled one after the other append their rows in that
    order, and nothing is de-duplicated: the rows of the second response
    follow those of the first even when they repeat them. *)
Theorem response_url_appends_in_turn
        (file_accepts : list row -> row -> bool)
        (first second : Response.t) (body1 body2 : json)
        (objs1 objs2 : list json) (w : World) :
  PyStr.contains "mode=3d" (Response.url first) = true ->
  Response.json first = Ok body1 ->
  result_objects body1 = Ok (JArr objs1) ->
  forallb conforming objs1 = true ->
  PyStr.contains "mode=3d" (Response.url second) = true ->
  Response.json second = Ok body2 ->
  result_objects body2 = Ok (JArr objs2) ->
  forallb conforming objs2 = true ->
  accepts_all file_accepts (csv_rows w) (map row_of objs1 ++ map row_of objs2) = true ->
  csv_rows (snd (response_url file_accepts second
                   (snd (response_url file_accepts first w)))) =
  csv_rows w ++ map row_of objs1 ++ map row_of objs2.
Proof.
  intros Hm1 Hj1 Ho1 Hc1 Hm2 Hj2 Ho2 Hc2 Ha.
  rewrite accepts_all_app in Ha. apply andb_true_iff in Ha. destruct Ha as [Ha1 Ha2].
  rewrite (response_url_written file_accepts first w Hm1 Hj1 Ho1 Hc1 Ha1).
  cbn [snd].
  erewrite response_url_written; [|exact Hm2|exact Hj2|exact Ho2|exact Hc2|exact Ha2].
  cbn [snd with_log with_rows csv_rows]. rewrite app_assoc. reflexivity.
Qed.

(** The same response handled twice leaves its record twice. *)
Lemma response_url_appends_in_turn_witness :
  csv_rows (snd (response_url writable (data_response [building_a])
                   (snd (response_url writable (data_response [building_a])
                                      init_world)))) =
  csv_rows init_world ++ [row_of building_a] ++ [row_of building_a].
Proof.
  exact (@response_url_appends_in_turn writable
           (data_response [building_a]) (data_response [building_a])
           (JObj [("result", JObj [("objects", JArr [building_a])])])
           (JObj [("result", JObj [("objects", JArr [building_a])])])
           [building_a] [building_a] init_world
           eq_refl eq_refl eq_refl eq_refl eq_refl eq_refl eq_refl eq_refl eq_refl).
Defined.

(** ** One page session: what it logs and what it writes *)

Lemma traffic_returns (file_accepts : list row -> row -> bool)
      (l : list Exchange) (w : World) :
  for_each (deliver file_accepts) l w =
  (Ok tt, snd (for_each (deliver file_accepts) l w)).
Proof.
  revert w; induction l as [|ex l IH]; intros w; [reflexivity|].
  cbn [for_each]. unfold bind.
  pose proof (deliver_returns file_accepts ex w) as D.
  destruct (deliver file_accepts ex w) as [r w1]. cbn [fst] in D. subst r.
  apply IH.
Qed.

Lemma traffic_app (file_accepts : list row -> row -> bool)
      (l1 l2 : list Exchange) (w : World) :
  snd (for_each (deliver file_accepts) (l1 ++ l2) w) =
  snd (for_each (deliver file_accepts) l2
         (snd (for_each (deliver file_accepts) l1 w))).
Proof.
  revert w; induction l1 as [|ex l1 IH]; intros w; [reflexivity|].
  cbn [app for_each]. unfold bind.
  pose proof (deliver_returns file_accepts ex w) as D.
  destruct (deliver file_accepts ex w) as [r w1]. cbn [fst] in D. subst r.
  apply IH.
Qed.

(** The world at the [finally] of a session that opened [page]: the traffic
    before the first failure was handled, then the failure was logged. *)
Lemma guarded_world (file_accepts : list row -> row -> bool)
      (page : Page.t) (url : string) (w : World) :
  guarded file_accepts page url w =
  (Ok tt,
   let w' := snd (for_each (deliver file_accepts) (handled page url) w) in
   match first_failure page url with
   | Some e => with_log w' (FailedCrawl url e)
   | None => w'
   end).
Proof.
  unfold guarded, handled, first_failure, try_except, suspended.
  destruct (Page.route page) as [e|]; [reflexivity|].
  unfold bind at 1. cbn [outcome ret].
  destruct (Page.goto page url) as [tr1 o1]. cbn [fst snd].
  unfold bind at 1. unfold bind at 1. rewrite traffic_returns.
  destruct o1 as [e|]; cbn [outcome raise ret].
  - rewrite app_nil_r. reflexivity.
  - destruct (Page.wait_for_load_state page) as [tr2 o2]. cbn [fst snd].
    unfold bind. rewrite traffic_returns, traffic_app.
    destruct o2 as [e|]; reflexivity.
Qed.

Lemma close_page_keeps (n : nat) (page : Page.t) (w : World) :
  log (snd (close_page n page w)) = log w /\
  csv_rows (snd (close_page n page w)) = csv_rows w.
Proof. unfold close_page. destruct (Page.close page); split; reflexivity. Qed.

Lemma process_page_world (file_accepts : list row -> row -> bool)
      (context : nat -> result Page.t) (n : nat) (url : string)
      (page : Page.t) (w : World) :
  context n = Ok page ->
  snd (process_page file_accepts context n url w) =
  snd (close_page n page (snd (guarded file_accepts page url (with_event w (EvOpen n))))).
Proof.
  intros H. rewrite (@process_page_opened file_accepts context n url page w H).
  unfold try_finally.
  destruct (guarded file_accepts page url (with_event w (EvOpen n))) as [r w1].
  cbn [snd]. destruct (close_page n page w1) as [[u|e] w2]; reflexivity.
Qed.

Lemma handlers_logged_traffic (file_accepts : list row -> row -> bool)
      (l : list Exchange) (w : World) :
  handlers_logged w (snd (for_each (deliver file_accepts) l w)).
Proof.
  apply along_traffic.
  - intros w0. exists []. split; [symmetry; apply app_nil_r | reflexivity].
  - intros a b c [e1 [E1 F1]] [e2 [E2 F2]]. exists (e1 ++ e2). split.
    + rewrite E2, E1, app_assoc. reflexivity.
    + rewrite forallb_app, F1, F2. reflexivity.
  - intros w0 u data. exists [Crawled u data]. split; reflexivity.
  - intros w0 u e. exists [FailedResponse u e]. split; reflexivity.
  - intros w0 v r _. exists []. split; [symmetry; apply app_nil_r | reflexivity].
Qed.

(** X5. A session that opened its page logs its own failure exactly when
    installing the route, navigating or waiting raises: one entry, with the
    URL and the exception of the first call that failed, written after the
    entries of the responses handled until then.  Nothing is tried again,
    and a session without such a failure logs no failure of its own. *)
Theorem process_page_logs_failure
        (file_accepts : list row -> row -> bool)
        (context : nat -> result Page.t)
        (n : nat) (url : string) (page : Page.t) (w : World) :
  context n = Ok page ->
  exists entries,
    forallb handler_entry entries = true /\
    log (snd (process_page file_accepts context n url w)) =
      log w ++ entries ++
      match first_failure page url with
      | Some e => [FailedCrawl url e]
      | None => []
      end.
Proof.
  intros H. rewrite (@process_page_world file_accepts context n url page w H).
  rewrite (proj1 (close_page_keeps n page _)), guarded_world. cbn [snd].
  destruct (handlers_logged_traffic file_accepts (handled page url)
              (with_event w (EvOpen n))) as [entries [E F]].
  exists entries. split; [exact F|].
  destruct (first_failure page url) as [e|].
  - cbn [with_log log]. rewrite E. cbn [with_event log].
    rewrite <- app_assoc. reflexivity.
  - rewrite E. cbn [with_event log]. rewrite app_nil_r. reflexivity.
Qed.

(** A page that times out while waiting: the two responses seen until then
    are logged by the handler, then the time-out by the session. *)
Lemma process_page_logs_failure_witness :
  exists entries,
    forallb handler_entry entries = true /\
    log (snd (process_page writable (fun _ => Ok slow_page) 0 "u0" init_world)) =
      log init_world ++ entries ++ [FailedCrawl "u0" TimeoutError].
Proof.
  exact (@process_page_logs_failure writable (fun _ => Ok slow_page) 0 "u0"
           slow_page init_world eq_refl).
Defined.

(** ** Whole runs *)

Lemma steps_cons (file_accepts : list row -> row -> bool)
      (context : nat -> result Page.t) (c c' c'' : Config) :
  crawl_step file_accepts context c c' ->
  crawl_steps file_accepts context c' c'' ->
  crawl_steps file_accepts context c c''.
Proof.
  intros H1 H2. induction H2 as [c' | c' c'' c''' _ IH Hs].
  - eapply steps_snoc; [apply steps_refl | exact H1].
  - eapply steps_snoc; [exact (IH H1) | exact Hs].
Qed.

(** One step of the first coroutine, or of the second, or the next batch. *)
Ltac crawl_one :=
  first
    [ eapply steps_cons;
      [ apply step_gather; reflexivity | ]
    | eapply steps_cons;
      [ match goal with
        | |- crawl_step ?fa ?ctx {| pending := ?p; running := ?t :: ?l; world := ?w |} _ =>
            apply (@step_task fa ctx p [] t l w); vm_compute; reflexivity
        end | ]
    | eapply steps_cons;
      [ match goal with
        | |- crawl_step ?fa ?ctx
               {| pending := ?p; running := ?t0 :: ?t :: ?l; world := ?w |} _ =>
            apply (@step_task fa ctx p [t0] t l w); vm_compute; reflexivity
        end | ] ];
  cbn [app spawn map fst snd].


Lemma crashed_run :
  crawl_steps writable calm_browser crashed_start crashed_later.
Proof. unfold crashed_start. crawl_one. apply steps_refl. Qed.




(** X8. When a session raises (the page could not be opened, or closing it
    failed), the loop never starts another batch: the sessions already
    gathered may go on, the targets still pending are never visited. *)
Theorem raised_session_stops_run
        (file_accepts : list row -> row -> bool)
        (context : nat -> result Page.t) (c c' : Config) :
  crawl_steps file_accepts context c c' ->
  existsb raised (running c) = true ->
  pending c' = pending c /\ existsb raised (running c') = true.
Proof.
  intros H Hr. induction H as [c | c c' c'' _ IH Hs]; [auto|].
  specialize (IH Hr). destruct IH as [Hp Hr']. clear Hr.
  destruct Hs as [pend before t after w t' w' Hs | batch pend tasks w Hret];
    cbn [pending running] in *.
  - split; [exact Hp|].
    rewrite existsb_app in *. cbn [existsb] in *.
    destruct (existsb raised before); [reflexivity|].
    destruct (existsb raised after); [apply orb_true_r|].
    rewrite orb_false_r in Hr'. cbn [orb] in Hr'.
    destruct t; try discriminate Hr'. discriminate Hs.
  - exfalso. apply existsb_exists in Hr'. destruct Hr' as [t [Hin Ht]].
    rewrite forallb_forall in Hret. specialize (Hret t Hin).
    destruct t; discriminate.
Qed.

(** The first page of the batch could not be opened; the second session
    goes on, the third target stays pending. *)
Lemma raised_session_stops_run_witness :
  pending crashed_later = pending crashed_start /\
  existsb raised (running crashed_later) = true.
Proof. exact (raised_session_stops_run crashed_run eq_refl). Defined.

(** ** Targets that cannot be synthesized, batches that cannot be formed *)

Lemma generate_url_no_properties (settings : Settings) (py_repr : json -> string)
      (feature : json) :
  has_properties feature = false ->
  generate_url settings py_repr feature = Raise AttributeError.
Proof.
  intros H. unfold generate_url, Py.get.
  destruct feature as [| | | | | |d]; try reflexivity.
  cbn [has_properties] in H. cbn [rbind].
  destruct (Py.assoc "properties" d) as [[| | | | | |props]|]; try reflexivity.
  discriminate H.
Qed.

Lemma generate_url_raises (settings : Settings) (py_repr : json -> string)
      (feature : json) (e : exc) :
  generate_url settings py_repr feature = Raise e -> e = AttributeError.
Proof.
  destruct (has_properties feature) eqn:H.
  - destruct feature as [| | | | | |d]; try discriminate H.
    cbn [has_properties] in H.
    destruct (Py.assoc "properties" d) as [[| | | | | |props]|] eqn:P;
      try discriminate H.
    rewrite (generate_url_properties settings py_repr d P). discriminate.
  - rewrite (generate_url_no_properties settings py_repr feature H).
    intros E. inversion E. reflexivity.
Qed.

Lemma rmap_generate_url_raises (settings : Settings) (py_repr : json -> string)
      (features : list json) :
  existsb (fun f => negb (has_properties f)) features = true ->
  rmap (generate_url settings py_repr) features = Raise AttributeError.
Proof.
  induction features as [|f fs IH]; [discriminate|].
  cbn [existsb rmap]. intros H.
  destruct (generate_url settings py_repr f) as [u|e] eqn:G; cbn [rbind].
  - destruct (has_properties f) eqn:P.
    + cbn [negb orb] in H. rewrite (IH H). reflexivity.
    + rewrite (generate_url_no_properties settings py_repr f P) in G. discriminate G.
  - apply generate_url_raises in G. subst e. reflexivity.
Qed.

(** X9. One feature that is not a mapping with a [properties] mapping makes
    the whole list of targets fail with [AttributeError], whatever the other
    features are: [run] raises before any page is opened.  A grid without
    [features] fails with [TypeError] in the same place. *)
Theorem targets_malformed
        (settings : Settings) (py_repr : json -> string)
        (g : list (string * json)) :
  (forall features,
     Py.assoc "features" g = Some (JArr features) ->
     existsb (fun f => negb (has_properties f)) features = true ->
     targets settings py_repr (JObj g) = Raise AttributeError /\
     forall file_accepts context num_pages w c,
       ~ run settings py_repr file_accepts context (JObj g) num_pages w c) /\
  (Py.assoc "features" g = None ->
   targets settings py_repr (JObj g) = Raise TypeError).
Proof.
  split.
  - intros features Hg Hbad.
    assert (T : targets settings py_repr (JObj g) = Raise AttributeError).
    { unfold targets, Py.get. rewrite Hg. cbn [rbind Py.iter].
      apply rmap_generate_url_raises. exact Hbad. }
    split; [exact T|].
    intros file_accepts context num_pages w c [urls [c0 [Hu _]]].
    rewrite T in Hu. discriminate Hu.
  - intros Hg. unfold targets, Py.get. rewrite Hg. reflexivity.
Qed.

(** A grid whose second feature has no [properties]. *)
Lemma targets_malformed_witness :
  targets sample_settings sample_repr broken_grid = Raise AttributeError /\
  forall file_accepts context num_pages w c,
    ~ run sample_settings sample_repr file_accepts context broken_grid num_pages w c.
Proof.
  exact (proj1 (@targets_malformed sample_settings sample_repr
                  [("type", JStr "FeatureCollection");
                   ("features", JArr [saigon; JObj [("type", JStr "Feature")]])])
               [saigon; JObj [("type", JStr "Feature")]] eq_refl eq_refl).
Defined.

Lemma idle_run_stays (file_accepts : list row -> row -> bool)
      (context : nat -> result Page.t) (w : World) (c : Config) :
  crawl_steps file_accepts context {| pending := []; running := []; world := w |} c ->
  c = {| pending := []; running := []; world := w |}.
Proof.
  intros H. remember {| pending := []; running := []; world := w |} as c0 eqn:E.
  induction H as [c | c c' c'' _ IH Hs]; [reflexivity|].
  specialize (IH E). subst c'. subst c.
  inversion Hs as [pend before t after w0 t' w' Hstep Hc Hc' | ].
  destruct before; discriminate.
Qed.

(** X10. [num_pages = 0] makes the loop of [run] fail with [ValueError]
    before any page is opened.  A negative [num_pages], like an empty list
    of targets, forms no batch at all: the run opens no page and changes
    nothing, although it ends normally. *)
Theorem run_without_batches
        (file_accepts : list row -> row -> bool)
        (context : nat -> result Page.t)
        (urls : list string) (num_pages : Z) (w : World) :
  (num_pages = 0%Z -> start urls num_pages w = Raise ValueError) /\
  ((num_pages < 0)%Z \/ (urls = [] /\ num_pages <> 0%Z) ->
   start urls num_pages w = Ok {| pending := []; running := []; world := w |} /\
   forall c,
     crawl_steps file_accepts context
                 {| pending := []; running := []; world := w |} c ->
     world c = w).
Proof.
  split.
  - intros ->. reflexivity.
  - intros H.
    assert (S : start urls num_pages w =
                Ok {| pending := []; running := []; world := w |}).
    { unfold start, batches, range_step. destruct H as [H | [-> H]].
      - replace (num_pages =? 0)%Z with false by (symmetry; apply Z.eqb_neq; lia).
        replace (num_pages <? 0)%Z with true by (symmetry; apply Z.ltb_lt; lia).
        reflexivity.
      - replace (num_pages =? 0)%Z with false by (symmetry; apply Z.eqb_neq; lia).
        destruct (num_pages <? 0)%Z; reflexivity. }
    split; [exact S|].
    intros c Hc. apply idle_run_stays in Hc. subst c. reflexivity.
Qed.

(** Five targets and [num_pages = -1]: no batch, nothing visited. *)
Lemma run_without_batches_witness :
  start five_urls (-1) init_world =
    Ok {| pending := []; running := []; world := init_world |} /\
  forall c,
    crawl_steps writable calm_browser
                {| pending := []; running := []; world := init_world |} c ->
    world c = init_world.
Proof.
  exact (proj2 (run_without_batches writable calm_browser five_urls (-1) init_world)
               (or_introl eq_refl)).
Defined.

(** ** Runs end *)

Lemma task_step_decreases (file_accepts : list row -> row -> bool)
      (context : nat -> result Page.t) (t t' : task) (w w' : World) :
  task_step file_accepts context t w = Some (t', w') ->
  steps_left context t' < steps_left context t.
Proof.
  destruct t as [n url|n url page|n url page tr|n url page tr|n page|n|n e];
    cbn [task_step]; intros H; try discriminate H.
  - unfold new_page, bind, lift in H. cbn [steps_left].
    destruct (context n) as [page|e]; inversion H; subst; cbn [steps_left]; lia.
  - destruct (Page.route page); inversion H; subst; cbn [steps_left]; lia.
  - destruct tr as [|ex tr].
    + destruct (snd (Page.goto page url)); inversion H; subst;
        cbn [steps_left List.length]; lia.
    + inversion H; subst. cbn [steps_left List.length]. lia.
  - destruct tr as [|ex tr].
    + destruct (snd (Page.wait_for_load_state page)); inversion H; subst;
        cbn [steps_left List.length]; lia.
    + inversion H; subst. cbn [steps_left List.length]. lia.
  - unfold close_page in H.
    destruct (Page.close page); inversion H; subst; cbn [steps_left]; lia.
Qed.

Lemma list_sum_cons (a : nat) (l : list nat) :
  list_sum (a :: l) = a + list_sum l.
Proof. reflexivity. Qed.

Lemma steps_left_returned (context : nat -> result Page.t) (l : list task) :
  forallb returned l = true -> list_sum (map (steps_left context) l) = 0.
Proof.
  induction l as [|t l IH]; [reflexivity|].
  cbn [forallb map]. intros H. apply andb_true_iff in H.
  destruct H as [Ht Hl]. rewrite list_sum_cons, (IH Hl).
  destruct t; try discriminate Ht. reflexivity.
Qed.

Lemma crawl_step_decreases (file_accepts : list row -> row -> bool)
      (context : nat -> result Page.t) (c c' : Config) :
  crawl_step file_accepts context c c' ->
  run_steps_left context c' < run_steps_left context c.
Proof.
  intros H. destruct H as [pend before t after w t' w' Hs | batch pend tasks w Hr];
    unfold run_steps_left; cbn [pending running].
  - apply task_step_decreases in Hs.
    rewrite !map_app, !list_sum_app. cbn [map]. rewrite !list_sum_cons. lia.
  - rewrite (steps_left_returned context tasks Hr). cbn [map].
    rewrite list_sum_cons. lia.
Qed.

(** X11. A run cannot go on for ever: every step of a gathered session and
    every start of a batch lowers a bound computed from the batches still
    to come and the traffic still to arrive, so every interleaving ends
    after at most that many steps. *)
Theorem run_terminates
        (file_accepts : list row -> row -> bool)
        (context : nat -> result Page.t) :
  (forall c c',
     crawl_step file_accepts context c c' ->
     run_steps_left context c' < run_steps_left context c) /\
  well_founded (fun c' c => crawl_step file_accepts context c c').
Proof.
  split.
  - intros c c'. apply crawl_step_decreases.
  - apply (well_founded_lt_compat Config (run_steps_left context)).
    intros c' c. apply crawl_step_decreases.
Qed.

(** ** Runs end well when the browser behaves *)

Section Completion.
Variable file_accepts : list row -> row -> bool.
Variable context : nat -> result Page.t.
Hypothesis context_healthy : healthy context.

Lemma sound_step (t t' : task) (w w' : World) :
  task_step file_accepts context t w = Some (t', w') ->
  sound t = true -> sound t' = true.
Proof.
  destruct t as [n url|n url page|n url page tr|n url page tr|n page|n|n e];
    cbn [task_step sound]; intros H S; try discriminate H.
  - unfold new_page, bind, lift in H.
    destruct (context_healthy n) as [page [C Hc]]. rewrite C in H.
    inversion H; subst. cbn [sound]. rewrite Hc. reflexivity.
  - destruct (Page.route page); inversion H; subst; exact S.
  - destruct tr as [|ex tr].
    + destruct (snd (Page.goto page url)); inversion H; subst; exact S.
    + inversion H; subst. exact S.
  - destruct tr as [|ex tr].
    + destruct (snd (Page.wait_for_load_state page)); inversion H; subst; exact S.
    + inversion H; subst. exact S.
  - unfold close_page in H. destruct (Page.close page); [discriminate S|].
    inversion H; subst. reflexivity.
Qed.

Lemma sound_crawl_step (c c' : Config) :
  crawl_step file_accepts context c c' ->
  forallb sound (running c) = true -> forallb sound (running c') = true.
Proof.
  intros H. destruct H as [pend before t after w t' w' Hs | batch pend tasks w Hr];
    cbn [running].
  - rewrite !forallb_app. cbn [forallb]. intros S.
    apply andb_true_iff in S. destruct S as [Sb S].
    apply andb_true_iff in S. destruct S as [St Sa].
    rewrite Sb, Sa, (sound_step _ _ Hs St). reflexivity.
  - intros _. unfold spawn. rewrite forallb_forall. intros t Ht.
    apply in_map_iff in Ht. destruct Ht as [x [<- _]]. reflexivity.
Qed.

Lemma sound_crawl_steps (c c' : Config) :
  crawl_steps file_accepts context c c' ->
  forallb sound (running c) = true -> forallb sound (running c') = true.
Proof.
  intros H S. induction H as [c | c c' c'' _ IH Hs]; [exact S|].
  exact (sound_crawl_step Hs (IH S)).
Qed.

Lemma first_unreturned (l : list task) :
  forallb returned l = true \/
  exists before t after, l = before ++ t :: after /\ returned t = false.
Proof.
  induction l as [|t l IH]; [left; reflexivity|].
  destruct (returned t) eqn:Rt.
  - destruct IH as [IH | [before [t0 [after [E R0]]]]].
    + left. cbn [forallb]. rewrite Rt, IH. reflexivity.
    + right. exists (t :: before), t0, after. rewrite E. auto.
  - right. exists [], t, l. auto.
Qed.

Lemma sound_steps (t : task) (w : World) :
  sound t = true -> returned t = false ->
  exists t' w', task_step file_accepts context t w = Some (t', w').
Proof.
  intros S R.
  assert (E : exists p, task_step file_accepts context t w = Some p).
  { destruct t as [n url|n url page|n url page tr|n url page tr|n page|n|n e];
      cbn [sound returned task_step] in *;
      try discriminate; try (eexists; reflexivity);
      destruct tr; eexists; reflexivity. }
  destruct E as [[t' w'] E]. exists t', w'. exact E.
Qed.

(** A run whose sessions are all sound has ended or can take a step. *)
Lemma sound_progress (c : Config) :
  forallb sound (running c) = true ->
  completed c \/ exists c', crawl_step file_accepts context c c'.
Proof.
  intros S. destruct c as [pend tasks w]. cbn [running] in S.
  destruct (first_unreturned tasks) as [R | [before [t [after [E R]]]]].
  - destruct pend as [|batch pend].
    + left. split; [reflexivity | exact R].
    + right. eexists. apply step_gather. exact R.
  - right. subst tasks. rewrite forallb_app in S. cbn [forallb] in S.
    apply andb_true_iff in S. destruct S as [_ S].
    apply andb_true_iff in S. destruct S as [St _].
    destruct (sound_steps t w St R) as [t' [w' Hs]].
    eexists. apply step_task. exact Hs.
Qed.

(** From a sound point, a run can always be brought to its end. *)
Lemma sound_completes (c : Config) :
  forallb sound (running c) = true ->
  exists c', crawl_steps file_accepts context c c' /\ completed c'.
Proof.
  induction c as [c IH]
    using (well_founded_induction
             (well_founded_lt_compat Config (run_steps_left context)
                (fun c' c => crawl_step file_accepts context c c')
                (fun c' c H => crawl_step_decreases H))).
  intros S. destruct (sound_progress c S) as [F | [c1 Hs]].
  - exists c. split; [apply steps_refl | exact F].
  - destruct (IH c1 Hs (sound_crawl_step Hs S)) as [c' [Hsteps F]].
    exists c'. split; [exact (steps_cons Hs Hsteps) | exact F].
Qed.
End Completion.

Lemma steps_trans (file_accepts : list row -> row -> bool)
      (context : nat -> result Page.t) (c c' c'' : Config) :
  crawl_steps file_accepts context c c' ->
  crawl_steps file_accepts context c' c'' ->
  crawl_steps file_accepts context c c''.
Proof.
  intros H1 H2. induction H2 as [c' | c' c'' c''' _ IH Hs]; [exact H1|].
  eapply steps_snoc; [exact (IH H1) | exact Hs].
Qed.

Lemma accounted_step (file_accepts : list row -> row -> bool)
      (context : nat -> result Page.t) (k n : nat) (c c' : Config) :
  crawl_step file_accepts context c c' ->
  invariant k c -> accounted n c -> accounted n c'.
Proof.
  intros H Inv A i Hi. specialize (A i Hi).
  destruct H as [pend before t after w t' w' Hs | batch pend tasks w Hr];
    cbn [pending running world] in *.
  - apply task_step_effect in Hs. destruct Hs as [evs [Ht He]].
    destruct A as [[Ho Hc] | [A | A]].
    + left. rewrite Ht. split; apply in_or_app; auto.
    + right. left. rewrite map_app in *. cbn [map] in *.
      rewrite (effect_id He). exact A.
    + right. right. exact A.
  - destruct A as [A | [A | A]].
    + left. exact A.
    + left. apply in_map_iff in A. destruct A as [t [<- Ht]].
      destruct Inv as [d _ _ _ _ _ _ opened closed _ _ _].
      cbn [running world] in *.
      assert (R : returned t = true).
      { rewrite forallb_forall in Hr. exact (Hr t Ht). }
      split; [apply opened | apply closed]; try assumption.
      unfold page_opened. rewrite R. apply orb_true_r.
    + right. cbn [List.concat] in A. rewrite map_app in A.
      apply in_app_or in A. destruct A as [A | A].
      * left. unfold spawn. rewrite map_map. cbn [task_id]. exact A.
      * right. exact A.
Qed.

Lemma start_accounted (file_accepts : list row -> row -> bool)
      (context : nat -> result Page.t)
      (urls : list string) (num_pages : Z) (w : World)
      (bs : list (list (nat * string))) (c : Config) :
  (0 < num_pages)%Z ->
  trace w = [] ->
  start urls num_pages w = Ok {| pending := bs; running := []; world := w |} ->
  crawl_steps file_accepts context {| pending := bs; running := []; world := w |} c ->
  accounted (List.length urls) c.
Proof.
  intros Hk Ht Hstart Hsteps.
  remember {| pending := bs; running := []; world := w |} as c0 eqn:E.
  induction Hsteps as [c0 | c0 c1 c2 Hprev IH Hs].
  - subst c0. destruct (start_batches urls w Hk) as [bs' [Hs' [_ [_ Hids]]]].
    rewrite Hstart in Hs'. inversion Hs'; subst bs'.
    intros i Hi. right. right. cbn [pending]. rewrite Hids.
    apply in_seq. lia.
  - specialize (IH E Hstart). subst c0.
    apply (accounted_step Hs (start_invariant urls Hk Ht Hstart Hprev) IH).
Qed.

(** X12. With a browser that always opens a page and whose pages can be
    closed, a run of batches of positive size can be brought to its end from
    wherever it stands, and at the end every target has had its page opened
    and closed, however the sessions failed in between. *)
Theorem run_completes
        (file_accepts : list row -> row -> bool)
        (context : nat -> result Page.t)
        (urls : list string) (num_pages : Z) (w : World)
        (bs : list (list (nat * string))) (c : Config) :
  healthy context ->
  (0 < num_pages)%Z ->
  trace w = [] ->
  start urls num_pages w = Ok {| pending := bs; running := []; world := w |} ->
  crawl_steps file_accepts context {| pending := bs; running := []; world := w |} c ->
  exists c',
    crawl_steps file_accepts context c c' /\
    completed c' /\
    forall i, i < List.length urls ->
      In (EvOpen i) (trace (world c')) /\ In (EvClose i) (trace (world c')).
Proof.
  intros Hh Hk Ht Hstart Hsteps.
  assert (S : forallb sound (running c) = true).
  { apply (@sound_crawl_steps file_accepts context Hh _ c Hsteps). reflexivity. }
  destruct (@sound_completes file_accepts context Hh c S) as [c' [Hrest F]].
  exists c'. split; [exact Hrest|]. split; [exact F|].
  pose proof (steps_trans Hsteps Hrest) as Hall.
  pose proof (start_accounted urls Hk Ht Hstart Hall) as A.
  pose proof (start_invariant urls Hk Ht Hstart Hall) as Inv.
  destruct F as [Fp Fr].
  intros i Hi. destruct (A i Hi) as [Done | [Run | Pend]].
  - exact Done.
  - apply in_map_iff in Run. destruct Run as [t [<- Hin]].
    destruct Inv as [d _ _ _ _ _ _ opened closed _ _ _].
    assert (R : returned t = true).
    { rewrite forallb_forall in Fr. exact (Fr t Hin). }
    split; [apply opened | apply closed]; try assumption.
    unfold page_opened. rewrite R. apply orb_true_r.
  - rewrite Fp in Pend. destruct Pend.
Qed.

(** Five targets, two at a time, with a browser that never fails. *)
Lemma run_completes_witness :
  exists c',
    crawl_steps writable calm_browser
      {| pending := [[(0, "u0"); (1, "u1")]; [(2, "u2"); (3, "u3")]; [(4, "u4")]];
         running := []; world := init_world |} c' /\
    completed c' /\
    forall i, i < List.length five_urls ->
      In (EvOpen i) (trace (world c')) /\ In (EvClose i) (trace (world c')).
Proof.
  exact (@run_completes writable calm_browser five_urls 2 init_world
           [[(0, "u0"); (1, "u1")]; [(2, "u2"); (3, "u3")]; [(4, "u4")]]
           {| pending := [[(0, "u0"); (1, "u1")]; [(2, "u2"); (3, "u3")]; [(4, "u4")]];
              running := []; world := init_world |}
           (fun n => ex_intro _ calm_page (conj eq_refl eq_refl))
           eq_refl eq_refl eq_refl (steps_refl _ _ _)).
Defined.

(** * The stages after the crawler *)

(** ** [main] *)

Ltac main_unfold :=
  unfold Main.main, Main.run_step, Main.invoke, Main.info, Main.pipeline, Main.fresh,
    Stage.bind, Stage.try_except, Stage.modify, Stage.check, Stage.ret, Stage.raise,
    any_exception;
  cbn [Main.until_failure Main.first_raise Main.unguarded].

Ltac main_cases env :=
  destruct (env Main.NewBuildingCrawler); cbn; [|
  destruct (env Main.CrawlerRun); cbn; [|
  destruct (env Main.NewDataCleaner); cbn; [|
  destruct (env Main.CleanerRun); cbn; [|
  destruct (env Main.NewModelDownloader); cbn; [|
  destruct (env Main.DownloaderProcess); cbn; [|
  destruct (env Main.InstallModuleForBlender); cbn; [|
  destruct (env Main.BlenderRunner); cbn]]]]]]].

(** X13. [main] makes its calls in the order of the pipeline and makes none
    after the first one that raises: a step that fails ends the run, no
    later step is started and nothing is tried again.  The closing
    [Finished at] line is logged exactly when no call raised. *)
Theorem main_stops_at_first_failure (env : Main.call -> option error) :
  Main.calls (snd (Main.main env Main.fresh)) = Main.until_failure env Main.pipeline /\
  (In Main.FinishedAt (Main.messages (snd (Main.main env Main.fresh))) <->
   Main.first_raise env Main.pipeline = None).
Proof.
  main_unfold.
  main_cases env; (split; [reflexivity|]); split; intro H;
    try discriminate; try reflexivity;
    repeat (destruct H as [H | H]; try discriminate);
    try (destruct H); auto 12.
Qed.

(** X14. An exception leaves [main] exactly when it comes from one of the
    calls made outside the [try] blocks: building the crawler, the cleaner
    or the downloader (each opens and reads its input file), or installing
    the module for Blender.  What the four guarded calls raise is logged and
    [main] returns normally. *)
Theorem main_raises_unguarded (env : Main.call -> option error) (e : error) :
  fst (Main.main env Main.fresh) = Raises e <->
  exists c, Main.first_raise env Main.pipeline = Some (c, e) /\ Main.unguarded c = true.
Proof.
  main_unfold.
  main_cases env; split; intro H;
    try discriminate;
    try (injection H as <-; eexists; split; reflexivity);
    try (destruct H as [c [H U]]; try discriminate;
         injection H as <- <-; try discriminate; reflexivity).
Qed.

(** ** [blender_utils] *)

Lemma app_one_neq {A} (l : list A) (x : A) : l ++ [x] <> l.
Proof.
  intro H. apply (f_equal (@List.length A)) in H.
  rewrite length_app in H. cbn in H. lia.
Qed.

(** X15. [install_module_for_blender] starts [pip] exactly when no file name
    of the Blender directory contains the package name; a name that merely
    contains it counts as installed.  The exit status of [pip] is not looked
    at: the function returns normally whatever it is. *)
Theorem install_module_for_blender_launches
        (sh : BlenderUtils.Shell) (settings : Settings) (package_name : string)
        (filenames : list string) (started : BlenderUtils.Started) :
  BlenderUtils.listdir sh (blender_exe settings) = Returns filenames ->
  let command := ["pip"; "install"; package_name; "--upgrade"; "--target";
                  blender_exe settings] in
  let after := BlenderUtils.install_module_for_blender sh settings package_name started in
  (snd after = started ++ [command] <->
   forall filename, In filename filenames ->
     PyStr.contains package_name filename = false) /\
  (snd after = started <->
   exists filename, In filename filenames /\
     PyStr.contains package_name filename = true) /\
  (forall status, BlenderUtils.subprocess sh command = Returns status ->
     fst after = Returns tt).
Proof.
  intros Hls command after. subst after.
  unfold BlenderUtils.install_module_for_blender, BlenderUtils.is_installed_module,
    BlenderUtils.call_process, Stage.bind, Stage.lift, Stage.modify, Stage.ret.
  rewrite Hls. fold command.
  destruct (existsb (fun filename => PyStr.contains package_name filename) filenames)
    eqn:E; cbn [negb].
  - apply existsb_exists in E. destruct E as [f [Hin Hc]].
    split; [|split].
    + cbn. split.
      * intro H. symmetry in H. exfalso. exact (@app_one_neq _ _ _ H).
      * intro H. rewrite (H f Hin) in Hc. discriminate.
    + cbn. split; [intros _; exists f; auto | reflexivity].
    + reflexivity.
  - assert (N : forall filename, In filename filenames ->
                  PyStr.contains package_name filename = false).
    { intros f Hin. destruct (PyStr.contains package_name f) eqn:C; [|reflexivity].
      assert (X : existsb (fun filename => PyStr.contains package_name filename)
                          filenames = true)
        by (apply existsb_exists; exists f; auto).
      congruence. }
    split; [|split].
    + destruct (BlenderUtils.subprocess sh command); cbn; split; auto.
    + destruct (BlenderUtils.subprocess sh command); cbn; split;
        try (intro H; exfalso; exact (@app_one_neq _ _ _ H));
        intros [f [Hin Hc]]; rewrite (N f Hin) in Hc; discriminate.
    + intros status Hs. rewrite Hs. reflexivity.
Qed.

Lemma install_module_for_blender_launches_witness :
  snd (BlenderUtils.install_module_for_blender failing_shell default_settings "loguru" [])
    = [] <->
  exists filename, In filename ["bin"; "notloguru.txt"] /\
    PyStr.contains "loguru" filename = true.
Proof.
  exact (proj1 (proj2 (@install_module_for_blender_launches
                         failing_shell default_settings "loguru"
                         ["bin"; "notloguru.txt"] [] eq_refl))).
Defined.

(** X16. [blender_runner] does not look at Blender's exit status, and the
    converter runs in that other process: whatever the status, and whatever
    happened inside Blender, [main] logs the conversion as completed and the
    run as finished. *)
Theorem blender_failure_goes_unseen
        (sh : BlenderUtils.Shell) (settings : Settings)
        (env : Main.call -> option error) (status : Z) :
  (forall c, c <> Main.BlenderRunner -> Main.convert_env sh settings env c = None) ->
  BlenderUtils.subprocess sh ["blender"; "-b"; "-P"; "src/app/modules/converter.py"]
    = Returns status ->
  let out := Main.main (Main.convert_env sh settings env) Main.fresh in
  fst out = Returns tt /\
  In (Main.StepCompleted Main.Convert) (Main.messages (snd out)) /\
  In Main.FinishedAt (Main.messages (snd out)).
Proof.
  intros Hothers Hrun out. subst out.
  assert (R : Main.convert_env sh settings env Main.BlenderRunner = None).
  { unfold Main.convert_env, BlenderUtils.blender_runner, BlenderUtils.call_process,
      Stage.bind, Stage.lift, Stage.modify, Stage.ret.
    rewrite Hrun. reflexivity. }
  remember (Main.convert_env sh settings env) as env' eqn:E. clear E.
  main_unfold.
  repeat (rewrite Hothers by discriminate; cbn).
  rewrite R. cbn. auto 20.
Qed.

Lemma blender_failure_goes_unseen_witness :
  In Main.FinishedAt
     (Main.messages
        (snd (Main.main (Main.convert_env failing_shell default_settings all_fine)
                        Main.fresh))).
Proof.
  refine (proj2 (proj2 (@blender_failure_goes_unseen
                          failing_shell default_settings all_fine 1%Z _ eq_refl))).
  intros c _. destruct c; reflexivity.
Defined.

(** ** [ModelDownloader] *)

Lemma stage_for_each_app {St A} (f : A -> Stage.t St unit) (l1 l2 : list A) (st : St) :
  Stage.for_each f (l1 ++ l2) st =
  Stage.bind (Stage.for_each f l1) (fun _ => Stage.for_each f l2) st.
Proof.
  revert st. induction l1 as [|x l1 IH]; intro st; cbn [app Stage.for_each].
  - reflexivity.
  - unfold Stage.bind in *. destruct (f x st) as [[[]|e] st']; [apply IH | reflexivity].
Qed.

Lemma writes_land (path : string) (chunks content : list ModelDownloader.chunk)
      (d : ModelDownloader.Disk) :
  ModelDownloader.read (ModelDownloader.files d) path = Some content ->
  let out := Stage.for_each (ModelDownloader.write path) chunks d in
  fst out = Returns tt /\
  ModelDownloader.read (ModelDownloader.files (snd out)) path = Some (content ++ chunks) /\
  ModelDownloader.journal (snd out) = ModelDownloader.journal d.
Proof.
  revert content d. induction chunks as [|c chunks IH]; intros content d Hr; cbn zeta.
  - cbn. rewrite app_nil_r. auto.
  - cbn [Stage.for_each]. unfold Stage.bind.
    assert (W : ModelDownloader.write path c d =
                (Returns tt, ModelDownloader.store path (content ++ [c]) d)).
    { unfold ModelDownloader.write, Stage.modify. rewrite Hr. reflexivity. }
    rewrite W.
    specialize (IH (content ++ [c])
                   (ModelDownloader.store path (content ++ [c]) d)).
    cbn zeta in IH. rewrite <- app_assoc in IH. cbn [app] in IH.
    assert (Hr' : ModelDownloader.read
                    (ModelDownloader.files
                       (ModelDownloader.store path (content ++ [c]) d)) path
                  = Some (content ++ [c])).
    { cbn. rewrite String.eqb_refl. reflexivity. }
    destruct (IH Hr') as [R [F J]].
    split; [exact R | split; [exact F | exact J]].
Qed.

Ltac download_leaf E :=
  cbn in E;
  try match type of E with
      | context [is_request_exception ?e] =>
          destruct (is_request_exception e) eqn:?
      end;
  injection E as <- <-; cbn;
  repeat match goal with
         | J : ModelDownloader.journal _ = _ |- _ => rewrite J; clear J
         end;
  (split;
   [ reflexivity
   | split;
     [ rewrite ?app_nil_r; reflexivity
     | let H := fresh "H" in
       intros ? H;
       first [ discriminate H
             | injection H as <-; split; [assumption | reflexivity] ] ] ]).

(** X17. [download_file] catches the exceptions of [requests] and nothing
    else.  The first exception of its [try] block decides: an exception of
    [requests] is logged with the URL and the function returns normally; any
    other exception (the path cannot be formed or the file cannot be opened)
    leaves the function and nothing is logged for the file; with no
    exception the download is logged.  In every case at most one entry is
    logged. *)
Theorem download_file_catches_requests_only
        (sys : ModelDownloader.System) (url file_name : json) (output_dir : string)
        (d : ModelDownloader.Disk) :
  let out := ModelDownloader.download_file sys url file_name output_dir d in
  fst out =
    match ModelDownloader.download_failure sys url file_name output_dir with
    | Some e => if is_request_exception e then Returns tt else Raises e
    | None => Returns tt
    end /\
  ModelDownloader.journal (snd out) =
    ModelDownloader.journal d ++
    match ModelDownloader.download_failure sys url file_name output_dir with
    | Some e => if is_request_exception e
                then [ModelDownloader.FailedDownload url e] else []
    | None => [ModelDownloader.Downloaded file_name]
    end /\
  (forall e, fst out = Raises e ->
     is_request_exception e = false /\
     ModelDownloader.download_failure sys url file_name output_dir = Some e).
Proof.
  cbn zeta.
  destruct (ModelDownloader.download_file sys url file_name output_dir d)
    as [r d''] eqn:E.
  cbn [fst snd].
  unfold ModelDownloader.download_file, Stage.try_except, Stage.bind, Stage.lift in E.
  unfold ModelDownloader.download_failure.
  destruct (ModelDownloader.requests_get sys url) as [reply|e0]; [|download_leaf E].
  unfold Stage.check at 1 in E.
  destruct (ModelDownloader.raise_for_status reply) as [e0|]; [download_leaf E|].
  unfold Stage.ret at 1 in E.
  destruct (ModelDownloader.path_join sys [JStr output_dir; file_name])
    as [path|e0]; [|download_leaf E].
  unfold ModelDownloader.create, Stage.bind, Stage.check at 1 in E.
  destruct (ModelDownloader.open_wb sys path) as [e0|]; [download_leaf E|].
  unfold Stage.ret at 1, Stage.modify at 1 in E.
  destruct (@writes_land path (fst (ModelDownloader.iter_content reply)) []
                         (ModelDownloader.store path [] d)) as [R [_ J]].
  { cbn. rewrite String.eqb_refl. reflexivity. }
  destruct (Stage.for_each (ModelDownloader.write path)
              (fst (ModelDownloader.iter_content reply))
              (ModelDownloader.store path [] d)) as [r' d'].
  cbn [fst snd ModelDownloader.store ModelDownloader.journal] in R, J. subst r'.
  unfold Stage.check in E.
  destruct (snd (ModelDownloader.iter_content reply)) as [e0|];
    unfold ModelDownloader.logger, Stage.modify in E; download_leaf E.
Qed.

(** X18. A download that breaks in the middle leaves a partial file under
    the final name: the file, emptied when it was opened, holds the chunks
    received before the connection broke, the failure is logged and
    [download_file] returns normally.  Nothing is removed or tried again. *)
Theorem download_file_partial
        (sys : ModelDownloader.System) (url file_name : json) (output_dir : string)
        (d : ModelDownloader.Disk) (reply : ModelDownloader.Reply)
        (path : string) (e : error) :
  ModelDownloader.requests_get sys url = Returns reply ->
  ModelDownloader.raise_for_status reply = None ->
  ModelDownloader.path_join sys [JStr output_dir; file_name] = Returns path ->
  ModelDownloader.open_wb sys path = None ->
  snd (ModelDownloader.iter_content reply) = Some e ->
  is_request_exception e = true ->
  let out := ModelDownloader.download_file sys url file_name output_dir d in
  fst out = Returns tt /\
  ModelDownloader.read (ModelDownloader.files (snd out)) path =
    Some (fst (ModelDownloader.iter_content reply)) /\
  ModelDownloader.journal (snd out) =
    ModelDownloader.journal d ++ [ModelDownloader.FailedDownload url e].
Proof.
  intros Hget Hstatus Hjoin Hopen Hbreak Hreq. cbn zeta.
  destruct (ModelDownloader.download_file sys url file_name output_dir d)
    as [r d''] eqn:E.
  cbn [fst snd].
  unfold ModelDownloader.download_file, Stage.try_except, Stage.bind, Stage.lift in E.
  rewrite Hget in E. unfold Stage.check at 1 in E. rewrite Hstatus in E.
  unfold Stage.ret at 1 in E. rewrite Hjoin in E.
  unfold ModelDownloader.create, Stage.bind, Stage.check at 1 in E.
  rewrite Hopen in E.
  unfold Stage.ret at 1, Stage.modify at 1 in E.
  destruct (@writes_land path (fst (ModelDownloader.iter_content reply)) []
                         (ModelDownloader.store path [] d)) as [R [F J]].
  { cbn. rewrite String.eqb_refl. reflexivity. }
  destruct (Stage.for_each (ModelDownloader.write path)
              (fst (ModelDownloader.iter_content reply))
              (ModelDownloader.store path [] d)) as [r' d'].
  cbn [fst snd app ModelDownloader.store ModelDownloader.journal] in R, F, J. subst r'.
  unfold Stage.check in E. rewrite Hbreak in E.
  unfold Stage.raise, ModelDownloader.logger, Stage.modify in E.
  rewrite Hreq in E. injection E as <- <-. cbn. rewrite J. auto.
Qed.

Lemma download_file_partial_witness :
  let out := ModelDownloader.download_file dropping_system
               (JStr "https://cdn.example/house.obj") (JStr "house.obj") "obj"
               empty_disk in
  fst out = Returns tt /\
  ModelDownloader.read (ModelDownloader.files (snd out)) "obj/house.obj" =
    Some ["v 0 0 0"; "v 1 0 0"] /\
  ModelDownloader.journal (snd out) =
    [ModelDownloader.FailedDownload (JStr "https://cdn.example/house.obj")
                                    RequestException].
Proof.
  exact (@download_file_partial dropping_system
           (JStr "https://cdn.example/house.obj") (JStr "house.obj") "obj"
           empty_disk _ "obj/house.obj" RequestException
           eq_refl eq_refl eq_refl eq_refl eq_refl eq_refl).
Defined.

Ltac download_returns E :=
  cbn in E;
  try match type of E with
      | context [is_request_exception ?e] =>
          match goal with
          | C : is_request_exception e = true |- _ => rewrite C in E
          end
      end;
  injection E as <- <-; eexists;
  (split;
   [ reflexivity
   | cbn;
     repeat match goal with
            | J : ModelDownloader.journal _ = _ |- _ => rewrite J; clear J
            end;
     try match goal with
         | C : is_request_exception _ = true |- _ => rewrite C
         end;
     reflexivity ]).

Lemma download_file_returns (sys : ModelDownloader.System) (url file_name : json)
      (output_dir : string) (d : ModelDownloader.Disk) :
  ModelDownloader.contained sys url file_name output_dir = true ->
  exists d',
    ModelDownloader.download_file sys url file_name output_dir d = (Returns tt, d') /\
    ModelDownloader.journal d' =
      ModelDownloader.journal d ++
      ModelDownloader.download_entry sys url file_name output_dir.
Proof.
  intro C.
  destruct (ModelDownloader.download_file sys url file_name output_dir d)
    as [r d''] eqn:E.
  unfold ModelDownloader.download_file, Stage.try_except, Stage.bind, Stage.lift in E.
  unfold ModelDownloader.contained, ModelDownloader.download_entry,
    ModelDownloader.download_failure in *.
  destruct (ModelDownloader.requests_get sys url) as [reply|e0]; [|download_returns E].
  unfold Stage.check at 1 in E.
  destruct (ModelDownloader.raise_for_status reply) as [e0|]; [download_returns E|].
  unfold Stage.ret at 1 in E.
  destruct (ModelDownloader.path_join sys [JStr output_dir; file_name])
    as [path|e0]; [|download_returns E].
  unfold ModelDownloader.create, Stage.bind, Stage.check at 1 in E.
  destruct (ModelDownloader.open_wb sys path) as [e0|]; [download_returns E|].
  unfold Stage.ret at 1, Stage.modify at 1 in E.
  destruct (@writes_land path (fst (ModelDownloader.iter_content reply)) []
                         (ModelDownloader.store path [] d)) as [R [_ J]].
  { cbn. rewrite String.eqb_refl. reflexivity. }
  destruct (Stage.for_each (ModelDownloader.write path)
              (fst (ModelDownloader.iter_content reply))
              (ModelDownloader.store path [] d)) as [r' d'].
  cbn [fst snd ModelDownloader.store ModelDownloader.journal] in R, J. subst r'.
  unfold Stage.check in E.
  destruct (snd (ModelDownloader.iter_content reply)) as [e0|];
    unfold ModelDownloader.logger, Stage.modify in E; download_returns E.
Qed.

Lemma download_entry_one (sys : ModelDownloader.System) (url file_name : json)
      (output_dir : string) :
  ModelDownloader.contained sys url file_name output_dir = true ->
  List.length (ModelDownloader.download_entry sys url file_name output_dir) = 1.
Proof.
  unfold ModelDownloader.contained, ModelDownloader.download_entry.
  destruct (ModelDownloader.download_failure sys url file_name output_dir) as [e|];
    [|reflexivity].
  intros ->. reflexivity.
Qed.

(** X19. A failed download stops nothing.  When the four entries of every
    row can be read and each download either goes through or fails with an
    exception of [requests], [process] returns normally and its log is, row
    after row, the entry of the model then the entry of the texture: both
    downloads of every row are made, the texture also when the model could
    not be fetched. *)
Theorem process_tries_every_file
        (sys : ModelDownloader.System) (output_obj_dir output_texture_dir : string)
        (rows : list json) (d : ModelDownloader.Disk) :
  forallb (ModelDownloader.fetchable sys output_obj_dir output_texture_dir) rows
    = true ->
  let out := ModelDownloader.process sys output_obj_dir output_texture_dir
                                     (JArr rows) d in
  fst out = Returns tt /\
  ModelDownloader.journal (snd out) =
    ModelDownloader.journal d ++
    flat_map (ModelDownloader.row_entries sys output_obj_dir output_texture_dir) rows /\
  Forall (fun row =>
            List.length (ModelDownloader.row_entries sys output_obj_dir
                                                     output_texture_dir row) = 2)
         rows.
Proof.
  intros Hrows. cbn zeta.
  change (ModelDownloader.process sys output_obj_dir output_texture_dir (JArr rows) d)
    with (Stage.for_each
            (ModelDownloader.process_row sys output_obj_dir output_texture_dir)
            rows d).
  revert d. induction rows as [|row rows IH]; intro d.
  - cbn. rewrite app_nil_r. auto.
  - cbn [forallb] in Hrows. apply andb_prop in Hrows. destruct Hrows as [Hrow Hrest].
    specialize (IH Hrest).
    assert (P : exists d',
               ModelDownloader.process_row sys output_obj_dir output_texture_dir row d
                 = (Returns tt, d') /\
               ModelDownloader.journal d' =
                 ModelDownloader.journal d ++
                 ModelDownloader.row_entries sys output_obj_dir output_texture_dir row /\
               List.length (ModelDownloader.row_entries sys output_obj_dir
                                                        output_texture_dir row) = 2).
    { unfold ModelDownloader.fetchable in Hrow.
      unfold ModelDownloader.process_row, ModelDownloader.row_entries,
        Stage.bind, Stage.lift.
      destruct (getitem row "model") as [model|]; [|discriminate].
      destruct (getitem model "objUrl") as [objUrl|]; [|discriminate].
      destruct (getitem model "objName") as [objName|]; [|discriminate].
      destruct (getitem model "textureUrl") as [textureUrl|]; [|discriminate].
      destruct (getitem model "textureName") as [textureName|]; [|discriminate].
      apply andb_prop in Hrow. destruct Hrow as [C1 C2].
      destruct (@download_file_returns sys objUrl objName output_obj_dir d C1)
        as [d1 [E1 J1]].
      rewrite E1.
      destruct (@download_file_returns sys textureUrl textureName
                                       output_texture_dir d1 C2)
        as [d2 [E2 J2]].
      exists d2. split; [exact E2 | split].
      - rewrite J2, J1, app_assoc. reflexivity.
      - rewrite length_app, (download_entry_one _ _ _ _ C1),
          (download_entry_one _ _ _ _ C2). reflexivity. }
    destruct P as [d' [E [J L]]].
    cbn [Stage.for_each flat_map]. unfold Stage.bind. rewrite E.
    destruct (IH d') as [R [N F]]. split; [exact R | split].
    + rewrite N, J, app_assoc. reflexivity.
    + constructor; [exact L | exact F].
Qed.

(** Two rows, every download breaking in the middle: four failures are
    logged, model then texture for each row. *)
Lemma process_tries_every_file_witness :
  let out := ModelDownloader.process dropping_system "obj" "texture"
                                     (JArr [house_row; house_row]) empty_disk in
  fst out = Returns tt /\
  ModelDownloader.journal (snd out) =
    [ModelDownloader.FailedDownload (JStr "https://cdn.example/house.obj")
                                    RequestException;
     ModelDownloader.FailedDownload (JStr "https://cdn.example/house.jpg")
                                    RequestException;
     ModelDownloader.FailedDownload (JStr "https://cdn.example/house.obj")
                                    RequestException;
     ModelDownloader.FailedDownload (JStr "https://cdn.example/house.jpg")
                                    RequestException] /\
  Forall (fun row =>
            List.length (ModelDownloader.row_entries dropping_system "obj" "texture"
                                                     row) = 2)
         [house_row; house_row].
Proof.
  exact (@process_tries_every_file dropping_system "obj" "texture"
           [house_row; house_row] empty_disk eq_refl).
Defined.

(** X20. A row that cannot be read ends [process] with its exception
    ([KeyError] for a row without [model]): the rows before it have been
    downloaded, the rows after it are never looked at. *)
Theorem process_stops_at_unreadable_row
        (sys : ModelDownloader.System) (output_obj_dir output_texture_dir : string)
        (before after : list json) (bad : json) (e : error)
        (d : ModelDownloader.Disk) :
  getitem bad "model" = Raises e ->
  ModelDownloader.process sys output_obj_dir output_texture_dir
                          (JArr (before ++ bad :: after)) d =
  match ModelDownloader.process sys output_obj_dir output_texture_dir
                                (JArr before) d with
  | (Returns _, d') => (Raises e, d')
  | failed => failed
  end.
Proof.
  intro Hbad.
  change (ModelDownloader.process sys output_obj_dir output_texture_dir
                                  (JArr (before ++ bad :: after)) d)
    with (Stage.for_each
            (ModelDownloader.process_row sys output_obj_dir output_texture_dir)
            (before ++ bad :: after) d).
  change (ModelDownloader.process sys output_obj_dir output_texture_dir
                                  (JArr before) d)
    with (Stage.for_each
            (ModelDownloader.process_row sys output_obj_dir output_texture_dir)
            before d).
  rewrite stage_for_each_app. unfold Stage.bind at 1.
  destruct (Stage.for_each
              (ModelDownloader.process_row sys output_obj_dir output_texture_dir)
              before d) as [[[]|e'] d']; [|reflexivity].
  cbn [Stage.for_each]. unfold Stage.bind at 1.
  unfold ModelDownloader.process_row at 1, Stage.bind at 1, Stage.lift at 1.
  rewrite Hbad. reflexivity.
Qed.

Lemma process_stops_at_unreadable_row_witness :
  ModelDownloader.process dropping_system "obj" "texture"
                          (JArr ([house_row] ++ bare_row :: [house_row])) empty_disk =
  match ModelDownloader.process dropping_system "obj" "texture"
                                (JArr [house_row]) empty_disk with
  | (Returns _, d') => (Raises KeyError, d')
  | failed => failed
  end.
Proof.
  exact (@process_stops_at_unreadable_row dropping_system "obj" "texture"
           [house_row] [house_row] bare_row KeyError empty_disk eq_refl).
Defined.

(** ** [DataCleaner] *)

Section CleanData.

Variable Row : Type.
Variable Key : Type.
Variable id : Row -> Key.
Variable same : Key -> Key -> bool.
Hypothesis same_eq : forall a b, same a b = true <-> a = b.

Lemma same_seen (k : Key) (seen : list Key) :
  existsb (same k) seen = true <-> In k seen.
Proof.
  rewrite existsb_exists. split.
  - intros [x [Hin Hs]]. apply same_eq in Hs. subst x. exact Hin.
  - intro Hin. exists k. split; [exact Hin | apply same_eq; reflexivity].
Qed.

Lemma drop_duplicates_fresh (seen : list Key) (df : list Row) (r : Row) :
  In r (DataCleaner.drop_duplicates id same seen df) ->
  In r df /\ ~ In (id r) seen.
Proof.
  revert seen. induction df as [|x df IH]; intros seen Hin; cbn in Hin.
  - destruct Hin.
  - destruct (existsb (same (id x)) seen) eqn:E.
    + destruct (IH _ Hin) as [H1 H2]. split; [right; exact H1 | exact H2].
    + destruct Hin as [<- | Hin].
      * split; [left; reflexivity|]. intro H. apply same_seen in H. congruence.
      * destruct (IH _ Hin) as [H1 H2]. split; [right; exact H1|].
        intro H. apply H2. right. exact H.
Qed.

Lemma drop_duplicates_nodup (seen : list Key) (df : list Row) :
  NoDup (map id (DataCleaner.drop_duplicates id same seen df)).
Proof.
  revert seen. induction df as [|x df IH]; intro seen; cbn.
  - constructor.
  - destruct (existsb (same (id x)) seen); [apply IH|].
    cbn. constructor; [|apply IH].
    intro H. apply in_map_iff in H. destruct H as [r [Hid Hin]].
    apply drop_duplicates_fresh in Hin. destruct Hin as [_ Hn].
    apply Hn. left. symmetry. exact Hid.
Qed.

Lemma drop_duplicates_lookup (seen : list Key) (df : list Row) (k : Key) :
  DataCleaner.lookup id same k (DataCleaner.drop_duplicates id same seen df) =
  if existsb (same k) seen then None else DataCleaner.lookup id same k df.
Proof.
  unfold DataCleaner.lookup.
  revert seen. induction df as [|x df IH]; intro seen; cbn.
  - destruct (existsb (same k) seen); reflexivity.
  - destruct (existsb (same (id x)) seen) eqn:E.
    + rewrite IH. destruct (existsb (same k) seen) eqn:K; [reflexivity|].
      destruct (same (id x) k) eqn:S; [|reflexivity].
      apply same_eq in S. subst k. congruence.
    + cbn. destruct (same (id x) k) eqn:S.
      * apply same_eq in S. subst k. rewrite E. reflexivity.
      * rewrite IH. cbn.
        assert (S' : same k (id x) = false).
        { destruct (same k (id x)) eqn:S'; [|reflexivity].
          apply same_eq in S'. subst k.
          assert (same (id x) (id x) = true) by (apply same_eq; reflexivity).
          congruence. }
        rewrite S'. reflexivity.
Qed.

Lemma drop_duplicates_again (seen : list Key) (df : list Row) :
  DataCleaner.drop_duplicates id same seen (DataCleaner.drop_duplicates id same seen df) =
  DataCleaner.drop_duplicates id same seen df.
Proof.
  assert (G : forall df seen seen',
             (forall k, In k seen -> In k seen') ->
             (forall r, In r df -> ~ In (id r) seen) ->
             NoDup (map id df) ->
             DataCleaner.drop_duplicates id same seen df = df).
  { clear df seen. induction df as [|x df IH]; intros seen seen' _ Hfresh Hnd; cbn.
    - reflexivity.
    - destruct (existsb (same (id x)) seen) eqn:E.
      + apply same_seen in E. exfalso. apply (Hfresh x); [left; reflexivity | exact E].
      + f_equal. inversion Hnd as [|? ? Hx Hnd']; subst.
        apply (IH (id x :: seen) (id x :: seen)); [auto | | exact Hnd'].
        intros r Hr [H | H].
        * apply Hx. rewrite H. apply in_map. exact Hr.
        * apply (Hfresh r); [right; exact Hr | exact H]. }
  apply (G _ seen seen); [auto | | apply drop_duplicates_nodup].
  intros r Hr. apply drop_duplicates_fresh in Hr. tauto.
Qed.

End CleanData.

(** X21. [clean_data] leaves one row per [id], the first one of the frame
    with that [id], and loses no [id]: looking a building up by its [id]
    gives the same row before and after.  Cleaning a cleaned frame changes
    nothing. *)
Theorem clean_data_keeps_first
        (Row Key : Type) (id : Row -> Key) (same : Key -> Key -> bool)
        (df : list Row) :
  (forall a b, same a b = true <-> a = b) ->
  NoDup (map id (DataCleaner.clean_data id same df)) /\
  (forall k, DataCleaner.lookup id same k (DataCleaner.clean_data id same df) =
             DataCleaner.lookup id same k df) /\
  DataCleaner.clean_data id same (DataCleaner.clean_data id same df) =
    DataCleaner.clean_data id same df.
Proof.
  intro same_eq. unfold DataCleaner.clean_data. split; [|split].
  - exact (@drop_duplicates_nodup _ _ id same same_eq [] df).
  - intro k. rewrite (@drop_duplicates_lookup _ _ id same same_eq [] df k). reflexivity.
  - exact (@drop_duplicates_again _ _ id same same_eq [] df).
Qed.

Lemma clean_data_keeps_first_witness :
  NoDup (map fst (DataCleaner.clean_data fst Nat.eqb crawled_twice)) /\
  (forall k, DataCleaner.lookup fst Nat.eqb k
               (DataCleaner.clean_data fst Nat.eqb crawled_twice) =
             DataCleaner.lookup fst Nat.eqb k crawled_twice) /\
  DataCleaner.clean_data fst Nat.eqb (DataCleaner.clean_data fst Nat.eqb crawled_twice) =
    DataCleaner.clean_data fst Nat.eqb crawled_twice.
Proof.
  exact (@clean_data_keeps_first (nat * string) nat fst Nat.eqb crawled_twice
           Nat.eqb_eq).
Defined.

Lemma assoc_assign (k : string) (v : json) (d : list (string * json)) :
  Py.assoc k (DataCleaner.assign k v d) = Some v /\
  (forall k', k' <> k -> Py.assoc k' (DataCleaner.assign k v d) = Py.assoc k' d) /\
  (Py.assoc k d <> None -> Py.keys (DataCleaner.assign k v d) = Py.keys d).
Proof.
  induction d as [|[k0 v0] d [IH1 [IH2 IH3]]]; cbn [DataCleaner.assign Py.assoc].
  - rewrite String.eqb_refl. split; [reflexivity | split].
    + intros k' Hk. apply String.eqb_neq in Hk. rewrite Hk. reflexivity.
    + intro H. contradiction H. reflexivity.
  - destruct (String.eqb k k0) eqn:E; cbn [Py.assoc].
    + apply String.eqb_eq in E. subst k0. rewrite String.eqb_refl.
      split; [reflexivity | split].
      * intros k' Hk. apply String.eqb_neq in Hk. rewrite Hk. reflexivity.
      * intros _. reflexivity.
    + rewrite E. split; [exact IH1 | split].
      * intros k' Hk. destruct (String.eqb k' k0); [reflexivity | apply IH2; exact Hk].
      * intro H. unfold Py.keys in *. cbn [map fst]. f_equal. apply IH3. exact H.
Qed.

(** X22. [normalize_model] leaves the model with an [objName] that contains
    [.obj], whatever the substitution removed: the name is the substituted
    one, with [.obj] appended when it does not occur in it.  The other
    entries of the model and the order of its keys are kept. *)
Theorem normalize_model_obj
        (re_sub : string -> string) (model : json) (name : string) :
  getitem model "objName" = Returns (JStr name) ->
  exists d' name',
    DataCleaner.normalize_model re_sub model = Returns (JObj d') /\
    Py.assoc "objName" d' = Some (JStr name') /\
    PyStr.contains ".obj" name' = true /\
    name' = (if PyStr.contains ".obj" (re_sub name) then re_sub name
             else re_sub name ++ ".obj")%string /\
    (forall k, k <> "objName" -> getitem (JObj d') k = getitem model k) /\
    (forall d, model = JObj d -> Py.keys d' = Py.keys d).
Proof.
  intro Hname.
  destruct model as [| | | | | |d]; try discriminate Hname.
  cbn [getitem] in Hname.
  destruct (Py.assoc "objName" d) as [v|] eqn:Hassoc; [|discriminate Hname].
  injection Hname as ->.
  assert (Hin : Py.assoc "objName" d <> None) by (rewrite Hassoc; discriminate).
  destruct (assoc_assign "objName" (JStr (re_sub name)) d) as [A1 [A2 A3]].
  destruct (assoc_assign "objName" (JStr (re_sub name ++ ".obj"))
              (DataCleaner.assign "objName" (JStr (re_sub name)) d))
    as [B1 [B2 B3]].
  unfold DataCleaner.normalize_model.
  cbn [getitem]. rewrite Hassoc.
  cbn [abind DataCleaner.strip_image_ext DataCleaner.setitem getitem].
  rewrite A1. cbn [abind DataCleaner.lacks_obj].
  destruct (PyStr.contains ".obj" (re_sub name)) eqn:C; cbn [negb].
  - exists (DataCleaner.assign "objName" (JStr (re_sub name)) d), (re_sub name).
    split; [reflexivity | split; [exact A1 | split; [exact C | split; [reflexivity|]]]].
    split.
    + intros k Hk. cbn [getitem]. rewrite (A2 k Hk). reflexivity.
    + intros d0 [= <-]. exact (A3 Hin).
  - cbn [abind DataCleaner.add_obj DataCleaner.setitem].
    eexists. exists (re_sub name ++ ".obj")%string.
    split; [reflexivity | split; [exact B1 | split; [|split; [reflexivity|]]]].
    + apply PyStrFacts.contains_spec. exists (re_sub name), ""%string. reflexivity.
    + split.
      * intros k Hk. cbn [getitem]. rewrite (B2 k Hk), (A2 k Hk). reflexivity.
      * intros d0 [= <-]. rewrite B3; [exact (A3 Hin)|]. rewrite A1. discriminate.
Qed.

Lemma normalize_model_obj_witness :
  exists d' name',
    DataCleaner.normalize_model (fun _ => "villa") villa_model = Returns (JObj d') /\
    Py.assoc "objName" d' = Some (JStr name') /\
    PyStr.contains ".obj" name' = true /\
    name' = "villa.obj" /\
    (forall k, k <> "objName" -> getitem (JObj d') k = getitem villa_model k) /\
    (forall d, villa_model = JObj d -> Py.keys d' = Py.keys d).
Proof.
  exact (@normalize_model_obj (fun _ => "villa") villa_model "villa.jpg" eq_refl).
Defined.

(** ** [ModelConverter] *)

Lemma textures_keep (input_texture : string) (objs : list ModelConverter.SceneObject)
      (st : ModelConverter.State) :
  exists r,
    Stage.for_each
      (fun obj =>
         if String.eqb (ModelConverter.type obj) "MESH"
         then Stage.check (ModelConverter.apply_texture obj input_texture)
         else Stage.ret tt) objs st = (r, st).
Proof.
  induction objs as [|obj objs IH]; cbn [Stage.for_each].
  - eexists. reflexivity.
  - unfold Stage.bind.
    destruct (String.eqb (ModelConverter.type obj) "MESH").
    + unfold Stage.check.
      destruct (ModelConverter.apply_texture obj input_texture); cbn.
      * eexists. reflexivity.
      * exact IH.
    + cbn. exact IH.
Qed.

Lemma textures_applied (bpy : ModelConverter.Blender) (input_obj input_texture : string)
      (st : ModelConverter.State) :
  ModelConverter.obliging bpy ->
  Stage.for_each
    (fun obj =>
       if String.eqb (ModelConverter.type obj) "MESH"
       then Stage.check (ModelConverter.apply_texture obj input_texture)
       else Stage.ret tt) (ModelConverter.scene_objects bpy input_obj) st
  = (Returns tt, st).
Proof.
  intros [_ [_ Hall]]. specialize (Hall input_obj).
  induction (ModelConverter.scene_objects bpy input_obj) as [|obj objs IH];
    cbn [Stage.for_each].
  - reflexivity.
  - unfold Stage.bind.
    destruct (String.eqb (ModelConverter.type obj) "MESH") eqn:T.
    + rewrite (Hall obj input_texture (or_introl eq_refl) T). cbn.
      apply IH. intros o t Ho. apply Hall. right. exact Ho.
    + cbn. apply IH. intros o t Ho. apply Hall. right. exact Ho.
Qed.

Ltac convert_leaf E :=
  cbn in E; injection E as <- <-; cbn;
  (split; [reflexivity
          | split; [eexists; split; [reflexivity | eauto]
                   | first [left; reflexivity | right; eexists; reflexivity]]]).

Ltac convert_logged E :=
  cbn in E; injection E as <- <-; eexists; eexists;
  (split; [reflexivity | split; [reflexivity | eauto]]).

Lemma convert_model_logged
      (bpy : ModelConverter.Blender) (input_obj input_texture output_path : string)
      (st : ModelConverter.State) :
  exists st' m,
    ModelConverter.convert_model bpy input_obj input_texture output_path st =
      (Returns tt, st') /\
    ModelConverter.journal st' = ModelConverter.journal st ++ [m] /\
    (m = ModelConverter.Exported output_path \/
     exists e, m = ModelConverter.FailedExport output_path e).
Proof.
  destruct (ModelConverter.convert_model bpy input_obj input_texture output_path st)
    as [r st''] eqn:E.
  unfold ModelConverter.convert_model, Stage.try_except, Stage.bind, any_exception in E.
  unfold Stage.check at 1 in E.
  destruct (ModelConverter.clear_scene bpy); [convert_logged E|].
  unfold Stage.ret at 1 in E. unfold Stage.check at 1 in E.
  destruct (ModelConverter.import_obj bpy input_obj); [convert_logged E|].
  unfold Stage.ret at 1 in E.
  destruct (@textures_keep input_texture (ModelConverter.scene_objects bpy input_obj) st)
    as [r0 T].
  rewrite T in E. destruct r0 as [[]|e0]; [|convert_logged E].
  unfold ModelConverter.export, Stage.bind, Stage.check in E.
  destruct (PyStr.endswith output_path ".glb").
  - destruct (ModelConverter.export_gltf bpy output_path); convert_logged E.
  - destruct (PyStr.endswith output_path ".fbx").
    + destruct (ModelConverter.export_fbx bpy output_path); convert_logged E.
    + convert_logged E.
Qed.

(** X23. [convert_model] never raises: whatever Blender does, the call
    returns normally and logs exactly one entry for the model, success or
    failure, and at most one file is exported, under the output path. *)
Theorem convert_model_never_raises
        (bpy : ModelConverter.Blender) (input_obj input_texture output_path : string)
        (st : ModelConverter.State) :
  let out := ModelConverter.convert_model bpy input_obj input_texture output_path st in
  fst out = Returns tt /\
  (exists m,
     ModelConverter.journal (snd out) = ModelConverter.journal st ++ [m] /\
     (m = ModelConverter.Exported output_path \/
      exists e, m = ModelConverter.FailedExport output_path e)) /\
  (ModelConverter.exported (snd out) = ModelConverter.exported st \/
   exists f, ModelConverter.exported (snd out) =
             ModelConverter.exported st ++ [(f, output_path)]).
Proof.
  cbn zeta.
  destruct (ModelConverter.convert_model bpy input_obj input_texture output_path st)
    as [r st'] eqn:E.
  cbn [fst snd].
  unfold ModelConverter.convert_model, Stage.try_except, Stage.bind, any_exception in E.
  unfold Stage.check at 1 in E.
  destruct (ModelConverter.clear_scene bpy); [convert_leaf E|].
  unfold Stage.ret at 1 in E. unfold Stage.check at 1 in E.
  destruct (ModelConverter.import_obj bpy input_obj); [convert_leaf E|].
  unfold Stage.ret at 1 in E.
  destruct (@textures_keep input_texture (ModelConverter.scene_objects bpy input_obj) st)
    as [r0 T].
  rewrite T in E. destruct r0 as [[]|e0]; [|convert_leaf E].
  unfold ModelConverter.export, Stage.bind, Stage.check in E.
  destruct (PyStr.endswith output_path ".glb").
  - destruct (ModelConverter.export_gltf bpy output_path); convert_leaf E.
  - destruct (PyStr.endswith output_path ".fbx").
    + destruct (ModelConverter.export_fbx bpy output_path); convert_leaf E.
    + convert_leaf E.
Qed.

(** X24. Success is logged although nothing was exported when the output
    path ends with neither [.glb] nor [.fbx]: with every Blender operator
    going through, [convert_model] writes no file and logs
    [File exported to ...]. *)
Theorem convert_model_success_without_export
        (bpy : ModelConverter.Blender) (input_obj input_texture output_path : string)
        (st : ModelConverter.State) :
  ModelConverter.obliging bpy ->
  PyStr.endswith output_path ".glb" = false ->
  PyStr.endswith output_path ".fbx" = false ->
  ModelConverter.convert_model bpy input_obj input_texture output_path st =
  (Returns tt,
   {| ModelConverter.exported := ModelConverter.exported st;
      ModelConverter.journal :=
        ModelConverter.journal st ++ [ModelConverter.Exported output_path] |}).
Proof.
  intros Hb Hglb Hfbx.
  unfold ModelConverter.convert_model, Stage.try_except, Stage.bind.
  destruct Hb as [Hc [Hi Ht]].
  rewrite Hc, Hi. cbn [Stage.check Stage.ret].
  rewrite (@textures_applied bpy input_obj input_texture st (conj Hc (conj Hi Ht))).
  rewrite Hglb, Hfbx. reflexivity.
Qed.

Lemma working_blender_obliging : ModelConverter.obliging working_blender.
Proof.
  split; [reflexivity | split; [reflexivity|]].
  intros input_obj obj texture [<- | [<- | []]] T; [reflexivity | discriminate T].
Qed.

Lemma convert_model_success_without_export_witness :
  ModelConverter.convert_model working_blender "obj/a.obj.zip" "texture/a.jpg"
                               "out/a.glb.zip" nothing_converted =
  (Returns tt,
   {| ModelConverter.exported := [];
      ModelConverter.journal := [ModelConverter.Exported "out/a.glb.zip"] |}).
Proof.
  exact (@convert_model_success_without_export working_blender "obj/a.obj.zip"
           "texture/a.jpg" "out/a.glb.zip" nothing_converted
           working_blender_obliging eq_refl eq_refl).
Defined.

Lemma endswith_cons (c : ascii) (s suffix : string) :
  PyStr.endswith s suffix = true -> PyStr.endswith (String c s) suffix = true.
Proof. intro H. cbn [PyStr.endswith]. rewrite H. apply orb_true_r. Qed.

Lemma endswith_prepend (p s suffix : string) :
  PyStr.endswith s suffix = true -> PyStr.endswith (p ++ s) suffix = true.
Proof.
  intro H. induction p as [|c p IH]; [exact H|].
  cbn [String.append]. apply endswith_cons. exact IH.
Qed.

Lemma replace_from_glb (s : string) (skip : nat) :
  passing_obj skip s = true ->
  PyStr.endswith s ".obj" = true ->
  PyStr.endswith (replace_from ".obj" ".glb" skip s) ".glb" = true.
Proof.
  revert skip. induction s as [|c rest IH]; intros skip Hp He.
  - cbn in He. discriminate.
  - cbn [PyStr.endswith] in He. apply orb_prop in He.
    destruct skip as [|[|[|[|k]]]]; cbn [passing_obj] in Hp.
    + cbn [replace_from].
      destruct (PyStr.startswith (String c rest) ".obj") eqn:S.
      * change (String.length ".obj" - 1) with 3.
        destruct He as [Heq | Hrest].
        -- apply String.eqb_eq in Heq. injection Heq as -> ->. reflexivity.
        -- apply endswith_prepend. apply IH; [|exact Hrest].
           cbn [PyStr.startswith] in S. apply andb_prop in S. destruct S as [_ S].
           exact S.
      * destruct He as [Heq | Hrest].
        -- apply String.eqb_eq in Heq. rewrite Heq in S. discriminate S.
        -- apply endswith_cons. apply IH; [reflexivity | exact Hrest].
    + cbn [PyStr.startswith] in Hp. apply andb_prop in Hp. destruct Hp as [Hc _].
      apply Ascii.eqb_eq in Hc. subst c.
      destruct He as [Heq | Hrest]; [discriminate Heq|].
      cbn [replace_from]. apply IH; [reflexivity | exact Hrest].
    + cbn [PyStr.startswith] in Hp. apply andb_prop in Hp. destruct Hp as [Hc Hp].
      apply Ascii.eqb_eq in Hc. subst c.
      destruct He as [Heq | Hrest]; [discriminate Heq|].
      cbn [replace_from]. apply IH; [exact Hp | exact Hrest].
    + cbn [PyStr.startswith] in Hp. apply andb_prop in Hp. destruct Hp as [Hc Hp].
      apply Ascii.eqb_eq in Hc. subst c.
      destruct He as [Heq | Hrest]; [discriminate Heq|].
      cbn [replace_from]. apply IH; [exact Hp | exact Hrest].
    + discriminate Hp.
Qed.

(** X25. For a model whose [objName] ends with [.obj] the name [process]
    forms for the output ends with [.glb], however often [.obj] occurs
    before: every occurrence is replaced, the last one included. *)
Theorem model_name_glb (s : string) :
  PyStr.endswith s ".obj" = true ->
  exists name,
    ModelConverter.model_name (JStr s) = Returns name /\
    PyStr.endswith name ".glb" = true.
Proof.
  intro He. exists (str_replace ".obj" ".glb" s). split; [reflexivity|].
  apply replace_from_glb; [reflexivity | exact He].
Qed.

Lemma model_name_glb_witness :
  exists name,
    ModelConverter.model_name (JStr "shop.obj.v2.obj") = Returns name /\
    PyStr.endswith name ".glb" = true.
Proof. exact (@model_name_glb "shop.obj.v2.obj" eq_refl). Defined.

(** X26. A conversion that fails stops nothing.  When the three paths of
    every row can be formed, [process] returns normally and logs exactly one
    entry per row, in the order of the rows: the warning for the first of
    its two files that is missing, else the success or the failure of its
    conversion, with the output path of that row. *)
Theorem converter_process_goes_on
        (bpy : ModelConverter.Blender)
        (input_downloader_dir output_converter_dir : string)
        (rows : list json) (st : ModelConverter.State) :
  forallb (ModelConverter.convertible bpy input_downloader_dir output_converter_dir)
          rows = true ->
  let out := ModelConverter.process bpy input_downloader_dir output_converter_dir
                                    (JArr rows) st in
  fst out = Returns tt /\
  exists entries,
    ModelConverter.journal (snd out) = ModelConverter.journal st ++ entries /\
    Forall2 (fun row m =>
               exists paths,
                 ModelConverter.row_paths bpy input_downloader_dir
                                          output_converter_dir row = Returns paths /\
                 ModelConverter.concerns bpy paths m)
            rows entries.
Proof.
  intros Hrows. cbn zeta.
  change (ModelConverter.process bpy input_downloader_dir output_converter_dir
                                 (JArr rows) st)
    with (Stage.for_each
            (ModelConverter.process_row bpy input_downloader_dir output_converter_dir)
            rows st).
  revert st. induction rows as [|row rows IH]; intro st.
  - cbn. split; [reflexivity|]. exists []. rewrite app_nil_r. split; constructor.
  - cbn [forallb] in Hrows. apply andb_prop in Hrows. destruct Hrows as [Hrow Hrest].
    specialize (IH Hrest).
    assert (P : exists st' m paths,
               ModelConverter.process_row bpy input_downloader_dir
                                          output_converter_dir row st
                 = (Returns tt, st') /\
               ModelConverter.journal st' = ModelConverter.journal st ++ [m] /\
               ModelConverter.row_paths bpy input_downloader_dir
                                        output_converter_dir row = Returns paths /\
               ModelConverter.concerns bpy paths m).
    { unfold ModelConverter.convertible in Hrow.
      unfold ModelConverter.process_row, Stage.bind, Stage.lift.
      unfold ModelConverter.row_paths, abind in *.
      destruct (getitem row "model") as [model|]; [|discriminate].
      destruct (getitem model "objName") as [objName|]; [|discriminate].
      destruct (ModelConverter.path_join bpy
                  [JStr input_downloader_dir; JStr "obj"; objName]) as [p1|];
        [|discriminate].
      destruct (getitem model "textureName") as [textureName|]; [|discriminate].
      destruct (ModelConverter.path_join bpy
                  [JStr input_downloader_dir; JStr "texture"; textureName]) as [p2|];
        [|discriminate].
      destruct (ModelConverter.model_name objName) as [name|]; [|discriminate].
      destruct (ModelConverter.path_join bpy [JStr output_converter_dir; JStr name])
        as [p3|]; [|discriminate].
      destruct (ModelConverter.path_exists bpy p1) eqn:X1; cbn [negb].
      2:{ exists (snd (ModelConverter.logger (ModelConverter.MissingObj p1) st)),
                 (ModelConverter.MissingObj p1), (p1, p2, p3).
          split; [reflexivity | split; [reflexivity | split; [reflexivity|]]].
          unfold ModelConverter.concerns. rewrite X1. reflexivity. }
      destruct (ModelConverter.path_exists bpy p2) eqn:X2; cbn [negb].
      2:{ exists (snd (ModelConverter.logger (ModelConverter.MissingTexture p2) st)),
                 (ModelConverter.MissingTexture p2), (p1, p2, p3).
          split; [reflexivity | split; [reflexivity | split; [reflexivity|]]].
          unfold ModelConverter.concerns. rewrite X1, X2. reflexivity. }
      destruct (convert_model_logged bpy p1 p2 p3 st) as [st' [m [C [J K]]]].
      exists st', m, (p1, p2, p3).
      split; [exact C | split; [exact J | split; [reflexivity|]]].
      unfold ModelConverter.concerns. rewrite X1, X2. exact K. }
    destruct P as [st' [m [paths [E [J [Hp Hc]]]]]].
    cbn [Stage.for_each]. unfold Stage.bind. rewrite E.
    destruct (IH st') as [R [entries [N F]]]. split; [exact R|].
    exists (m :: entries). split.
    + rewrite N, J, <- app_assoc. reflexivity.
    + constructor; [exists paths; split; assumption | exact F].
Qed.

(** Two rows and a Blender that cannot import: both conversions fail, both
    are logged, each with the output path of its row. *)
Lemma converter_process_goes_on_witness :
  let out := ModelConverter.process broken_blender "downloads" "converted"
                                    (JArr [house_row; house_row]) nothing_converted in
  fst out = Returns tt /\
  exists entries,
    ModelConverter.journal (snd out) =
      ModelConverter.journal nothing_converted ++ entries /\
    Forall2 (fun row m =>
               exists paths,
                 ModelConverter.row_paths broken_blender "downloads" "converted" row
                   = Returns paths /\
                 ModelConverter.concerns broken_blender paths m)
            [house_row; house_row] entries.
Proof.
  exact (@converter_process_goes_on broken_blender "downloads" "converted"
           [house_row; house_row] nothing_converted eq_refl).
Defined.

(** * The record sink, from the handler to [main] *)






(** Small rows on the same device: every write is buffered, the handlers log
    their responses as crawled, and the error shows when the file is closed:
    it leaves [run]. *)
Example small_rows_fail_at_close :
  exists w',
    run_ends sample_settings sample_repr full_device slow_browser full_outside
             one_feature_grid 3 init_world (Raise OSError) w' /\
    no_failed_response (log w') = true /\
    csv_rows w' =
      csv_rows init_world ++ [row_of building_a; row_of building_b; row_of building_b].
Proof.
  assert (R : exists c,
             run sample_settings sample_repr full_device slow_browser
                 one_feature_grid 3 init_world c /\
             completed c /\
             no_failed_response (log (world c)) = true /\
             csv_rows (world c) =
               csv_rows init_world ++
               [row_of building_a; row_of building_b; row_of building_b]).
  { eexists. split; [|split; [|split]].
    - eexists. eexists. split; [reflexivity | split; [reflexivity|]].
      do 8 crawl_one. apply steps_refl.
    - split; reflexivity.
    - reflexivity.
    - reflexivity. }
  destruct R as [c [Hrun [Hdone [Hlog Hrows]]]].
  exists (world c). split; [|split; assumption].
  pose proof (@ends_after_loop sample_settings sample_repr full_device slow_browser
                full_outside one_feature_grid 3 init_world c eq_refl Hrun Hdone) as E.
  unfold closing in E. rewrite Hrows in E. exact E.
Qed.
